(** * ShadowsocksConfig: configuration fields, Config and the two URI codecs

    A shallow embedding of [ShadowsocksConfig.ts].  The classes of the
    source become records, a constructor that can throw becomes a function
    into [result], and the services the source takes from its platform
    ([URL], [b64Encode], [b64Decode], [encodeURIComponent],
    [decodeURIComponent]) are the fields of the class [Platform].

    A string of the source is a [string] here: one character per UTF-16
    code unit, code units below 256 (the range [b64Encode] accepts). *)

From Stdlib Require Import String Ascii ZArith List Bool Lia.
From Stdlib Require Import DecimalString DecimalPos DecimalN.
Import ListNotations.

Local Open Scope Z_scope.
Local Open Scope string_scope.

(** ** The string operations of the source *)

Module Js.

Definition length (s : string) : Z := Z.of_nat (String.length s).

(** [s.indexOf(c)] for a one-character needle: -1 when absent. *)
Fixpoint indexOf_from (c : ascii) (s : string) (i : Z) : Z :=
  match s with
  | EmptyString => -1
  | String a s' => if Ascii.eqb a c then i else indexOf_from c s' (i + 1)
  end.

Definition indexOf (s : string) (c : ascii) : Z := indexOf_from c s 0.

(** [s.substring(from, to)]: both indices are clamped to [0, length] and
    swapped when [from > to]. *)
Definition clamp (len i : Z) : Z := Z.max 0 (Z.min i len).

Definition substring (s : string) (from to : Z) : string :=
  let from' := clamp (length s) from in
  let to' := clamp (length s) to in
  let lo := Z.min from' to' in
  let hi := Z.max from' to' in
  String.substring (Z.to_nat lo) (Z.to_nat (hi - lo)) s.

(** [s.substring(from)] *)
Definition substring_from (s : string) (from : Z) : string :=
  substring s from (length s).

(** [s[i]]: [None] stands for [undefined]. *)
Definition charAt (s : string) (i : Z) : option ascii :=
  if (i <? 0)%Z then None else String.get (Z.to_nat i) s.

Definition startsWith (s p : string) : bool := String.prefix p s.

(** [s.replace(/%3D/g, '=')] *)
Fixpoint replace_3D (s : string) : string :=
  match s with
  | String "%" (String "3" (String "D" r)) => String "=" (replace_3D r)
  | String a r => String a (replace_3D r)
  | EmptyString => EmptyString
  end.

(** [Number.MAX_SAFE_INTEGER] and [Number.isSafeInteger]: an integer whose
    absolute value is at most 2^53 - 1 is a number of the source, exactly. *)
Definition MAX_SAFE_INTEGER : Z := 9007199254740991.

Definition isSafeInteger (n : Z) : bool := (Z.abs n <=? MAX_SAFE_INTEGER)%Z.

(** The text of a safe integer in a template literal: its decimal digits,
    after a minus sign when it is negative.  An integer outside the safe
    range need not be a number of the source, and a number from 1e21 on is
    printed with an exponent: the statements that read the text of a number
    are about safe integers. *)
Definition Number_toString (n : Z) : string :=
  NilZero.string_of_int (Z.to_int n).

Definition dquote : string := String (ascii_of_nat 34) EmptyString.

End Js.

(** ** Errors *)

(** What a call can throw: one of the two error classes of the source, or an
    error of the platform (a [TypeError] of [URL], the error of [b64Decode],
    a [URIError]), kept as its [name] and [message]. *)
Inductive Error : Type :=
| InvalidConfigField (message : string)
| InvalidURI (message : string)
| NativeError (name message : string).

Definition Error_name (e : Error) : string :=
  match e with
  | InvalidConfigField _ => "InvalidConfigField"
  | InvalidURI _ => "InvalidURI"
  | NativeError n _ => n
  end.

Definition Error_message (e : Error) : string :=
  match e with
  | InvalidConfigField m => m
  | InvalidURI m => m
  | NativeError _ m => m
  end.

Definition instanceof_InvalidURI (e : Error) : bool :=
  match e with InvalidURI _ => true | _ => false end.

Inductive result (A : Type) : Type :=
| OK (a : A)
| Throw (e : Error).
Arguments OK {A} a.
Arguments Throw {A} e.

Definition bind {A B : Type} (r : result A) (k : A -> result B) : result B :=
  match r with
  | OK a => k a
  | Throw e => Throw e
  end.

Notation "x <- r ;; k" := (bind r (fun x => k))
  (at level 61, r at next level, right associativity).

(** ** The platform *)

(** The outcome of a platform call. *)
Inductive native (A : Type) : Type :=
| Returns (a : A)
| Throws (name message : string).
Arguments Returns {A} a.
Arguments Throws {A} name message.

Definition lift {A : Type} (n : native A) : result A :=
  match n with
  | Returns a => OK a
  | Throws name message => Throw (NativeError name message)
  end.

(** The properties of a [URL] object the source reads.  [searchParams] is
    [None] on a platform without [URLSearchParams]. *)
Module URLObject.
Record t : Type := make {
  hostname : string;
  port : string;
  username : string;
  hash : string;
  searchParams : option (list (string * string))
}.
End URLObject.
Abbreviation URLObject := URLObject.t.

(** [searchParams.get(name)]: the first value under [name], [None] for
    [null]. *)
Fixpoint searchParams_get (ps : list (string * string)) (name : string)
  : option string :=
  match ps with
  | nil => None
  | (k, v) :: ps' => if String.eqb k name then Some v
                     else searchParams_get ps' name
  end.

Class Platform : Type := {
  URL : string -> native URLObject;
  b64Encode : string -> native string;
  b64Decode : string -> native string;
  encodeURIComponent : string -> native string;
  decodeURIComponent : string -> native string
}.

(** ** Values handed to the constructors *)

Inductive FieldKind : Type :=
| KHost | KPort | KMethod | KPassword | KTag | KPlugin.

(** [class ConfigField { constructor(public readonly data: string) }], one
    type per subclass. *)
Record ConfigField (k : FieldKind) : Type := mkField { data : string }.
Arguments mkField k data : assert.
Arguments data {k} c.

Definition toString {k : FieldKind} (f : ConfigField k) : string := data f.

Definition Host := ConfigField KHost.
Definition Port := ConfigField KPort.
Definition Method := ConfigField KMethod.
Definition Password := ConfigField KPassword.
Definition Tag := ConfigField KTag.
Definition Plugin := ConfigField KPlugin.

(** An argument of type [F | string], or [undefined] (an optional property
    of [UnsafeConfig] that is missing). *)
Inductive Arg (k : FieldKind) : Type :=
| Undefined
| Inst (f : ConfigField k)
| Str (s : string).
Arguments Undefined {k}.
Arguments Inst {k} f.
Arguments Str {k} s.

(** [Port | string | number]; a number is an integer here, a safe one
    ([Js.isSafeInteger]) wherever its text is read. *)
Inductive PortArg : Type :=
| OfArg (a : Arg KPort)
| Num (n : Z).

Definition PortArg_safe (port : PortArg) : bool :=
  match port with
  | OfArg _ => true
  | Num n => Js.isSafeInteger n
  end.

(** A value once [x instanceof F] has replaced an instance by its [data]. *)
Inductive Value : Type :=
| VUndefined
| VString (s : string)
| VNumber (n : Z).

Definition unwrap {k : FieldKind} (a : Arg k) : Value :=
  match a with
  | Undefined => VUndefined
  | Inst f => VString (data f)
  | Str s => VString s
  end.

Definition unwrap_port (a : PortArg) : Value :=
  match a with
  | OfArg a => unwrap a
  | Num n => VNumber n
  end.

(** [`${v}`] *)
Definition String_of (v : Value) : string :=
  match v with
  | VUndefined => "undefined"
  | VString s => s
  | VNumber n => Js.Number_toString n
  end.

(** [v || ''] for a string or [undefined]. *)
Definition or_empty (v : Value) : string :=
  match v with
  | VString s => s
  | _ => ""
  end.

(** Truthiness of a string or [undefined]. *)
Definition truthy (v : Value) : bool :=
  match v with
  | VUndefined => false
  | VString s => negb (String.eqb s "")
  | VNumber n => negb (n =? 0)%Z
  end.

(** [interface UnsafeConfig]: every property is optional. *)
Module UnsafeConfig.
Record t : Type := make {
  host : Arg KHost;
  port : PortArg;
  method : Arg KMethod;
  password : Arg KPassword;
  tag : Arg KTag;
  plugin : Arg KPlugin
}.
End UnsafeConfig.
Abbreviation UnsafeConfig := UnsafeConfig.t.

(** [class Config]: the five private fields and their getters. *)
Module Config.
Record t : Type := make {
  host_ : Host;
  port_ : Port;
  method_ : Method;
  password_ : Password;
  tag_ : Tag
}.
Definition host (c : t) : string := toString (host_ c).
Definition port (c : t) : string := toString (port_ c).
Definition method (c : t) : string := toString (method_ c).
Definition password (c : t) : string := toString (password_ c).
Definition tag (c : t) : string := toString (tag_ c).

(** A [Config] read as an [UnsafeConfig]: its getters return strings, and it
    has no [plugin] property. *)
Definition as_UnsafeConfig (c : t) : UnsafeConfig :=
  UnsafeConfig.make (Str (host c)) (OfArg (Str (port c))) (Str (method c))
                    (Str (password c)) (Str (tag c)) Undefined.
End Config.
Abbreviation Config := Config.t.

(** [class LegacyBase64URI extends ShadowsocksURI]: the [Config] it extends
    and its own field. *)
Module LegacyBase64URI.
Record t : Type := make {
  super : Config;
  b64EncodedData : string
}.
Definition as_UnsafeConfig (u : t) : UnsafeConfig :=
  Config.as_UnsafeConfig (super u).
End LegacyBase64URI.
Abbreviation LegacyBase64URI := LegacyBase64URI.t.

(** [class Sip002URI extends ShadowsocksURI] *)
Module Sip002URI.
Record t : Type := make {
  super : Config;
  b64EncodedUserInfo : string;
  plugin_ : Plugin
}.
Definition plugin (u : t) : string := toString (plugin_ u).
Definition as_UnsafeConfig (u : t) : UnsafeConfig :=
  let c := super u in
  UnsafeConfig.make (Str (Config.host c)) (OfArg (Str (Config.port c)))
                    (Str (Config.method c)) (Str (Config.password c))
                    (Str (Config.tag c)) (Str (plugin u)).
End Sip002URI.
Abbreviation Sip002URI := Sip002URI.t.

(** The classes [ShadowsocksURI.parse] iterates over, and what it returns. *)
Inductive UriType : Type :=
| LegacyBase64URI_class
| Sip002URI_class.

Inductive ParsedURI : Type :=
| Legacy (u : LegacyBase64URI)
| Sip002 (u : Sip002URI).

Definition ParsedURI_config (p : ParsedURI) : Config :=
  match p with
  | Legacy u => LegacyBase64URI.super u
  | Sip002 u => Sip002URI.super u
  end.

Section Embedding.

Context {P : Platform}.

(** ** The ConfigField classes *)

Definition throwErrorForInvalidField {A : Type} (name : string) (value : Value)
  : result A :=
  Throw (InvalidConfigField ("Invalid " ++ name ++ ": " ++ String_of value)).

Definition Host_new (host : Arg KHost) : result Host :=
  let host := unwrap host in
  match URL ("http://" ++ String_of host ++ "/") with
  | Returns urlParserResult => OK (mkField KHost (URLObject.hostname urlParserResult))
  | Throws _ _ => throwErrorForInvalidField "host" host
  end.

Definition Port_new (port : PortArg) : result Port :=
  let port := unwrap_port port in
  let throwError := throwErrorForInvalidField "port" port in
  match port with
  | VString "" => throwError
  | _ =>
      match URL ("http://0.0.0.0:" ++ String_of port ++ "/") with
      | Returns urlParserResult => OK (mkField KPort (URLObject.port urlParserResult))
      | Throws _ _ => throwError
      end
  end.

Definition METHODS : list string :=
  [ "rc4-md5";
    "aes-128-gcm";
    "aes-192-gcm";
    "aes-256-gcm";
    "aes-128-cfb";
    "aes-192-cfb";
    "aes-256-cfb";
    "aes-128-ctr";
    "aes-192-ctr";
    "aes-256-ctr";
    "camellia-128-cfb";
    "camellia-192-cfb";
    "camellia-256-cfb";
    "bf-cfb";
    "chacha20-ietf-poly1305";
    "salsa20";
    "chacha20";
    "chacha20-ietf" ].

Definition METHODS_has (v : Value) : bool :=
  match v with
  | VString s => existsb (String.eqb s) METHODS
  | _ => false
  end.

Definition Method_new (method : Arg KMethod) : result Method :=
  let method := unwrap method in
  if METHODS_has method
  then OK (mkField KMethod (String_of method))
  else throwErrorForInvalidField "method" method.

Definition Password_new (password : Arg KPassword) : Password :=
  mkField KPassword (or_empty (unwrap password)).

Definition Tag_new (tag : Arg KTag) : Tag :=
  mkField KTag (or_empty (unwrap tag)).

Definition Plugin_new (plugin : Arg KPlugin) : Plugin :=
  mkField KPlugin (or_empty (unwrap plugin)).

(** ** Config *)

(** The constructor runs the five setters in this order; the first that
    throws ends it. *)
Definition Config_new (config : UnsafeConfig) : result Config :=
  host_ <- Host_new (UnsafeConfig.host config) ;;
  port_ <- Port_new (UnsafeConfig.port config) ;;
  method_ <- Method_new (UnsafeConfig.method config) ;;
  let password_ := Password_new (UnsafeConfig.password config) in
  let tag_ := Tag_new (UnsafeConfig.tag config) in
  OK (Config.make host_ port_ method_ password_ tag_).

(** ** ShadowsocksURI *)

(** [constructor(config) { super(new Config(config)); }] *)
Definition ShadowsocksURI_new (config : UnsafeConfig) : result Config :=
  c <- Config_new config ;;
  Config_new (Config.as_UnsafeConfig c).

Definition validateProtocol (uri : string) : result unit :=
  if Js.startsWith uri "ss://" then OK tt
  else Throw (InvalidURI ("URI must start with " ++ Js.dquote ++ "ss://"
                            ++ Js.dquote ++ ": " ++ uri)).

Definition getHash (config : UnsafeConfig) : result string :=
  let tag := unwrap (UnsafeConfig.tag config) in
  if truthy tag
  then e <- lift (encodeURIComponent (String_of tag)) ;; OK ("#" ++ e)
  else OK "".

(** ** LegacyBase64URI *)

(** [for (; b64EncodedData[dataLength - 1 - paddingLength] === '=';
          paddingLength++);] with the number of tests bounded by [fuel]. *)
Fixpoint countPadding (fuel : nat) (b64EncodedData : string)
  (dataLength paddingLength : Z) : Z :=
  match fuel with
  | O => paddingLength
  | S fuel' =>
      match Js.charAt b64EncodedData (dataLength - 1 - paddingLength) with
      | Some c =>
          if Ascii.eqb c "="
          then countPadding fuel' b64EncodedData dataLength (paddingLength + 1)
          else paddingLength
      | None => paddingLength
      end
  end.

Definition stripPadding (b64EncodedData : string) : string :=
  let dataLength := Js.length b64EncodedData in
  let paddingLength :=
    countPadding (S (String.length b64EncodedData)) b64EncodedData dataLength 0 in
  if (paddingLength =? 0)%Z then b64EncodedData
  else Js.substring b64EncodedData 0 (dataLength - paddingLength).

Definition LegacyBase64URI_new (config : UnsafeConfig) : result LegacyBase64URI :=
  c <- Config_new config ;;
  this <- ShadowsocksURI_new (Config.as_UnsafeConfig c) ;;
  let method := Config.method this in
  let password := Config.password this in
  let host := Config.host this in
  let port := Config.port this in
  b64EncodedData <- lift (b64Encode (method ++ ":" ++ password ++ "@" ++ host
                                       ++ ":" ++ port)) ;;
  OK (LegacyBase64URI.make this (stripPadding b64EncodedData)).

Definition LegacyBase64URI_parse (uri : string) : result LegacyBase64URI :=
  _ <- validateProtocol uri ;;
  let hashIndex := Js.indexOf uri "#" in
  let '(b64EndIndex, tagStartIndex) :=
    if (hashIndex =? -1)%Z then (Js.length uri, Js.length uri)
    else (hashIndex, hashIndex + 1) in
  tagString <- lift (decodeURIComponent (Js.substring_from uri tagStartIndex)) ;;
  let tag := Tag_new (Str tagString) in
  let b64EncodedData := Js.substring uri (Js.length "ss://") b64EndIndex in
  b64DecodedData <- lift (b64Decode b64EncodedData) ;;
  let atSignIndex := Js.indexOf b64DecodedData "@" in
  if (atSignIndex =? -1)%Z
  then Throw (InvalidURI ("Missing " ++ Js.dquote ++ "@" ++ Js.dquote ++ ": "
                            ++ b64DecodedData))
  else
  let methodAndPassword := Js.substring b64DecodedData 0 atSignIndex in
  let methodEndIndex := Js.indexOf methodAndPassword ":" in
  if (methodEndIndex =? -1)%Z
  then Throw (InvalidURI ("Missing password part: " ++ methodAndPassword))
  else
  let methodString := Js.substring methodAndPassword 0 methodEndIndex in
  method <- Method_new (Str methodString) ;;
  let passwordStartIndex := methodEndIndex + 1 in
  let passwordString := Js.substring_from methodAndPassword passwordStartIndex in
  let password := Password_new (Str passwordString) in
  let hostStartIndex := atSignIndex + 1 in
  let hostAndPort := Js.substring_from b64DecodedData hostStartIndex in
  let hostEndIndex := Js.indexOf hostAndPort ":" in
  if (hostEndIndex =? -1)%Z
  then Throw (InvalidURI ("Missing port part: " ++ hostAndPort))
  else
  host <- Host_new (Str (Js.substring hostAndPort 0 hostEndIndex)) ;;
  let portStartIndex := hostEndIndex + 1 in
  let portString := Js.substring_from hostAndPort portStartIndex in
  port <- Port_new (OfArg (Str portString)) ;;
  LegacyBase64URI_new
    (UnsafeConfig.make (Inst host) (OfArg (Inst port)) (Inst method)
                       (Inst password) (Inst tag) Undefined).

Definition LegacyBase64URI_toString (this : LegacyBase64URI) : result string :=
  hash <- getHash (LegacyBase64URI.as_UnsafeConfig this) ;;
  OK ("ss://" ++ LegacyBase64URI.b64EncodedData this ++ hash).

(** ** Sip002URI *)

Definition Sip002URI_new (config : UnsafeConfig) : result Sip002URI :=
  c <- Config_new config ;;
  this <- ShadowsocksURI_new (Config.as_UnsafeConfig c) ;;
  let method := Config.method this in
  let password := Config.password this in
  b64EncodedUserInfo <- lift (b64Encode (method ++ ":" ++ password)) ;;
  OK (Sip002URI.make this b64EncodedUserInfo
                     (Plugin_new (UnsafeConfig.plugin config))).

Definition Sip002URI_parse (uri : string) : result Sip002URI :=
  _ <- validateProtocol uri ;;
  let inputForUrlParser := "http" ++ Js.substring_from uri 2 in
  urlParserResult <- lift (URL inputForUrlParser) ;;
  host <- Host_new (Str (URLObject.hostname urlParserResult)) ;;
  port <- Port_new (OfArg (Str (URLObject.port urlParserResult))) ;;
  tagString <- lift (decodeURIComponent
                       (Js.substring_from (URLObject.hash urlParserResult) 1)) ;;
  let tag := Tag_new (Str tagString) in
  let b64EncodedUserInfo := Js.replace_3D (URLObject.username urlParserResult) in
  b64DecodedUserInfo <- lift (b64Decode b64EncodedUserInfo) ;;
  let colonIdx := Js.indexOf b64DecodedUserInfo ":" in
  if (colonIdx =? -1)%Z
  then Throw (InvalidURI ("Missing password part: " ++ b64DecodedUserInfo))
  else
  let methodString := Js.substring b64DecodedUserInfo 0 colonIdx in
  method <- Method_new (Str methodString) ;;
  let passwordString := Js.substring_from b64DecodedUserInfo (colonIdx + 1) in
  let password := Password_new (Str passwordString) in
  let plugin : Arg KPlugin :=
    match URLObject.searchParams urlParserResult with
    | Some searchParams =>
        match searchParams_get searchParams "plugin" with
        | Some pluginString =>
            if truthy (VString pluginString)
            then Inst (Plugin_new (Str pluginString))
            else Undefined
        | None => Undefined
        end
    | None => Undefined
    end in
  Sip002URI_new
    (UnsafeConfig.make (Inst host) (OfArg (Inst port)) (Inst method)
                       (Inst password) (Inst tag) plugin).

Definition Sip002URI_toString (this : Sip002URI) : result string :=
  let b64EncodedUserInfo := Sip002URI.b64EncodedUserInfo this in
  let host := Config.host (Sip002URI.super this) in
  let port := Config.port (Sip002URI.super this) in
  let plugin := Sip002URI.plugin this in
  let queryString := if truthy (VString plugin) then "?plugin=" ++ plugin else "" in
  hash <- getHash (Sip002URI.as_UnsafeConfig this) ;;
  OK ("ss://" ++ b64EncodedUserInfo ++ "@" ++ host ++ ":" ++ port ++ "/"
        ++ queryString ++ hash).

(** ** ShadowsocksURI.parse *)

Definition UriType_parse (T : UriType) (uri : string) : result ParsedURI :=
  match T with
  | LegacyBase64URI_class => u <- LegacyBase64URI_parse uri ;; OK (Legacy u)
  | Sip002URI_class => u <- Sip002URI_parse uri ;; OK (Sip002 u)
  end.

(** The [for ... of] loop: [inl] when an iteration returns, else the value
    of [error] after the last one ([None] for [undefined]). *)
Fixpoint parse_for (types : list UriType) (uri : string) (error : option Error)
  : ParsedURI + option Error :=
  match types with
  | nil => inr error
  | T :: types' =>
      match UriType_parse T uri with
      | OK c => inl c
      | Throw e =>
          parse_for types' uri
            (match error with Some e0 => Some e0 | None => Some e end)
      end
  end.

(** [a || b] for strings. *)
Definition or_string (a b : string) : string :=
  if String.eqb a "" then b else a.

(** What follows the loop.  With [error] still [undefined] (no class was
    tried) reading [error.name] throws a [TypeError]. *)
Definition rethrow (uri : string) (error : option Error) : Error :=
  match error with
  | None => NativeError "TypeError" "Cannot read property 'name' of undefined"
  | Some error =>
      if negb (instanceof_InvalidURI error) then
        let originalErrorName := or_string (Error_name error) "(Unnamed Error)" in
        let originalErrorMessage :=
          or_string (Error_message error) "(no error message provided)" in
        let originalErrorString :=
          originalErrorName ++ ": " ++ originalErrorMessage in
        let newErrorMessage :=
          "Invalid input: " ++ uri ++ " - Original error: " ++ originalErrorString in
        InvalidURI newErrorMessage
      else error
  end.

Definition parse_with (types : list UriType) (uri : string) : result ParsedURI :=
  match parse_for types uri None with
  | inl c => OK c
  | inr error => Throw (rethrow uri error)
  end.

Definition ShadowsocksURI_parse (uri : string) : result ParsedURI :=
  parse_with [LegacyBase64URI_class; Sip002URI_class] uri.

End Embedding.

(** ** The setters

    [set host(host) { this.host_ = new Host(host); }] and its siblings.  A
    setter that throws assigns nothing. *)

Section Setters.

Context {P : Platform}.

Definition Config_set_host (this : Config) (host : Arg KHost) : result Config :=
  host_ <- Host_new host ;;
  OK (Config.make host_ (Config.port_ this) (Config.method_ this)
                  (Config.password_ this) (Config.tag_ this)).

Definition Config_set_port (this : Config) (port : PortArg) : result Config :=
  port_ <- Port_new port ;;
  OK (Config.make (Config.host_ this) port_ (Config.method_ this)
                  (Config.password_ this) (Config.tag_ this)).

Definition Config_set_method (this : Config) (method : Arg KMethod) : result Config :=
  method_ <- Method_new method ;;
  OK (Config.make (Config.host_ this) (Config.port_ this) method_
                  (Config.password_ this) (Config.tag_ this)).

Definition Config_set_password (this : Config) (password : Arg KPassword) : Config :=
  Config.make (Config.host_ this) (Config.port_ this) (Config.method_ this)
              (Password_new password) (Config.tag_ this).

Definition Config_set_tag (this : Config) (tag : Arg KTag) : Config :=
  Config.make (Config.host_ this) (Config.port_ this) (Config.method_ this)
              (Config.password_ this) (Tag_new tag).

(** A codec object is a [Config]: a setter of [Config] called on it changes
    its [Config] part and leaves the fields of the codec as they are. *)
Definition LegacyBase64URI_set (this : LegacyBase64URI) (super : Config)
  : LegacyBase64URI :=
  LegacyBase64URI.make super (LegacyBase64URI.b64EncodedData this).

Definition Sip002URI_set (this : Sip002URI) (super : Config) : Sip002URI :=
  Sip002URI.make super (Sip002URI.b64EncodedUserInfo this) (Sip002URI.plugin_ this).

(** [set plugin(plugin) { this.plugin_ = new Plugin(plugin); }] *)
Definition Sip002URI_set_plugin (this : Sip002URI) (plugin : Arg KPlugin)
  : Sip002URI :=
  Sip002URI.make (Sip002URI.super this) (Sip002URI.b64EncodedUserInfo this)
                 (Plugin_new plugin).

End Setters.

(** * A reference platform

    Executable models of the five platform services, for running the
    embedding on concrete inputs.  They follow the [base-64] package
    ([b64Encode], [b64Decode]), ECMAScript ([encodeURIComponent],
    [decodeURIComponent]) and the WHATWG URL Standard ([URL]). *)

Module Chars.

Definition code (c : ascii) : N := N_of_ascii c.

Definition is_digit (c : ascii) : bool := (48 <=? code c)%N && (code c <=? 57)%N.
Definition is_upper (c : ascii) : bool := (65 <=? code c)%N && (code c <=? 90)%N.
Definition is_lower (c : ascii) : bool := (97 <=? code c)%N && (code c <=? 122)%N.
Definition is_alpha (c : ascii) : bool := is_upper c || is_lower c.
Definition is_alnum (c : ascii) : bool := is_alpha c || is_digit c.

Definition hex_value (c : ascii) : option N :=
  if is_digit c then Some (code c - 48)%N
  else if (65 <=? code c)%N && (code c <=? 70)%N then Some (code c - 55)%N
  else if (97 <=? code c)%N && (code c <=? 102)%N then Some (code c - 87)%N
  else None.

Definition hex_digit_upper (n : N) : ascii :=
  if (n <? 10)%N then ascii_of_N (48 + n) else ascii_of_N (55 + n).

Definition hex_digit_lower (n : N) : ascii :=
  if (n <? 10)%N then ascii_of_N (48 + n) else ascii_of_N (87 + n).

Definition to_lower (c : ascii) : ascii :=
  if is_upper c then ascii_of_N (code c + 32) else c.

(** [%XX] of one byte. *)
Definition percent_byte (b : N) : string :=
  String "%" (String (hex_digit_upper (b / 16)) (String (hex_digit_upper (b mod 16)) "")).

(** The UTF-8 bytes of a code unit below 256, percent-encoded. *)
Definition percent_utf8 (c : ascii) : string :=
  let n := code c in
  if (n <? 128)%N then percent_byte n
  else percent_byte (192 + n / 64) ++ percent_byte (128 + n mod 64).

Fixpoint map (f : ascii -> ascii) (s : string) : string :=
  match s with
  | EmptyString => EmptyString
  | String a r => String (f a) (map f r)
  end.

Fixpoint forallb (f : ascii -> bool) (s : string) : bool :=
  match s with
  | EmptyString => true
  | String a r => f a && forallb f r
  end.

Definition mem (c : ascii) (set : string) : bool :=
  negb (forallb (fun a => negb (Ascii.eqb a c)) set).

Fixpoint filter (f : ascii -> bool) (s : string) : string :=
  match s with
  | EmptyString => EmptyString
  | String a r => if f a then String a (filter f r) else filter f r
  end.

(** Percent-encode the characters of [s] for which [inset] holds. *)
Fixpoint percent_encode (inset : ascii -> bool) (s : string) : string :=
  match s with
  | EmptyString => EmptyString
  | String a r =>
      (if inset a then percent_utf8 a else String a "") ++ percent_encode inset r
  end.

(** [s] up to the first character satisfying [stop], and the rest from that
    character on. *)
Fixpoint break (stop : ascii -> bool) (s : string) : string * string :=
  match s with
  | EmptyString => (EmptyString, EmptyString)
  | String a r =>
      if stop a then (EmptyString, s)
      else let '(x, y) := break stop r in (String a x, y)
  end.

(** The pieces of [s] between occurrences of [sep]. *)
Fixpoint split (sep : ascii) (s : string) : list string :=
  match s with
  | EmptyString => [EmptyString]
  | String a r =>
      if Ascii.eqb a sep then EmptyString :: split sep r
      else match split sep r with
           | p :: ps => String a p :: ps
           | nil => [String a EmptyString]
           end
  end.

End Chars.

(** ** base64, after the [base-64] package *)

Module Base64.

Definition TABLE : string :=
  "ABCDEFGHIJKLMNOPQRSTUVWXYZabcdefghijklmnopqrstuvwxyz0123456789+/".

Definition TABLE_charAt (n : N) : ascii :=
  match String.get (N.to_nat n) TABLE with
  | Some c => c
  | None => "="%char
  end.

Fixpoint index_in (c : ascii) (s : string) (i : N) : option N :=
  match s with
  | EmptyString => None
  | String a r => if Ascii.eqb a c then Some i else index_in c r (i + 1)
  end.

Definition TABLE_indexOf (c : ascii) : option N := index_in c TABLE 0.

Fixpoint encode_loop (input : string) : string :=
  match input with
  | String a (String b (String c r)) =>
      let buffer := (Chars.code a * 65536 + Chars.code b * 256 + Chars.code c)%N in
      String (TABLE_charAt (N.land (N.shiftr buffer 18) 63))
        (String (TABLE_charAt (N.land (N.shiftr buffer 12) 63))
           (String (TABLE_charAt (N.land (N.shiftr buffer 6) 63))
              (String (TABLE_charAt (N.land buffer 63)) (encode_loop r))))
  | String a (String b EmptyString) =>
      let buffer := (Chars.code a * 256 + Chars.code b)%N in
      String (TABLE_charAt (N.shiftr buffer 10))
        (String (TABLE_charAt (N.land (N.shiftr buffer 4) 63))
           (String (TABLE_charAt (N.land (N.shiftl buffer 2) 63)) "="))
  | String a EmptyString =>
      let buffer := Chars.code a in
      String (TABLE_charAt (N.shiftr buffer 2))
        (String (TABLE_charAt (N.land (N.shiftl buffer 4) 63)) "==")
  | EmptyString => EmptyString
  end.

(** Every character of a [string] is in the Latin-1 range, so [encode]
    never throws here. *)
Definition encode (input : string) : native string :=
  Returns (encode_loop input).

Definition is_space (c : ascii) : bool :=
  Chars.mem c (String (ascii_of_nat 9) (String (ascii_of_nat 10)
                 (String (ascii_of_nat 12) (String (ascii_of_nat 13) " ")))).

(** [input.replace(/==?$/, '')] *)
Fixpoint strip_end_padding (input : string) : string :=
  match input with
  | String a r =>
      if Ascii.eqb a "=" && (String.eqb r "" || String.eqb r "=")
      then EmptyString
      else String a (strip_end_padding r)
  | EmptyString => EmptyString
  end.

Fixpoint sextets (input : string) : option (list N) :=
  match input with
  | EmptyString => Some nil
  | String a r =>
      match TABLE_indexOf a, sextets r with
      | Some n, Some ns => Some (n :: ns)
      | _, _ => None
      end
  end.

Definition byte (n : N) : ascii := ascii_of_N (N.land 255 n).

Fixpoint decode_loop (buffers : list N) : string :=
  match buffers with
  | b0 :: b1 :: b2 :: b3 :: r =>
      let s1 := (b0 * 64 + b1)%N in
      let s2 := (s1 * 64 + b2)%N in
      let s3 := (s2 * 64 + b3)%N in
      String (byte (N.shiftr s1 4))
        (String (byte (N.shiftr s2 2)) (String (byte s3) (decode_loop r)))
  | [b0; b1; b2] =>
      let s1 := (b0 * 64 + b1)%N in
      let s2 := (s1 * 64 + b2)%N in
      String (byte (N.shiftr s1 4)) (String (byte (N.shiftr s2 2)) "")
  | [b0; b1] =>
      let s1 := (b0 * 64 + b1)%N in
      String (byte (N.shiftr s1 4)) ""
  | _ => EmptyString
  end.

Definition decode (input : string) : native string :=
  let input := Chars.filter (fun c => negb (is_space c)) input in
  let input :=
    if (N.of_nat (String.length input) mod 4 =? 0)%N
    then strip_end_padding input else input in
  let length := N.of_nat (String.length input) in
  match sextets input with
  | Some buffers =>
      if (length mod 4 =? 1)%N
      then Throws "InvalidCharacterError"
             "Invalid character: the string to be decoded is not correctly encoded."
      else Returns (decode_loop buffers)
  | None =>
      Throws "InvalidCharacterError"
        "Invalid character: the string to be decoded is not correctly encoded."
  end.

End Base64.

(** ** [encodeURIComponent] and [decodeURIComponent] *)

Module UriComponent.

(** uriUnreserved: letters, digits and [-_.!~*'()]. *)
Definition unreserved (c : ascii) : bool :=
  Chars.is_alnum c || Chars.mem c "-_.!~*'()".

(** A code unit below 256 is never a lone surrogate: no [URIError]. *)
Definition encode (s : string) : native string :=
  Returns (Chars.percent_encode (fun c => negb (unreserved c)) s).

(** The byte of [%XY] at the head of [s], and what follows it. *)
Definition escape (s : string) : option (N * string) :=
  match s with
  | String "%" (String x (String y r)) =>
      match Chars.hex_value x, Chars.hex_value y with
      | Some h, Some l => Some ((h * 16 + l)%N, r)
      | _, _ => None
      end
  | _ => None
  end.

(** One-byte and two-byte UTF-8 sequences are decoded.  A longer sequence
    decodes to a code point above 255, which a [string] cannot hold: the
    model reports it like a malformed one. *)
Fixpoint decode_loop (fuel : nat) (s : string) : option string :=
  match fuel with
  | O => None
  | S fuel' =>
      match s with
      | EmptyString => Some EmptyString
      | String "%" _ =>
          match escape s with
          | Some (B, r) =>
              if (B <? 128)%N then
                option_map (String (ascii_of_N B)) (decode_loop fuel' r)
              else if (B =? 194)%N || (B =? 195)%N then
                match escape r with
                | Some (B2, r2) =>
                    if (128 <=? B2)%N && (B2 <? 192)%N then
                      option_map (String (ascii_of_N ((B - 192) * 64 + (B2 - 128))))
                                 (decode_loop fuel' r2)
                    else None
                | None => None
                end
              else None
          | None => None
          end
      | String a r => option_map (String a) (decode_loop fuel' r)
      end
  end.

Definition decode (s : string) : native string :=
  match decode_loop (S (String.length s)) s with
  | Some r => Returns r
  | None => Throws "URIError" "URI malformed"
  end.

End UriComponent.

(** ** [URL], after the WHATWG URL Standard

    The parser for an input whose scheme is [http], which is what every
    call of the source passes.  Hosts are handled as far as ASCII goes: a
    host with a character above 127 or with a label starting [xn--] needs
    the IDNA tables, and the model reports failure for it. *)

Module Whatwg.

Definition dq : ascii := ascii_of_nat 34.
Definition backslash : ascii := ascii_of_nat 92.

Definition decimal (n : N) : string := NilZero.string_of_uint (N.to_uint n).

(** *** Percent-encode sets *)

Definition c0_control_set (c : ascii) : bool :=
  (Chars.code c <? 32)%N || (126 <? Chars.code c)%N.

Definition fragment_set (c : ascii) : bool :=
  c0_control_set c || Chars.mem c " <>`" || Ascii.eqb c dq.

Definition query_set (c : ascii) : bool :=
  c0_control_set c || Chars.mem c " #<>" || Ascii.eqb c dq.

Definition special_query_set (c : ascii) : bool :=
  query_set c || Ascii.eqb c "'".

Definition path_set (c : ascii) : bool :=
  query_set c || Chars.mem c "?^`{}".

Definition userinfo_set (c : ascii) : bool :=
  path_set c || Chars.mem c "/:;=@[]|" || Ascii.eqb c backslash.

(** *** Percent-decoding *)

Fixpoint percent_decode (fuel : nat) (s : string) : string :=
  match fuel with
  | O => s
  | S fuel' =>
      match s with
      | EmptyString => EmptyString
      | String a r =>
          match UriComponent.escape s with
          | Some (b, r') => String (ascii_of_N b) (percent_decode fuel' r')
          | None => String a (percent_decode fuel' r)
          end
      end
  end.

(** UTF-8 decoding of the two-byte sequences for a code point below 256;
    other bytes are kept. *)
Fixpoint utf8_decode (s : string) : string :=
  match s with
  | String a (String b r as s') =>
      if ((Chars.code a =? 194)%N || (Chars.code a =? 195)%N)
         && (128 <=? Chars.code b)%N && (Chars.code b <? 192)%N
      then String (ascii_of_N ((Chars.code a - 192) * 64 + (Chars.code b - 128)))
                  (utf8_decode r)
      else String a (utf8_decode s')
  | _ => s
  end.

Definition percent_decode_string (s : string) : string :=
  utf8_decode (percent_decode (String.length s) s).

(** *** IPv4 *)

Fixpoint number_in (radix : N) (s : string) (acc : N) : option N :=
  match s with
  | EmptyString => Some acc
  | String c r =>
      match Chars.hex_value c with
      | Some v => if (v <? radix)%N then number_in radix r (acc * radix + v)
                  else None
      | None => None
      end
  end.

Definition parse_ipv4_number (input : string) : option N :=
  match input with
  | EmptyString => None
  | String "0" (String x r) =>
      if Ascii.eqb x "x" || Ascii.eqb x "X" then number_in 16 r 0
      else number_in 8 (String x r) 0
  | _ => number_in 10 input 0
  end.

(** [parts] without a trailing empty item, when there is another item. *)
Definition drop_last_empty (parts : list string) : list string :=
  match rev parts with
  | EmptyString :: (_ :: _) as r => rev r
  | _ => parts
  end.

Definition ends_in_a_number (input : string) : bool :=
  match rev (drop_last_empty (Chars.split "." input)) with
  | last :: _ =>
      (negb (String.eqb last "") && Chars.forallb Chars.is_digit last)
      || match parse_ipv4_number last with Some _ => true | None => false end
  | nil => false
  end.

Fixpoint all_some (l : list (option N)) : option (list N) :=
  match l with
  | nil => Some nil
  | Some n :: r => option_map (cons n) (all_some r)
  | None :: _ => None
  end.

Fixpoint ipv4_sum (numbers : list N) (counter : N) : N :=
  match numbers with
  | n :: r => (n * 256 ^ (3 - counter) + ipv4_sum r (counter + 1))%N
  | nil => 0%N
  end.

Definition parse_ipv4 (input : string) : option N :=
  let parts := drop_last_empty (Chars.split "." input) in
  if (4 <? List.length parts)%nat then None
  else
    match all_some (List.map parse_ipv4_number parts) with
    | None => None
    | Some numbers =>
        match rev numbers with
        | nil => None
        | last :: front =>
            if existsb (fun n => (255 <? n)%N) front then None
            else if (256 ^ (5 - N.of_nat (List.length numbers)) <=? last)%N then None
            else Some (last + ipv4_sum (rev front) 0)%N
        end
    end.

Definition serialize_ipv4 (address : N) : string :=
  decimal (address / 16777216) ++ "." ++ decimal ((address / 65536) mod 256)
    ++ "." ++ decimal ((address / 256) mod 256) ++ "." ++ decimal (address mod 256).

(** *** IPv6 *)

Definition piece (address : list N) (i : N) : N := nth (N.to_nat i) address 0%N.

Fixpoint set_piece (address : list N) (i : nat) (v : N) : list N :=
  match address, i with
  | nil, _ => nil
  | _ :: r, O => v :: r
  | a :: r, S i' => a :: set_piece r i' v
  end.

(** Up to [max] hexadecimal digits: their value, their number, the rest. *)
Fixpoint read_hex (max : nat) (s : string) (value length : N) : N * N * string :=
  match max, s with
  | S max', String c r =>
      match Chars.hex_value c with
      | Some v => read_hex max' r (value * 16 + v) (length + 1)
      | None => (value, length, s)
      end
  | _, _ => (value, length, s)
  end.

(** The digits of one part of a dotted quad inside an IPv6 address. *)
Fixpoint read_ipv4_piece (s : string) (ipv4Piece : option N) : option (N * string) :=
  match s with
  | String c r =>
      if Chars.is_digit c then
        let number := (Chars.code c - 48)%N in
        match ipv4Piece with
        | None => read_ipv4_piece r (Some number)
        | Some 0%N => None
        | Some p =>
            let p' := (p * 10 + number)%N in
            if (255 <? p')%N then None else read_ipv4_piece r (Some p')
        end
      else option_map (fun p => (p, s)) ipv4Piece
  | EmptyString => option_map (fun p => (p, s)) ipv4Piece
  end.

Fixpoint ipv4_in_ipv6 (fuel : nat) (s : string) (address : list N)
  (pieceIndex numbersSeen : N) : option (list N * N) :=
  match fuel with
  | O => None
  | S fuel' =>
      match s with
      | EmptyString =>
          if (numbersSeen =? 4)%N then Some (address, pieceIndex) else None
      | String c r =>
          let after_dot :=
            if (0 <? numbersSeen)%N then
              if Ascii.eqb c "." && (numbersSeen <? 4)%N then Some r else None
            else Some s in
          match after_dot with
          | None => None
          | Some s1 =>
              match read_ipv4_piece s1 None with
              | None => None
              | Some (ipv4Piece, s2) =>
                  let address' :=
                    set_piece address (N.to_nat pieceIndex)
                              (piece address pieceIndex * 256 + ipv4Piece) in
                  let numbersSeen' := (numbersSeen + 1)%N in
                  let pieceIndex' :=
                    if (numbersSeen' =? 2)%N || (numbersSeen' =? 4)%N
                    then (pieceIndex + 1)%N else pieceIndex in
                  ipv4_in_ipv6 fuel' s2 address' pieceIndex' numbersSeen'
              end
          end
      end
  end.

Fixpoint ipv6_loop (fuel : nat) (s : string) (address : list N) (pieceIndex : N)
  (compress : option N) : option (list N * N * option N) :=
  match fuel with
  | O => None
  | S fuel' =>
      match s with
      | EmptyString => Some (address, pieceIndex, compress)
      | String c r =>
          if (pieceIndex =? 8)%N then None
          else if Ascii.eqb c ":" then
            match compress with
            | Some _ => None
            | None => ipv6_loop fuel' r address (pieceIndex + 1) (Some (pieceIndex + 1)%N)
            end
          else
            let '(value, length, s') := read_hex 4 s 0 0 in
            match s' with
            | String "." _ =>
                if (length =? 0)%N then None
                else if (6 <? pieceIndex)%N then None
                else
                  match ipv4_in_ipv6 fuel' s address pieceIndex 0 with
                  | Some (address', pieceIndex') => Some (address', pieceIndex', compress)
                  | None => None
                  end
            | String ":" EmptyString => None
            | String ":" r' =>
                ipv6_loop fuel' r' (set_piece address (N.to_nat pieceIndex) value)
                          (pieceIndex + 1) compress
            | EmptyString =>
                Some (set_piece address (N.to_nat pieceIndex) value,
                      (pieceIndex + 1)%N, compress)
            | _ => None
            end
      end
  end.

(** The pieces read after [::] move to the end of the address. *)
Fixpoint ipv6_swap (fuel : nat) (address : list N) (compress pieceIndex swaps : N)
  : list N :=
  match fuel with
  | O => address
  | S fuel' =>
      if (pieceIndex =? 0)%N || (swaps =? 0)%N then address
      else
        let i := pieceIndex in
        let j := (compress + swaps - 1)%N in
        let address' :=
          set_piece (set_piece address (N.to_nat i) (piece address j))
                    (N.to_nat j) (piece address i) in
        ipv6_swap fuel' address' compress (pieceIndex - 1) (swaps - 1)
  end.

Definition parse_ipv6 (input : string) : option (list N) :=
  let zero := [0; 0; 0; 0; 0; 0; 0; 0]%N in
  let start :=
    match input with
    | String ":" (String ":" r) => Some (r, 1%N, Some 1%N)
    | String ":" _ => None
    | _ => Some (input, 0%N, None)
    end in
  match start with
  | None => None
  | Some (s, pieceIndex, compress) =>
      match ipv6_loop (S (String.length s)) s zero pieceIndex compress with
      | None => None
      | Some (address, pieceIndex, Some compress) =>
          Some (ipv6_swap 8 address compress 7 (pieceIndex - compress))
      | Some (address, pieceIndex, None) =>
          if (pieceIndex =? 8)%N then Some address else None
      end
  end.

Fixpoint hex_lower (fuel : nat) (n : N) (acc : string) : string :=
  match fuel with
  | O => acc
  | S fuel' =>
      let acc' := String (Chars.hex_digit_lower (n mod 16)) acc in
      if (n <? 16)%N then acc' else hex_lower fuel' (n / 16) acc'
  end.

(** The number of zero pieces at the head of [address]. *)
Fixpoint zero_run (address : list N) : N :=
  match address with
  | 0%N :: r => (1 + zero_run r)%N
  | _ => 0%N
  end.

(** The start of the first longest run of zero pieces and its length. *)
Fixpoint longest_run (address : list N) (i : N) : N * N :=
  match address with
  | nil => (0%N, 0%N)
  | _ :: r =>
      let '(j, len) := longest_run r (i + 1) in
      if (len <=? zero_run address)%N then (i, zero_run address) else (j, len)
  end.

Fixpoint serialize_pieces (address : list N) (pieceIndex : N) (compress : option N)
  (ignore0 : bool) : string :=
  match address with
  | nil => EmptyString
  | a :: r =>
      if ignore0 && (a =? 0)%N then serialize_pieces r (pieceIndex + 1) compress true
      else
        match compress with
        | Some c =>
            if (c =? pieceIndex)%N then
              (if (pieceIndex =? 0)%N then "::" else ":")
                ++ serialize_pieces r (pieceIndex + 1) compress true
            else
              hex_lower 4 a "" ++ (if (pieceIndex =? 7)%N then "" else ":")
                ++ serialize_pieces r (pieceIndex + 1) compress false
        | None =>
            hex_lower 4 a "" ++ (if (pieceIndex =? 7)%N then "" else ":")
              ++ serialize_pieces r (pieceIndex + 1) compress false
        end
  end.

Definition serialize_ipv6 (address : list N) : string :=
  let '(start, len) := longest_run address 0 in
  serialize_pieces address 0 (if (2 <=? len)%N then Some start else None) false.

(** *** Hosts *)

Definition forbidden_domain_code_point (c : ascii) : bool :=
  (Chars.code c <=? 32)%N || Chars.mem c "#/:<>?@[]^|%"
  || Ascii.eqb c backslash || (Chars.code c =? 127)%N.

Definition starts_xn (label : string) : bool :=
  String.prefix "xn--" (Chars.map Chars.to_lower label).

(** Domain to ASCII on an ASCII domain without [xn--] labels is ASCII
    lower-casing; on another domain the model gives [None]. *)
Definition domain_to_ascii (domain : string) : option string :=
  if Chars.forallb (fun c => (Chars.code c <? 128)%N) domain
     && negb (existsb starts_xn (Chars.split "." domain))
     && negb (String.eqb domain "")
  then Some (Chars.map Chars.to_lower domain)
  else None.

Fixpoint last_char (s : string) : option ascii :=
  match s with
  | EmptyString => None
  | String a EmptyString => Some a
  | String _ r => last_char r
  end.

(** The host parser for a special scheme; the result is serialized. *)
Definition parse_host (input : string) : option string :=
  match input with
  | String "[" r =>
      match last_char input with
      | Some "]"%char =>
          match parse_ipv6 (String.substring 0 (String.length r - 1) r) with
          | Some address => Some ("[" ++ serialize_ipv6 address ++ "]")
          | None => None
          end
      | _ => None
      end
  | _ =>
      match domain_to_ascii (percent_decode_string input) with
      | None => None
      | Some asciiDomain =>
          if negb (Chars.forallb (fun c => negb (forbidden_domain_code_point c))
                                 asciiDomain)
          then None
          else if ends_in_a_number asciiDomain
          then option_map serialize_ipv4 (parse_ipv4 asciiDomain)
          else Some asciiDomain
      end
  end.

End Whatwg.

(** *** The URL parser *)

Module WhatwgURL.

Import Whatwg.

Definition is_c0_or_space (c : ascii) : bool := (Chars.code c <=? 32)%N.

Definition is_tab_or_newline (c : ascii) : bool :=
  (Chars.code c =? 9)%N || (Chars.code c =? 10)%N || (Chars.code c =? 13)%N.

Fixpoint trim_start (s : string) : string :=
  match s with
  | String a r => if is_c0_or_space a then trim_start r else s
  | EmptyString => EmptyString
  end.

Fixpoint trim_end (s : string) : string :=
  match s with
  | String a r =>
      match trim_end r with
      | EmptyString => if is_c0_or_space a then EmptyString else String a EmptyString
      | r' => String a r'
      end
  | EmptyString => EmptyString
  end.

Definition preprocess (input : string) : string :=
  Chars.filter (fun c => negb (is_tab_or_newline c)) (trim_end (trim_start input)).

(** What follows [http:], or [None] for another scheme or none. *)
Definition after_http (input : string) : option string :=
  if String.eqb (Chars.map Chars.to_lower (String.substring 0 5 input)) "http:"
  then Some (String.substring 5 (String.length input - 5) input)
  else None.

Definition is_slash (c : ascii) : bool := Ascii.eqb c "/" || Ascii.eqb c backslash.

(** Special authority slashes state, then special authority ignore slashes
    state: every leading slash and backslash is skipped. *)
Fixpoint ignore_slashes (s : string) : string :=
  match s with
  | String a r => if is_slash a then ignore_slashes r else s
  | EmptyString => EmptyString
  end.

Definition ends_authority (c : ascii) : bool :=
  is_slash c || Ascii.eqb c "?" || Ascii.eqb c "#".

(** [s] cut at its last [@]: the credentials before it and what follows
    it; no credentials without an [@]. *)
Fixpoint split_userinfo (s : string) : option string * string :=
  match s with
  | EmptyString => (None, EmptyString)
  | String a r =>
      match split_userinfo r with
      | (Some u, h) => (Some (String a u), h)
      | (None, h) =>
          if Ascii.eqb a "@" then (Some EmptyString, h) else (None, String a h)
      end
  end.

(** Host state: the host up to the first colon outside brackets, and what
    follows that colon. *)
Fixpoint split_port (s : string) (insideBrackets : bool) : string * option string :=
  match s with
  | EmptyString => (EmptyString, None)
  | String a r =>
      if Ascii.eqb a ":" && negb insideBrackets then (EmptyString, Some r)
      else
        let insideBrackets' :=
          if Ascii.eqb a "[" then true
          else if Ascii.eqb a "]" then false else insideBrackets in
        let '(h, p) := split_port r insideBrackets' in (String a h, p)
  end.

(** Port state: [None] for failure, [Some None] for a null port. *)
Definition parse_port (buffer : string) : option (option N) :=
  if Chars.forallb Chars.is_digit buffer then
    match buffer with
    | EmptyString => Some None
    | _ =>
        match number_in 10 buffer 0 with
        | Some port =>
            if (65535 <? port)%N then None
            else if (port =? 80)%N then Some None
            else Some (Some port)
        | None => None
        end
    end
  else None.

(** application/x-www-form-urlencoded parsing of the query. *)
Definition plus_to_space (c : ascii) : ascii :=
  if Ascii.eqb c "+" then " "%char else c.

Definition parse_pair (sequence : string) : string * string :=
  let '(name, rest) := Chars.break (fun c => Ascii.eqb c "=") sequence in
  let value := match rest with String _ v => v | EmptyString => EmptyString end in
  (percent_decode_string (Chars.map plus_to_space name),
   percent_decode_string (Chars.map plus_to_space value)).

Definition parse_query (query : string) : list (string * string) :=
  List.map parse_pair
    (List.filter (fun s => negb (String.eqb s "")) (Chars.split "&" query)).

(** Path state, query state and fragment state: the query and the fragment
    of what follows the authority. *)
Definition query_and_fragment (tail : string) : string * string :=
  let '(beforeFragment, fragment) := Chars.break (fun c => Ascii.eqb c "#") tail in
  let '(path, query) := Chars.break (fun c => Ascii.eqb c "?") beforeFragment in
  (match query with String _ q => q | EmptyString => EmptyString end,
   match fragment with String _ f => f | EmptyString => EmptyString end).

(** The [hash] getter. *)
Definition hash_of (fragment : string) : string :=
  match fragment with
  | EmptyString => EmptyString
  | _ => "#" ++ Chars.percent_encode fragment_set fragment
  end.

(** The [username] getter, from the credentials before the last [@]. *)
Definition username_of (userinfo : option string) : string :=
  match userinfo with
  | Some u =>
      Chars.percent_encode userinfo_set
        (fst (Chars.break (fun c => Ascii.eqb c ":") u))
  | None => EmptyString
  end.

Definition parse (input : string) : option URLObject :=
  match after_http (preprocess input) with
  | None => None
  | Some rest =>
      let '(authority, tail) := Chars.break ends_authority (ignore_slashes rest) in
      let '(userinfo, hostport) := split_userinfo authority in
      let '(buffer, portBuffer) := split_port hostport false in
      match buffer, parse_host buffer,
            parse_port (match portBuffer with Some p => p | None => EmptyString end)
      with
      | String _ _, Some host, Some port =>
          let '(query, fragment) := query_and_fragment tail in
          Some (URLObject.make
                  host
                  (match port with Some p => decimal p | None => EmptyString end)
                  (username_of userinfo)
                  (hash_of fragment)
                  (Some (parse_query (Chars.percent_encode special_query_set query))))
      | _, _, _ => None
      end
  end.

Definition URL (input : string) : native URLObject :=
  match parse input with
  | Some url => Returns url
  | None => Throws "TypeError" "Invalid URL"
  end.

End WhatwgURL.

Definition reference : Platform :=
  {| URL := WhatwgURL.URL;
     b64Encode := Base64.encode;
     b64Decode := Base64.decode;
     encodeURIComponent := UriComponent.encode;
     decodeURIComponent := UriComponent.decode |}.

(** ** Definitions for the statements *)

(** [needle] occurs in [hay]. *)
Definition embeds (needle hay : string) : Prop :=
  exists before after, hay = before ++ needle ++ after.

(** [n] padding characters. *)
Fixpoint padding (n : nat) : string :=
  match n with
  | O => EmptyString
  | S n' => String "=" (padding n')
  end.

(** The last character of [s] is not [=]; holds of the empty string. *)
Definition unpadded (s : string) : Prop :=
  forall s', s <> s' ++ "=".

(** [s] without its trailing [=] characters, by recursion on [s]. *)
Fixpoint strip_trailing_eq (s : string) : string :=
  match s with
  | EmptyString => EmptyString
  | String a r =>
      match strip_trailing_eq r with
      | EmptyString => if Ascii.eqb a "=" then EmptyString else String a EmptyString
      | r' => String a r'
      end
  end.

(** The base64 text of [input] without its padding. *)
Fixpoint b64_body (input : string) : string :=
  match input with
  | String a (String b (String c r)) =>
      let buffer := (Chars.code a * 65536 + Chars.code b * 256 + Chars.code c)%N in
      String (Base64.TABLE_charAt (N.land (N.shiftr buffer 18) 63))
        (String (Base64.TABLE_charAt (N.land (N.shiftr buffer 12) 63))
           (String (Base64.TABLE_charAt (N.land (N.shiftr buffer 6) 63))
              (String (Base64.TABLE_charAt (N.land buffer 63)) (b64_body r))))
  | String a (String b EmptyString) =>
      let buffer := (Chars.code a * 256 + Chars.code b)%N in
      String (Base64.TABLE_charAt (N.shiftr buffer 10))
        (String (Base64.TABLE_charAt (N.land (N.shiftr buffer 4) 63))
           (String (Base64.TABLE_charAt (N.land (N.shiftl buffer 2) 63)) ""))
  | String a EmptyString =>
      let buffer := Chars.code a in
      String (Base64.TABLE_charAt (N.shiftr buffer 2))
        (String (Base64.TABLE_charAt (N.land (N.shiftl buffer 4) 63)) "")
  | EmptyString => EmptyString
  end.

(** Every character of [s] is one of the 64 of the base64 alphabet. *)
Definition in_TABLE (s : string) : Prop :=
  Chars.forallb
    (fun c => match Base64.TABLE_indexOf c with Some _ => true | None => false end)
    s = true.

(** A character of the text of an integer: a digit or the sign. *)
Definition number_char (c : ascii) : bool := Chars.is_digit c || Ascii.eqb c "-".

(** A character above the space: the URL parser neither trims nor removes
    it. *)
Definition visible (c : ascii) : bool := negb (WhatwgURL.is_c0_or_space c).

(** A visible character that means nothing inside an authority: it neither
    ends it nor separates credentials, port or an IPv6 literal. *)
Definition plain_char (c : ascii) : bool :=
  visible c && negb (WhatwgURL.ends_authority c)
  && negb (Chars.mem c "@:[]").

(** A plain character that the URL parser leaves as it is in a query and
    that means nothing in a form-encoded pair. *)
Definition query_char (c : ascii) : bool :=
  visible c && negb (Whatwg.special_query_set c) && negb (Chars.mem c "%&+").

(** A character of base64 text other than [/]. *)
Definition b64_char (c : ascii) : bool :=
  match Base64.TABLE_indexOf c with
  | Some _ => negb (Ascii.eqb c "/")
  | None => Ascii.eqb c "="
  end.


(** The fragment the codecs append for a tag payload. *)
Definition tagFragment {P : Platform} (tag : string) : result string :=
  if String.eqb tag "" then OK ""
  else e <- lift (encodeURIComponent tag) ;; OK ("#" ++ e).

(** The dispatcher as the specification words it: SIP002 first, the legacy
    format second. *)
Definition parse_SIP002_first {P : Platform} (uri : string) : result ParsedURI :=
  parse_with [Sip002URI_class; LegacyBase64URI_class] uri.

(** The [plugin] query parameter of a parsed URL, empty when there is none
    or when the platform has no [searchParams]. *)
Definition URL_plugin (url : URLObject) : string :=
  match URLObject.searchParams url with
  | Some searchParams =>
      match searchParams_get searchParams "plugin" with
      | Some pluginString => pluginString
      | None => ""
      end
  | None => ""
  end.

(** The inputs of the literal scenarios. *)
Definition literal (host method : string) : UnsafeConfig :=
  UnsafeConfig.make (Str host) (OfArg (Str "8888")) (Str method) (Str "test")
                    (Str "Foo Bar") Undefined.

(** The fragment of a URI, [None] for a URI without [#], and the text the
    parsers read as the tag in it. *)
Definition with_fragment (fragment : option string) : string :=
  match fragment with
  | Some e => "#" ++ e
  | None => ""
  end.

Definition fragment_text (fragment : option string) : string :=
  match fragment with
  | Some e => e
  | None => ""
  end.

(** The query string the SIP002 serializer writes for a plugin payload. *)
Definition pluginQuery (plugin : string) : string :=
  if String.eqb plugin "" then "" else "?plugin=" ++ plugin.

(** A character of a host name that the URL parser takes as it is, but for
    its case: a plain character that is no forbidden domain code point and
    starts no percent-encoded byte. *)
Definition name_char (c : ascii) : bool :=
  plain_char c && query_char c && negb (Chars.mem c "^|").

(** A character of base64 text in which each [=] is written [%3D]. *)
Definition escaped_b64_char (c : ascii) : bool :=
  (b64_char c && negb (Ascii.eqb c "=")) || Ascii.eqb c "%".



(** * Properties *)

(** ** The result monad *)

Lemma bind_OK {A B : Type} (r : result A) (k : A -> result B) (b : B) :
  bind r k = OK b -> exists a, r = OK a /\ k a = OK b.
Proof.
  destruct r as [a | e]; simpl; intros H.
  - exists a. split; [reflexivity | exact H].
  - discriminate H.
Qed.

Lemma OK_inj {A : Type} (a b : A) : OK a = OK b -> a = b.
Proof. intros H. now injection H. Qed.

Lemma Returns_inj {A : Type} (a b : A) : Returns a = Returns b -> a = b.
Proof. intros H. now injection H. Qed.

Lemma lift_OK {A : Type} (n : native A) (a : A) :
  lift n = OK a -> n = Returns a.
Proof.
  destruct n; simpl; intros H; [injection H as -> | discriminate H]; reflexivity.
Qed.

Ltac bind_inv H :=
  let a := fresh "x" in
  let Ha := fresh "E" in
  apply bind_OK in H; destruct H as (a & Ha & H).

(** ** Strings *)

Lemma length_append (s t : string) :
  String.length (s ++ t) = (String.length s + String.length t)%nat.
Proof.
  induction s as [| a s IH]; simpl; [reflexivity | now rewrite IH].
Qed.

Lemma append_nil_r (s : string) : s ++ "" = s.
Proof.
  induction s as [| a s IH]; simpl; [reflexivity | now rewrite IH].
Qed.

Lemma append_assoc (s t u : string) : (s ++ t) ++ u = s ++ t ++ u.
Proof.
  induction s as [| a s IH]; simpl; [reflexivity | now rewrite IH].
Qed.

Lemma substring_0_append (s t : string) :
  String.substring 0 (String.length s) (s ++ t) = s.
Proof.
  induction s as [| a s IH]; simpl.
  - destruct t; reflexivity.
  - now rewrite IH.
Qed.

Lemma substring_0_all (s : string) :
  String.substring 0 (String.length s) s = s.
Proof.
  rewrite <- (append_nil_r s) at 2. apply substring_0_append.
Qed.

Lemma substring_skip (s t : string) (n : nat) :
  String.substring (String.length s) n (s ++ t) = String.substring 0 n t.
Proof.
  induction s as [| a s IH]; simpl; [reflexivity | exact IH].
Qed.

Lemma get_append_r (s t : string) (n : nat) :
  String.get (String.length s + n) (s ++ t) = String.get n t.
Proof.
  induction s as [| a s IH]; simpl; [reflexivity | exact IH].
Qed.

Lemma get_append_l (s t : string) (n : nat) :
  (n < String.length s)%nat -> String.get n (s ++ t) = String.get n s.
Proof.
  revert n; induction s as [| a s IH]; simpl; intros n Hn; [lia |].
  destruct n as [| n]; [reflexivity |]. apply IH. lia.
Qed.

Lemma get_length (s : string) : String.get (String.length s) s = None.
Proof.
  induction s as [| a s IH]; simpl; [reflexivity | exact IH].
Qed.

Lemma Js_substring_prefix (s t : string) :
  Js.substring (s ++ t) 0 (Js.length s) = s.
Proof.
  unfold Js.substring, Js.clamp, Js.length. rewrite length_append.
  replace (Z.min _ _) with 0 by lia.
  replace (Z.max (Z.max 0 (Z.min 0 _)) _) with (Z.of_nat (String.length s)) by lia.
  rewrite Z.sub_0_r, Nat2Z.id. apply substring_0_append.
Qed.

Lemma Js_substring_from_append (s t : string) :
  Js.substring_from (s ++ t) (Js.length s) = t.
Proof.
  unfold Js.substring_from, Js.substring, Js.clamp, Js.length.
  rewrite length_append.
  replace (Z.min _ _) with (Z.of_nat (String.length s)) by lia.
  replace (Z.max _ _ - _) with (Z.of_nat (String.length t)) by lia.
  rewrite !Nat2Z.id, substring_skip. apply substring_0_all.
Qed.

Lemma Js_substring_middle (s t u : string) :
  Js.substring (s ++ t ++ u) (Js.length s) (Js.length s + Js.length t) = t.
Proof.
  unfold Js.substring, Js.clamp, Js.length. rewrite !length_append.
  replace (Z.min _ _) with (Z.of_nat (String.length s)) by lia.
  replace (Z.max _ _ - _) with (Z.of_nat (String.length t)) by lia.
  rewrite !Nat2Z.id, substring_skip. apply substring_0_append.
Qed.

Lemma indexOf_from_absent (c : ascii) (s : string) (i j : Z) :
  Js.indexOf_from c s i = -1 -> 0 <= i -> Js.indexOf_from c s j = -1.
Proof.
  revert i j; induction s as [| a s IH]; simpl; intros i j H Hi; [reflexivity |].
  destruct (Ascii.eqb a c); [lia |]. apply (IH (i + 1)); [exact H | lia].
Qed.

Lemma indexOf_from_append (c : ascii) (s t : string) (i : Z) :
  Js.indexOf s c = -1 ->
  Js.indexOf_from c (s ++ String c t) i = i + Js.length s.
Proof.
  unfold Js.indexOf, Js.length.
  revert i; induction s as [| a s IH]; simpl; intros i H.
  - rewrite Ascii.eqb_refl. lia.
  - destruct (Ascii.eqb a c); [lia |].
    rewrite IH; [lia |]. apply (indexOf_from_absent c s 1); [exact H | lia].
Qed.

Lemma indexOf_append (c : ascii) (s t : string) :
  Js.indexOf s c = -1 -> Js.indexOf (s ++ String c t) c = Js.length s.
Proof.
  intros H. unfold Js.indexOf at 1. rewrite indexOf_from_append by exact H. lia.
Qed.

Lemma indexOf_absent_append (c : ascii) (s t : string) :
  Js.indexOf s c = -1 -> Js.indexOf t c = -1 -> Js.indexOf (s ++ t) c = -1.
Proof.
  unfold Js.indexOf. generalize 0 at 1 3 as i.
  induction s as [| a s IH]; simpl; intros i Hs Ht.
  - apply (indexOf_from_absent c t 0); [exact Ht | lia].
  - destruct (Ascii.eqb a c); [exact Hs |]. apply IH; assumption.
Qed.

(** ** Padding removal *)

Lemma strip_decompose (s : string) :
  exists n, s = strip_trailing_eq s ++ padding n.
Proof.
  induction s as [| a s [n IH]]; simpl.
  - exists O. reflexivity.
  - destruct (strip_trailing_eq s) as [| b r] eqn:E.
    + destruct (Ascii.eqb_spec a "=") as [-> | Hne].
      * exists (S n). simpl in *. now rewrite <- IH.
      * exists n. simpl in *. now rewrite <- IH.
    + exists n. simpl in *. now rewrite <- IH.
Qed.

Lemma strip_unpadded (s : string) : unpadded (strip_trailing_eq s).
Proof.
  unfold unpadded. induction s as [| a s IH]; simpl; intros s' H.
  - destruct s'; discriminate H.
  - destruct (strip_trailing_eq s) as [| b r] eqn:E.
    + destruct (Ascii.eqb_spec a "=") as [-> | Hne].
      * destruct s'; discriminate H.
      * destruct s' as [| c [| d s']]; simpl in H; try discriminate H.
        injection H as H. congruence.
    + destruct s' as [| c s']; simpl in H; [discriminate H |].
      injection H as _ H. exact (IH s' H).
Qed.

Lemma padding_get (n k : nat) :
  (k < n)%nat -> String.get k (padding n) = Some "="%char.
Proof.
  revert k; induction n as [| n IH]; intros k Hk; [lia |].
  destruct k as [| k]; simpl; [reflexivity |]. apply IH. lia.
Qed.

Lemma padding_length (n : nat) : String.length (padding n) = n.
Proof.
  induction n as [| n IH]; simpl; [reflexivity | now rewrite IH].
Qed.

Lemma unpadded_last (base : string) (c : ascii) :
  unpadded base ->
  String.get (String.length base - 1) base = Some c -> c <> "="%char.
Proof.
  unfold unpadded. induction base as [| a [| b r] IH]; intros Hu Hg.
  - discriminate Hg.
  - injection Hg as <-. intros ->. exact (Hu "" eq_refl).
  - apply IH.
    + intros s' Hs. apply (Hu (String a s')). simpl. now rewrite <- Hs.
    + cbn [String.length] in *.
      replace (S (S (String.length r)) - 1)%nat with (S (String.length r)) in Hg
        by lia.
      replace (S (String.length r) - 1)%nat with (String.length r) by lia.
      exact Hg.
Qed.

Lemma countPadding_counts (base : string) (n : nat) :
  unpadded base ->
  forall (fuel p : nat),
    (p <= n)%nat -> (n - p < fuel)%nat ->
    countPadding fuel (base ++ padding n)
                 (Js.length (base ++ padding n)) (Z.of_nat p) = Z.of_nat n.
Proof.
  intros Hu. unfold Js.length. rewrite length_append, padding_length.
  induction fuel as [| fuel IH]; intros p Hp Hf; [lia |].
  simpl. unfold Js.charAt.
  destruct (Nat.eq_dec p n) as [-> | Hne].
  - destruct (Z.ltb_spec (Z.of_nat (String.length base + n) - 1 - Z.of_nat n) 0)
      as [Hlt | Hge]; [reflexivity |].
    replace (Z.to_nat _) with (String.length base - 1)%nat by lia.
    rewrite get_append_l by lia.
    destruct (String.get (String.length base - 1) base) as [c |] eqn:G;
      [| reflexivity].
    destruct (Ascii.eqb_spec c "=") as [-> | _]; [| reflexivity].
    exfalso. exact (unpadded_last base _ Hu G eq_refl).
  - destruct (Z.ltb_spec (Z.of_nat (String.length base + n) - 1 - Z.of_nat p) 0)
      as [Hlt | Hge]; [lia |].
    replace (Z.to_nat _) with (String.length base + (n - 1 - p))%nat by lia.
    rewrite get_append_r, padding_get by lia. simpl.
    replace (Z.of_nat p + 1) with (Z.of_nat (S p)) by lia.
    apply IH; lia.
Qed.

Lemma stripPadding_append (base : string) (n : nat) :
  unpadded base -> stripPadding (base ++ padding n) = base.
Proof.
  intros Hu. unfold stripPadding.
  assert (countPadding (S (String.length (base ++ padding n))) (base ++ padding n)
            (Js.length (base ++ padding n)) 0 = Z.of_nat n) as ->.
  { apply (countPadding_counts base n Hu _ 0); [lia |].
    rewrite length_append, padding_length. lia. }
  destruct (Z.eqb_spec (Z.of_nat n) 0) as [H0 | Hn0].
  - assert (n = O) by lia. subst n. simpl. apply append_nil_r.
  - replace (Js.length (base ++ padding n) - Z.of_nat n) with (Js.length base).
    + apply Js_substring_prefix.
    + unfold Js.length. rewrite length_append, padding_length. lia.
Qed.

Lemma stripPadding_spec (s : string) : stripPadding s = strip_trailing_eq s.
Proof.
  destruct (strip_decompose s) as [n Hs].
  rewrite Hs at 1. apply stripPadding_append, strip_unpadded.
Qed.

(** ** Construction *)

Section Construction.

Context {P : Platform}.

Lemma Config_new_OK (config : UnsafeConfig) (c : Config) :
  Config_new config = OK c ->
  Host_new (UnsafeConfig.host config) = OK (Config.host_ c)
  /\ Port_new (UnsafeConfig.port config) = OK (Config.port_ c)
  /\ Method_new (UnsafeConfig.method config) = OK (Config.method_ c)
  /\ Password_new (UnsafeConfig.password config) = Config.password_ c
  /\ Tag_new (UnsafeConfig.tag config) = Config.tag_ c.
Proof.
  unfold Config_new. intros H.
  bind_inv H. bind_inv H. bind_inv H. injection H as <-. simpl. auto.
Qed.

Lemma field_eta {k : FieldKind} (f : ConfigField k) : mkField k (data f) = f.
Proof. destruct f; reflexivity. Qed.

Lemma Method_new_OK (method : Arg KMethod) (f : Method) :
  Method_new method = OK f ->
  METHODS_has (VString (data f)) = true /\ unwrap method = VString (data f).
Proof.
  unfold Method_new. destruct (METHODS_has (unwrap method)) eqn:E; [| discriminate].
  intros H. injection H as <-. simpl.
  destruct (unwrap method); try discriminate E. auto.
Qed.

Lemma Method_new_Str (s : string) :
  METHODS_has (VString s) = true -> Method_new (Str s) = OK (mkField KMethod s).
Proof.
  unfold Method_new. simpl unwrap. intros ->. reflexivity.
Qed.

(** A [Config] whose host and port payloads the platform maps to
    themselves is rebuilt unchanged from its own getters. *)
Lemma Config_new_fixpoint (c : Config) :
  Host_new (Str (Config.host c)) = OK (Config.host_ c) ->
  Port_new (OfArg (Str (Config.port c))) = OK (Config.port_ c) ->
  METHODS_has (VString (Config.method c)) = true ->
  Config_new (Config.as_UnsafeConfig c) = OK c.
Proof.
  intros Hh Hp Hm. unfold Config_new, Config.as_UnsafeConfig. simpl.
  rewrite Hh, Hp. simpl. rewrite (Method_new_Str _ Hm). simpl.
  unfold Password_new, Tag_new. simpl.
  unfold Config.method, Config.password, Config.tag, toString. rewrite !field_eta.
  destruct c; reflexivity.
Qed.

Lemma getHash_tag (config : UnsafeConfig) (tag : string) :
  UnsafeConfig.tag config = Str tag -> getHash config = tagFragment tag.
Proof.
  intros H. unfold getHash, tagFragment. rewrite H. simpl.
  destruct (String.eqb tag ""); reflexivity.
Qed.

Lemma LegacyBase64URI_new_OK (config : UnsafeConfig) (u : LegacyBase64URI) :
  LegacyBase64URI_new config = OK u ->
  let c := LegacyBase64URI.super u in
  exists b64,
    b64Encode (Config.method c ++ ":" ++ Config.password c ++ "@"
                 ++ Config.host c ++ ":" ++ Config.port c) = Returns b64
    /\ LegacyBase64URI.b64EncodedData u = stripPadding b64
    /\ METHODS_has (VString (Config.method c)) = true.
Proof.
  unfold LegacyBase64URI_new, ShadowsocksURI_new. intros H.
  bind_inv H. bind_inv H. bind_inv E0. bind_inv H. injection H as <-. simpl.
  exists x2. split; [now apply lift_OK | split; [reflexivity |]].
  apply Config_new_OK in E0. destruct E0 as (_ & _ & Hm & _).
  now apply Method_new_OK in Hm.
Qed.

Lemma Sip002URI_new_OK (config : UnsafeConfig) (u : Sip002URI) :
  Sip002URI_new config = OK u ->
  let c := Sip002URI.super u in
  b64Encode (Config.method c ++ ":" ++ Config.password c)
    = Returns (Sip002URI.b64EncodedUserInfo u)
  /\ Sip002URI.plugin_ u = Plugin_new (UnsafeConfig.plugin config)
  /\ METHODS_has (VString (Config.method c)) = true.
Proof.
  unfold Sip002URI_new, ShadowsocksURI_new. intros H.
  bind_inv H. bind_inv H. bind_inv E0. bind_inv H. injection H as <-. simpl.
  split; [now apply lift_OK | split; [reflexivity |]].
  apply Config_new_OK in E0. destruct E0 as (_ & _ & Hm & _).
  now apply Method_new_OK in Hm.
Qed.

End Construction.

(** ** The legacy serializer *)

(** C8 at its failing input.  The record of the scenario with port 80 makes
    a valid [Config], with the empty port payload, and the legacy
    constructor refuses it: nothing is serialized.  With port 8888 the URI
    is the one of the scenario. *)
Theorem legacy_port_80_not_serialized :
  Config_new (P := reference)
    (UnsafeConfig.make (Str "192.168.100.1") (Num 80) (Str "bf-cfb")
                       (Str "test") (Str "Foo Bar") Undefined)
  = OK (Config.make (mkField KHost "192.168.100.1") (mkField KPort "")
                    (mkField KMethod "bf-cfb") (mkField KPassword "test")
                    (mkField KTag "Foo Bar"))
  /\ LegacyBase64URI_new (P := reference)
       (UnsafeConfig.make (Str "192.168.100.1") (Num 80) (Str "bf-cfb")
                          (Str "test") (Str "Foo Bar") Undefined)
     = Throw (InvalidConfigField "Invalid port: ")
  /\ (u <- LegacyBase64URI_new (P := reference) (literal "192.168.100.1" "bf-cfb") ;;
      LegacyBase64URI_toString (P := reference) u)
     = OK "ss://YmYtY2ZiOnRlc3RAMTkyLjE2OC4xMDAuMTo4ODg4#Foo%20Bar".
Proof.
  repeat split; vm_compute; reflexivity.
Qed.

(** ** The SIP002 serializer *)

(** C3 at its failing input.  The IPv6 host of the scenario, given without
    brackets as the claim and the tests of the repository give it, is
    refused by [Host], so the SIP002 constructor throws and nothing is
    serialized; the code has no step that tells an IPv6 host from another
    and adds brackets.  The URI of the scenario is what the same address
    given in brackets serializes to.  Next to it, a plugin is written as it
    is, where the claim has it percent-encoded. *)
Theorem sip002_scenario_host_refused :
  Host_new (P := reference) (Str "2001:0:ce49:7601:e866:efff:62c3:fffe")
  = Throw (InvalidConfigField "Invalid host: 2001:0:ce49:7601:e866:efff:62c3:fffe")
  /\ Sip002URI_new (P := reference)
       (literal "2001:0:ce49:7601:e866:efff:62c3:fffe" "aes-128-gcm")
     = Throw (InvalidConfigField "Invalid host: 2001:0:ce49:7601:e866:efff:62c3:fffe")
  /\ (u <- Sip002URI_new (P := reference)
             (literal "[2001:0:ce49:7601:e866:efff:62c3:fffe]" "aes-128-gcm") ;;
      Sip002URI_toString (P := reference) u)
     = OK "ss://YWVzLTEyOC1nY206dGVzdA==@[2001:0:ce49:7601:e866:efff:62c3:fffe]:8888/#Foo%20Bar"
  /\ (u <- Sip002URI_new (P := reference)
             (UnsafeConfig.make (Str "192.168.100.1") (Num 8888) (Str "rc4-md5")
                                (Str "passwd") Undefined
                                (Str "obfs-local;obfs=http")) ;;
      Sip002URI_toString (P := reference) u)
     = OK "ss://cmM0LW1kNTpwYXNzd2Q=@192.168.100.1:8888/?plugin=obfs-local;obfs=http"
  /\ encodeURIComponent (Platform := reference) "obfs-local;obfs=http"
     = Returns "obfs-local%3Bobfs%3Dhttp".
Proof.
  repeat split; vm_compute; reflexivity.
Qed.

(** ** The dispatcher *)

Lemma embeds_intro (before needle after : string) :
  embeds needle (before ++ needle ++ after).
Proof. exists before, after. reflexivity. Qed.

Lemma embeds_empty (hay : string) : embeds "" hay.
Proof. exists "", hay. reflexivity. Qed.

Lemma embeds_or_string (a b : string) : embeds a (or_string a b).
Proof.
  unfold or_string. destruct (String.eqb_spec a "") as [-> | _].
  - apply embeds_empty.
  - exists "", "". simpl. now rewrite append_nil_r.
Qed.

Lemma embeds_append_l (needle s t : string) :
  embeds needle s -> embeds needle (s ++ t).
Proof.
  intros (x & y & ->). exists x, (y ++ t). now rewrite !append_assoc.
Qed.

Lemma embeds_append_r (needle s t : string) :
  embeds needle t -> embeds needle (s ++ t).
Proof.
  intros (x & y & ->). exists (s ++ x), y. now rewrite !append_assoc.
Qed.

(** C2, as the code has it.  [ShadowsocksURI.parse] tries the legacy-base64
    parser first and the SIP002 parser second, and returns the result of
    the first that succeeds; when both fail, the error of the legacy parser
    is the one recorded. *)
Theorem dispatch_order :
  forall (P : Platform) (uri : string),
    ShadowsocksURI_parse uri =
    match LegacyBase64URI_parse uri with
    | OK u => OK (Legacy u)
    | Throw legacyError =>
        match Sip002URI_parse uri with
        | OK u => OK (Sip002 u)
        | Throw _ => Throw (rethrow uri (Some legacyError))
        end
    end.
Proof.
  intros P uri. unfold ShadowsocksURI_parse, parse_with. simpl.
  destruct (LegacyBase64URI_parse uri) as [u | e1]; simpl; [reflexivity |].
  destruct (Sip002URI_parse uri) as [u | e2]; reflexivity.
Qed.

(** C2 as stated fails: on ["ss://"] and on ["ss://not-base64"] the error
    that surfaces is the one of the legacy parser, where trying SIP002 first
    would surface the one of the SIP002 parser. *)
Lemma dispatch_order_counterexample :
  ShadowsocksURI_parse (P := reference) "ss://"
    <> parse_SIP002_first (P := reference) "ss://"
  /\ ShadowsocksURI_parse (P := reference) "ss://not-base64"
    <> parse_SIP002_first (P := reference) "ss://not-base64".
Proof.
  split; vm_compute; discriminate.
Qed.

(** C5.  When both parsers fail, one error surfaces and it is made from the
    first recorded failure alone: that failure itself when it is an
    [InvalidURI], otherwise a new [InvalidURI] whose message contains the
    input, the name and the message of that failure.  The failure of the
    parser tried after it plays no part. *)
Theorem dispatch_failure :
  forall (P : Platform) (uri : string) (first later : Error),
    LegacyBase64URI_parse uri = Throw first ->
    Sip002URI_parse uri = Throw later ->
    (instanceof_InvalidURI first = true -> ShadowsocksURI_parse uri = Throw first)
    /\ (instanceof_InvalidURI first = false ->
        exists message,
          ShadowsocksURI_parse uri = Throw (InvalidURI message)
          /\ message =
             "Invalid input: " ++ uri ++ " - Original error: "
               ++ or_string (Error_name first) "(Unnamed Error)" ++ ": "
               ++ or_string (Error_message first) "(no error message provided)"
          /\ embeds uri message
          /\ embeds (Error_name first) message
          /\ embeds (Error_message first) message).
Proof.
  intros P uri first later H1 H2.
  unfold ShadowsocksURI_parse, parse_with, parse_for, UriType_parse.
  rewrite H1, H2. cbn [bind]. unfold rethrow.
  split; intros Hi; rewrite Hi; cbn [negb]; [reflexivity |].
  eexists. split; [reflexivity | split; [reflexivity |]].
  repeat split.
  - apply embeds_intro.
  - apply embeds_append_r, embeds_append_r, embeds_append_r, embeds_append_l,
      embeds_or_string.
  - do 5 apply embeds_append_r. apply embeds_or_string.
Qed.

Lemma dispatch_failure_witness :
  exists message,
    ShadowsocksURI_parse (P := reference) "ss://not-base64"
    = Throw (InvalidURI message)
    /\ embeds "ss://not-base64" message
    /\ embeds "InvalidCharacterError" message.
Proof.
  destruct (dispatch_failure reference "ss://not-base64"
              (NativeError "InvalidCharacterError"
                 "Invalid character: the string to be decoded is not correctly encoded.")
              (InvalidConfigField "Invalid port: "))
    as [_ H]; [vm_compute; reflexivity | vm_compute; reflexivity |].
  destruct (H eq_refl) as (message & Hp & _ & Hu & Hn & _).
  exists message. split; [exact Hp | split; [exact Hu | exact Hn]].
Defined.

(** ** The field constructors *)

Section Fields.

Context {P : Platform}.

Lemma Host_new_OK (host : Arg KHost) (f : Host) :
  Host_new host = OK f <->
  exists url, URL ("http://" ++ String_of (unwrap host) ++ "/") = Returns url
              /\ URLObject.hostname url = data f.
Proof.
  unfold Host_new. split.
  - destruct (URL _) as [url | n m]; [| discriminate].
    intros H. injection H as <-. exists url. split; reflexivity.
  - intros (url & -> & H). rewrite H. now rewrite field_eta.
Qed.

Lemma Port_new_OK (port : PortArg) (f : Port) :
  Port_new port = OK f <->
  unwrap_port port <> VString ""
  /\ exists url, URL ("http://0.0.0.0:" ++ String_of (unwrap_port port) ++ "/")
                 = Returns url
                 /\ URLObject.port url = data f.
Proof.
  unfold Port_new. split.
  - destruct (unwrap_port port) as [| [| a s] | n];
      try discriminate;
      (destruct (URL _) as [url | n' m]; [| discriminate]);
      intros H; injection H as <-;
      (split; [discriminate | exists url; split; reflexivity]).
  - intros (Hne & url & Hu & H).
    destruct (unwrap_port port) as [| [| a s] | n];
      try (now exfalso; apply Hne);
      rewrite Hu, H; now rewrite field_eta.
Qed.

(** The constructor of [Config] stops at the first field that is refused,
    with the error of that field. *)
Lemma Config_new_host_refused (config : UnsafeConfig) (e : Error) :
  Host_new (UnsafeConfig.host config) = Throw e -> Config_new config = Throw e.
Proof. unfold Config_new. now intros ->. Qed.

Lemma Config_new_port_refused (config : UnsafeConfig) (h : Host) (e : Error) :
  Host_new (UnsafeConfig.host config) = OK h ->
  Port_new (UnsafeConfig.port config) = Throw e -> Config_new config = Throw e.
Proof. unfold Config_new. now intros -> ->. Qed.

Lemma Config_new_method_refused (config : UnsafeConfig) (h : Host) (p : Port)
  (e : Error) :
  Host_new (UnsafeConfig.host config) = OK h ->
  Port_new (UnsafeConfig.port config) = OK p ->
  Method_new (UnsafeConfig.method config) = Throw e -> Config_new config = Throw e.
Proof. unfold Config_new. now intros -> -> ->. Qed.

Lemma field_refused_is_InvalidConfigField :
  (forall host e, Host_new host = Throw e -> exists m, e = InvalidConfigField m)
  /\ (forall port e, Port_new port = Throw e -> exists m, e = InvalidConfigField m)
  /\ (forall method e, Method_new method = Throw e -> exists m, e = InvalidConfigField m).
Proof.
  repeat split.
  - intros host e. unfold Host_new, throwErrorForInvalidField.
    destruct (URL _); [discriminate |]. intros H. injection H as <-. eauto.
  - intros port e. unfold Port_new, throwErrorForInvalidField.
    destruct (unwrap_port port) as [| [| a s] | n];
      try (destruct (URL _); [discriminate |]);
      intros H; injection H as <-; eauto.
  - intros method e. unfold Method_new, throwErrorForInvalidField.
    destruct (METHODS_has _); [discriminate |]. intros H. injection H as <-. eauto.
Qed.

End Fields.

(** C10 at its failing input.  The [Port] made from 80 has the empty
    payload, and a [Port] cannot be made from that instance: the constructor
    takes the payload out of the instance and validates it as it validates
    a text. *)
Theorem port_80_instance_refused :
  Port_new (P := reference) (Num 80) = OK (mkField KPort "")
  /\ Port_new (P := reference) (OfArg (Inst (mkField KPort "")))
     = Throw (InvalidConfigField "Invalid port: ").
Proof.
  split; vm_compute; reflexivity.
Qed.

(** Where validating twice does give the same: a method the constructor
    accepted, and any password, tag or plugin. *)
Lemma revalidation_unconstrained :
  (forall (x : Arg KMethod) (f : Method),
      Method_new x = OK f -> Method_new (Str (data f)) = OK f)
  /\ (forall x : Arg KPassword,
         Password_new (Str (data (Password_new x))) = Password_new x)
  /\ (forall x : Arg KTag, Tag_new (Str (data (Tag_new x))) = Tag_new x)
  /\ (forall x : Arg KPlugin,
         Plugin_new (Str (data (Plugin_new x))) = Plugin_new x).
Proof.
  repeat split; try reflexivity.
  intros x f H. apply Method_new_OK in H. destruct H as [H _].
  rewrite (Method_new_Str _ H). now rewrite field_eta.
Qed.

(** For [Host] and [Port] validating twice gives the same exactly when the
    URL parser maps the payload to itself. *)
Lemma revalidation_through_URL {P : Platform} :
  (forall (x : Arg KHost) (f : Host),
      Host_new x = OK f ->
      (Host_new (Str (data f)) = OK f <->
       exists url, URL ("http://" ++ data f ++ "/") = Returns url
                   /\ URLObject.hostname url = data f))
  /\ (forall (x : PortArg) (f : Port),
         Port_new x = OK f ->
         (Port_new (OfArg (Str (data f))) = OK f <->
          data f <> ""
          /\ exists url, URL ("http://0.0.0.0:" ++ data f ++ "/") = Returns url
                         /\ URLObject.port url = data f)).
Proof.
  split.
  - intros x f _. apply (Host_new_OK (Str (data f)) f).
  - intros x f _. rewrite (Port_new_OK (OfArg (Str (data f))) f). simpl.
    split; intros [Hne H]; (split; [congruence | exact H]).
Qed.

(** C7 at its failing inputs: the URL parser accepts a leading hyphen and
    empty labels, and [Host] adds no check of its own. *)
Theorem host_hyphen_and_dots_accepted :
  Host_new (P := reference) (Str "-") = OK (mkField KHost "-")
  /\ Host_new (P := reference) (Str "-pwned") = OK (mkField KHost "-pwned")
  /\ Host_new (P := reference) (Str ".") = OK (mkField KHost ".")
  /\ Host_new (P := reference) (Str "....") = OK (mkField KHost "....")
  /\ Host_new (P := reference) (Str "")
     = Throw (InvalidConfigField "Invalid host: ")
  /\ Host_new (P := reference) (Str ";echo pwned")
     = Throw (InvalidConfigField "Invalid host: ;echo pwned").
Proof.
  repeat split; vm_compute; reflexivity.
Qed.

(** C4 at its failing input: a record without [host] is accepted, with the
    host payload "undefined". *)
Theorem config_without_host_accepted :
  Config_new (P := reference)
    (UnsafeConfig.make Undefined (OfArg (Str "8888")) (Str "aes-128-gcm")
                       (Str "test") Undefined Undefined)
  = OK (Config.make (mkField KHost "undefined") (mkField KPort "8888")
                    (mkField KMethod "aes-128-gcm") (mkField KPassword "test")
                    (mkField KTag "")).
Proof.
  vm_compute. reflexivity.
Qed.

(** ** Round trips *)

Lemma Js_length_nonneg (s : string) : (Js.length s =? -1)%Z = false.
Proof. unfold Js.length. apply Z.eqb_neq. lia. Qed.

Lemma append_cons (s t : string) (c : ascii) :
  s ++ String c t = (s ++ String c "") ++ t.
Proof. now rewrite append_assoc. Qed.

(** Cutting [s ++ c ++ t] at the first [c], when [s] has none. *)
Lemma split_at_first (c : ascii) (s t : string) :
  Js.indexOf s c = -1 ->
  Js.indexOf (s ++ String c t) c = Js.length s
  /\ Js.substring (s ++ String c t) 0 (Js.length s) = s
  /\ Js.substring_from (s ++ String c t) (Js.length s + 1) = t.
Proof.
  intros H. split; [now apply indexOf_append | split].
  - apply Js_substring_prefix.
  - rewrite append_cons.
    replace (Js.length s + 1) with (Js.length (s ++ String c "")).
    + apply Js_substring_from_append.
    + unfold Js.length. rewrite length_append. simpl. lia.
Qed.

Lemma METHODS_no_separator (m : string) :
  METHODS_has (VString m) = true ->
  Js.indexOf m "@" = -1 /\ Js.indexOf m ":" = -1.
Proof.
  unfold METHODS_has. intros H. apply existsb_exists in H.
  destruct H as (x & Hin & Heq). apply String.eqb_eq in Heq. subst x.
  unfold METHODS in Hin. simpl in Hin.
  repeat (destruct Hin as [<- | Hin]; [split; reflexivity |]).
  contradiction.
Qed.

Section RoundTrip.

Context {P : Platform}.

(** What the legacy parser cuts out of a URI made of the prefix and a
    base64 text without [#], first with no fragment, then with one. *)
Lemma legacy_cut_plain (b64 : string) :
  Js.indexOf b64 "#" = -1 ->
  let uri := "ss://" ++ b64 in
  Js.indexOf uri "#" = -1
  /\ Js.substring uri (Js.length "ss://") (Js.length uri) = b64
  /\ Js.substring_from uri (Js.length uri) = "".
Proof.
  intros Hb uri. subst uri. split; [| split].
  - apply indexOf_absent_append; [reflexivity | exact Hb].
  - rewrite <- (append_nil_r b64) at 1.
    replace (Js.length ("ss://" ++ b64)) with (Js.length "ss://" + Js.length b64).
    + apply (Js_substring_middle "ss://" b64 "").
    + unfold Js.length. rewrite length_append. lia.
  - rewrite <- (append_nil_r ("ss://" ++ b64)) at 1.
    apply Js_substring_from_append.
Qed.

Lemma legacy_cut_fragment (b64 e : string) :
  Js.indexOf b64 "#" = -1 ->
  let uri := "ss://" ++ b64 ++ "#" ++ e in
  let hashIndex := Js.indexOf uri "#" in
  (hashIndex =? -1)%Z = false
  /\ Js.substring uri (Js.length "ss://") hashIndex = b64
  /\ Js.substring_from uri (hashIndex + 1) = e.
Proof.
  intros Hb uri hashIndex. subst uri hashIndex.
  assert (Js.indexOf ("ss://" ++ b64) "#" = -1) as Hp.
  { apply indexOf_absent_append; [reflexivity | exact Hb]. }
  destruct (split_at_first "#" ("ss://" ++ b64) e Hp) as (Hi & _ & Ht).
  rewrite append_assoc in Hi, Ht.
  change ("#" ++ e) with (String "#" e).
  rewrite Hi, Js_length_nonneg. split; [reflexivity | split].
  - replace (Js.length ("ss://" ++ b64)) with (Js.length "ss://" + Js.length b64).
    + apply (Js_substring_middle "ss://" b64 (String "#" e)).
    + unfold Js.length. rewrite length_append. lia.
  - exact Ht.
Qed.

Lemma validateProtocol_ss (rest : string) : validateProtocol ("ss://" ++ rest) = OK tt.
Proof. destruct rest; vm_compute; reflexivity. Qed.


(** What the legacy parser reads in the decoded text. *)
Lemma legacy_fields (m pw h p : string) :
  METHODS_has (VString m) = true ->
  Js.indexOf pw "@" = -1 ->
  Js.indexOf h ":" = -1 ->
  let b64DecodedData := m ++ ":" ++ pw ++ "@" ++ h ++ ":" ++ p in
  let atSignIndex := Js.indexOf b64DecodedData "@" in
  let methodAndPassword := Js.substring b64DecodedData 0 atSignIndex in
  let methodEndIndex := Js.indexOf methodAndPassword ":" in
  let hostAndPort := Js.substring_from b64DecodedData (atSignIndex + 1) in
  let hostEndIndex := Js.indexOf hostAndPort ":" in
  (atSignIndex =? -1)%Z = false
  /\ (methodEndIndex =? -1)%Z = false
  /\ Js.substring methodAndPassword 0 methodEndIndex = m
  /\ Js.substring_from methodAndPassword (methodEndIndex + 1) = pw
  /\ (hostEndIndex =? -1)%Z = false
  /\ Js.substring hostAndPort 0 hostEndIndex = h
  /\ Js.substring_from hostAndPort (hostEndIndex + 1) = p.
Proof.
  intros Hm Hpw Hh. cbv zeta.
  destruct (METHODS_no_separator m Hm) as [Hm1 Hm2].
  assert (Js.indexOf (m ++ ":" ++ pw) "@" = -1) as Hmp.
  { apply indexOf_absent_append; [exact Hm1 |].
    apply (indexOf_absent_append "@" ":" pw); [reflexivity | exact Hpw]. }
  replace (m ++ ":" ++ pw ++ "@" ++ h ++ ":" ++ p)
    with ((m ++ ":" ++ pw) ++ String "@" (h ++ ":" ++ p))
    by (now rewrite !append_assoc).
  destruct (split_at_first "@" (m ++ ":" ++ pw) (h ++ ":" ++ p) Hmp)
    as (-> & -> & ->).
  destruct (split_at_first ":" m pw Hm2) as (Hi1 & Hs1 & Ht1).
  destruct (split_at_first ":" h p Hh) as (Hi2 & Hs2 & Ht2).
  change (":" ++ pw) with (String ":" pw). change (":" ++ p) with (String ":" p).
  rewrite Hi1, Hi2, !Js_length_nonneg. repeat split; assumption.
Qed.



(** The plugin the SIP002 parser hands to the constructor has the payload
    [URL_plugin]. *)
Lemma parsed_plugin (url : URLObject) :
  Plugin_new
    (match URLObject.searchParams url with
     | Some searchParams =>
         match searchParams_get searchParams "plugin" with
         | Some pluginString =>
             if truthy (VString pluginString)
             then Inst (Plugin_new (Str pluginString))
             else Undefined
         | None => Undefined
         end
     | None => Undefined
     end)
  = mkField KPlugin (URL_plugin url).
Proof.
  unfold URL_plugin.
  destruct (URLObject.searchParams url) as [ps |]; [| reflexivity].
  destruct (searchParams_get ps "plugin") as [v |]; [| reflexivity].
  simpl truthy. destruct (String.eqb_spec v "") as [-> | _]; reflexivity.
Qed.


End RoundTrip.

(** ** The reference platform: base64 *)

Ltac euclid := zify; Z.to_euclidean_division_equations; lia.

Lemma string_ind3 (Q : string -> Prop) :
  Q "" ->
  (forall a, Q (String a "")) ->
  (forall a b, Q (String a (String b ""))) ->
  (forall a b c r, Q r -> Q (String a (String b (String c r)))) ->
  forall s, Q s.
Proof.
  intros H0 H1 H2 H3 s.
  enough (Q s /\ (forall a, Q (String a s)) /\ (forall a b, Q (String a (String b s))))
    as [H _] by exact H.
  induction s as [| x s (IH0 & IH1 & IH2)].
  - auto.
  - split; [apply IH1 | split; [intros a; apply IH2 |]].
    intros a b. apply H3. exact IH0.
Qed.

Lemma code_bounded (c : ascii) : (Chars.code c < 256)%N.
Proof. apply N_ascii_bounded. Qed.

Lemma land_63 (n : N) : N.land n 63 = (n mod 64)%N.
Proof. change 63%N with (N.ones 6). now rewrite N.land_ones. Qed.

Lemma byte_mod (n : N) : Base64.byte n = ascii_of_N (n mod 256).
Proof.
  unfold Base64.byte. rewrite N.land_comm.
  change 255%N with (N.ones 8). now rewrite N.land_ones.
Qed.

Lemma byte_of_code (c : ascii) (n : N) :
  (n mod 256 = Chars.code c)%N -> Base64.byte n = c.
Proof.
  intros H. rewrite byte_mod, H. apply ascii_N_embedding.
Qed.

Lemma TABLE_spec (n : N) :
  (n < 64)%N ->
  Base64.TABLE_indexOf (Base64.TABLE_charAt n) = Some n
  /\ Base64.TABLE_charAt n <> "="%char
  /\ Base64.TABLE_charAt n <> "#"%char
  /\ Base64.is_space (Base64.TABLE_charAt n) = false.
Proof.
  intros H. destruct n as [| p]; [vm_compute; repeat split; discriminate |].
  do 6 (try destruct p as [p | p |]); try (exfalso; lia);
    vm_compute; repeat split; discriminate.
Qed.

Lemma TABLE_char (c : ascii) :
  match Base64.TABLE_indexOf c with Some _ => true | None => false end = true ->
  c <> "="%char /\ c <> "#"%char /\ Base64.is_space c = false.
Proof.
  destruct c as [[] [] [] [] [] [] [] []]; vm_compute; intros H;
    try discriminate H; repeat split; discriminate.
Qed.

Lemma forallb_append (f : ascii -> bool) (s t : string) :
  Chars.forallb f (s ++ t) = Chars.forallb f s && Chars.forallb f t.
Proof.
  induction s as [| a s IH]; simpl; [reflexivity |].
  rewrite IH. now rewrite andb_assoc.
Qed.

Lemma in_TABLE_unpadded (t : string) : in_TABLE t -> unpadded t.
Proof.
  unfold in_TABLE, unpadded. intros H s' ->.
  rewrite forallb_append in H. apply andb_prop in H. destruct H as [_ H].
  vm_compute in H. discriminate H.
Qed.

Lemma in_TABLE_no_hash (t : string) : in_TABLE t -> Js.indexOf t "#" = -1.
Proof.
  unfold in_TABLE, Js.indexOf. generalize 0.
  induction t as [| a t IH]; simpl; intros i H; [reflexivity |].
  apply andb_prop in H. destruct H as [Ha Ht].
  destruct (TABLE_char a Ha) as (_ & Hh & _).
  destruct (Ascii.eqb_spec a "#") as [-> | _]; [contradiction |].
  apply IH. exact Ht.
Qed.

Lemma in_TABLE_no_space (t : string) :
  in_TABLE t -> Chars.filter (fun c => negb (Base64.is_space c)) t = t.
Proof.
  unfold in_TABLE. induction t as [| a t IH]; simpl; intros H; [reflexivity |].
  apply andb_prop in H. destruct H as [Ha Ht].
  destruct (TABLE_char a Ha) as (_ & _ & ->). simpl. now rewrite IH.
Qed.

Lemma in_TABLE_no_end_padding (t : string) :
  in_TABLE t -> Base64.strip_end_padding t = t.
Proof.
  unfold in_TABLE. induction t as [| a t IH]; simpl; intros H; [reflexivity |].
  apply andb_prop in H. destruct H as [Ha Ht].
  destruct (TABLE_char a Ha) as (He & _ & _).
  destruct (Ascii.eqb_spec a "=") as [-> | _]; [contradiction |].
  simpl. now rewrite IH.
Qed.

(** The four characters of three bytes, and the bytes read back from them. *)
Lemma b64_group (x y z : N) :
  (x < 256)%N -> (y < 256)%N -> (z < 256)%N ->
  let buffer := (x * 65536 + y * 256 + z)%N in
  let b0 := N.land (N.shiftr buffer 18) 63 in
  let b1 := N.land (N.shiftr buffer 12) 63 in
  let b2 := N.land (N.shiftr buffer 6) 63 in
  let b3 := N.land buffer 63 in
  (b0 < 64 /\ b1 < 64 /\ b2 < 64 /\ b3 < 64)%N
  /\ (N.shiftr (b0 * 64 + b1) 4 mod 256 = x)%N
  /\ (N.shiftr ((b0 * 64 + b1) * 64 + b2) 2 mod 256 = y)%N
  /\ ((((b0 * 64 + b1) * 64 + b2) * 64 + b3) mod 256 = z)%N.
Proof.
  intros Hx Hy Hz. cbv zeta. rewrite !land_63, !N.shiftr_div_pow2.
  change (2 ^ 18)%N with 262144%N. change (2 ^ 12)%N with 4096%N.
  change (2 ^ 6)%N with 64%N. change (2 ^ 4)%N with 16%N.
  change (2 ^ 2)%N with 4%N.
  repeat split; euclid.
Qed.

Lemma b64_pair (x y : N) :
  (x < 256)%N -> (y < 256)%N ->
  let buffer := (x * 256 + y)%N in
  let b0 := N.shiftr buffer 10 in
  let b1 := N.land (N.shiftr buffer 4) 63 in
  let b2 := N.land (N.shiftl buffer 2) 63 in
  (b0 < 64 /\ b1 < 64 /\ b2 < 64)%N
  /\ (N.shiftr (b0 * 64 + b1) 4 mod 256 = x)%N
  /\ (N.shiftr ((b0 * 64 + b1) * 64 + b2) 2 mod 256 = y)%N.
Proof.
  intros Hx Hy. cbv zeta.
  rewrite !land_63, !N.shiftr_div_pow2, N.shiftl_mul_pow2.
  change (2 ^ 10)%N with 1024%N. change (2 ^ 4)%N with 16%N.
  change (2 ^ 2)%N with 4%N.
  repeat split; euclid.
Qed.

Lemma b64_single (x : N) :
  (x < 256)%N ->
  let b0 := N.shiftr x 2 in
  let b1 := N.land (N.shiftl x 4) 63 in
  (b0 < 64 /\ b1 < 64)%N /\ (N.shiftr (b0 * 64 + b1) 4 mod 256 = x)%N.
Proof.
  intros Hx. cbv zeta.
  rewrite !land_63, !N.shiftr_div_pow2, N.shiftl_mul_pow2.
  change (2 ^ 4)%N with 16%N. change (2 ^ 2)%N with 4%N.
  repeat split; euclid.
Qed.

Lemma encode_loop_body (s : string) :
  exists k, Base64.encode_loop s = b64_body s ++ padding k.
Proof.
  induction s as [| a | a b | a b c r [k IH]] using string_ind3.
  - exists O. reflexivity.
  - exists 2%nat. reflexivity.
  - exists 1%nat. reflexivity.
  - exists k. cbn [Base64.encode_loop b64_body append]. now rewrite IH.
Qed.

(** What [decode] finds in the unpadded text of [s]: characters of the
    alphabet, a length that is not 1 modulo 4, and the bytes of [s]. *)
Lemma b64_body_decodes (s : string) :
  in_TABLE (b64_body s)
  /\ (N.of_nat (String.length (b64_body s)) mod 4 <> 1)%N
  /\ exists buffers,
       Base64.sextets (b64_body s) = Some buffers
       /\ Base64.decode_loop buffers = s.
Proof.
  unfold in_TABLE.
  induction s as [| a | a b | a b c r (IH1 & IH2 & l & IH3 & IH4)] using string_ind3.
  - repeat split; [discriminate |]. exists nil. split; reflexivity.
  - destruct (b64_single _ (code_bounded a)) as ((H0 & H1) & Ha).
    destruct (TABLE_spec _ H0) as (T0 & _). destruct (TABLE_spec _ H1) as (T1 & _).
    cbn [b64_body Chars.forallb Base64.sextets]. rewrite T0, T1.
    repeat split; [discriminate |].
    eexists. split; [reflexivity |].
    cbn [Base64.decode_loop]. now rewrite (byte_of_code a _ Ha).
  - destruct (b64_pair _ _ (code_bounded a) (code_bounded b))
      as ((H0 & H1 & H2) & Ha & Hb).
    destruct (TABLE_spec _ H0) as (T0 & _). destruct (TABLE_spec _ H1) as (T1 & _).
    destruct (TABLE_spec _ H2) as (T2 & _).
    cbn [b64_body Chars.forallb Base64.sextets]. rewrite T0, T1, T2.
    repeat split; [discriminate |].
    eexists. split; [reflexivity |].
    cbn [Base64.decode_loop].
    now rewrite (byte_of_code a _ Ha), (byte_of_code b _ Hb).
  - destruct (b64_group _ _ _ (code_bounded a) (code_bounded b) (code_bounded c))
      as ((H0 & H1 & H2 & H3) & Ha & Hb & Hc).
    destruct (TABLE_spec _ H0) as (T0 & _). destruct (TABLE_spec _ H1) as (T1 & _).
    destruct (TABLE_spec _ H2) as (T2 & _). destruct (TABLE_spec _ H3) as (T3 & _).
    cbn [b64_body Chars.forallb Base64.sextets]. rewrite T0, T1, T2, T3, IH1, IH3.
    repeat split.
    + cbn [String.length]. intros H. apply IH2. clear - H. euclid.
    + eexists. split; [reflexivity |].
      cbn [Base64.decode_loop].
      now rewrite (byte_of_code a _ Ha), (byte_of_code b _ Hb),
        (byte_of_code c _ Hc), IH4.
Qed.

(** On the reference platform, decoding the stripped base64 text of any
    string gives the string back, and that text has no [#]. *)
Lemma reference_b64_round_trip (s : string) :
  exists b64,
    b64Encode (Platform := reference) s = Returns b64
    /\ b64Decode (Platform := reference) (stripPadding b64) = Returns s
    /\ Js.indexOf (stripPadding b64) "#" = -1.
Proof.
  exists (Base64.encode_loop s). split; [reflexivity |].
  destruct (encode_loop_body s) as [k Hk].
  destruct (b64_body_decodes s) as (Ht & Hlen & l & Hl & Hd).
  rewrite Hk, (stripPadding_append _ k (in_TABLE_unpadded _ Ht)).
  split; [| now apply in_TABLE_no_hash].
  cbn [b64Decode reference]. unfold Base64.decode.
  rewrite (in_TABLE_no_space _ Ht).
  assert ((if (N.of_nat (String.length (b64_body s)) mod 4 =? 0)%N
           then Base64.strip_end_padding (b64_body s) else b64_body s)
          = b64_body s) as ->.
  { destruct (_ =? _)%N; [now apply in_TABLE_no_end_padding | reflexivity]. }
  rewrite Hl. apply N.eqb_neq in Hlen. rewrite Hlen. now rewrite Hd.
Qed.

(** ** The reference platform: percent-coding *)

Lemma decode_encoded_char (a : ascii) (rest : string) (fuel : nat) :
  UriComponent.decode_loop (S fuel)
    ((if negb (UriComponent.unreserved a) then Chars.percent_utf8 a
      else String a "") ++ rest)
  = option_map (String a) (UriComponent.decode_loop fuel rest).
Proof.
  destruct a as [[] [] [] [] [] [] [] []]; reflexivity.
Qed.

Lemma encoded_char_length (a : ascii) :
  (1 <= String.length (if negb (UriComponent.unreserved a)
                       then Chars.percent_utf8 a else String a ""))%nat.
Proof.
  destruct (negb _); [| simpl; lia].
  unfold Chars.percent_utf8, Chars.percent_byte.
  destruct (_ <? _)%N; simpl; lia.
Qed.

Lemma decode_encoded (s : string) (fuel : nat) :
  (String.length
     (Chars.percent_encode (fun c => negb (UriComponent.unreserved c)) s) < fuel)%nat ->
  UriComponent.decode_loop fuel
    (Chars.percent_encode (fun c => negb (UriComponent.unreserved c)) s) = Some s.
Proof.
  revert fuel; induction s as [| a s IH]; intros fuel Hf.
  - destruct fuel; [simpl in Hf; lia | reflexivity].
  - cbn [Chars.percent_encode] in *. rewrite length_append in Hf.
    pose proof (encoded_char_length a) as Ha.
    destruct fuel as [| fuel]; [lia |].
    rewrite decode_encoded_char, IH by lia. reflexivity.
Qed.

(** On the reference platform, [decodeURIComponent] undoes
    [encodeURIComponent] on every string. *)
Lemma reference_percent_round_trip (s : string) :
  exists e,
    encodeURIComponent (Platform := reference) s = Returns e
    /\ decodeURIComponent (Platform := reference) e = Returns s.
Proof.
  eexists. split; [reflexivity |].
  cbn [decodeURIComponent reference]. unfold UriComponent.decode.
  rewrite decode_encoded by lia. reflexivity.
Qed.


(** ** The reference platform: ports *)

Lemma digits_of_uint (d : Decimal.uint) :
  Chars.forallb Chars.is_digit (NilEmpty.string_of_uint d) = true.
Proof.
  induction d; simpl; try exact IHd; reflexivity.
Qed.

Lemma number_in_digit (c : ascii) (r : string) (acc v : N) :
  Chars.hex_value c = Some v -> (v < 10)%N ->
  Whatwg.number_in 10 (String c r) acc = Whatwg.number_in 10 r (acc * 10 + v).
Proof.
  intros Hc Hv. cbn [Whatwg.number_in]. rewrite Hc.
  apply N.ltb_lt in Hv. now rewrite Hv.
Qed.

Lemma number_in_acc (d : Decimal.uint) (acc : positive) :
  Whatwg.number_in 10 (NilEmpty.string_of_uint d) (N.pos acc)
  = Some (N.pos (Pos.of_uint_acc d acc)).
Proof.
  revert acc; induction d; intros acc;
    cbn [NilEmpty.string_of_uint Pos.of_uint_acc]; [reflexivity | ..];
    erewrite number_in_digit by (reflexivity || (vm_compute; reflexivity));
    match goal with
    | |- context [(_ * 10 + ?v)%N] =>
        let v' := eval vm_compute in v in change v with v'
    end;
    rewrite <- IHd; f_equal; lia.
Qed.

Lemma number_in_of_uint (d : Decimal.uint) :
  Whatwg.number_in 10 (NilEmpty.string_of_uint d) 0 = Some (N.of_uint d).
Proof.
  unfold N.of_uint. induction d;
    cbn [NilEmpty.string_of_uint Pos.of_uint]; [reflexivity | ..];
    erewrite number_in_digit by (reflexivity || (vm_compute; reflexivity));
    [exact IHd | ..]; apply number_in_acc.
Qed.

Lemma decimal_nonempty (n : N) :
  exists a r, Whatwg.decimal n = String a r
              /\ Whatwg.decimal n = NilEmpty.string_of_uint (N.to_uint n).
Proof.
  unfold Whatwg.decimal, NilZero.string_of_uint.
  destruct n as [| p]; [exists "0"%char, ""; split; reflexivity |].
  simpl N.to_uint. pose proof (DecimalPos.Unsigned.to_uint_nonnil p) as Hn.
  destruct (Pos.to_uint p) eqn:E; [contradiction | ..];
    simpl; eexists; eexists; split; reflexivity.
Qed.

Lemma decimal_value (n : N) :
  Chars.forallb Chars.is_digit (Whatwg.decimal n) = true
  /\ Whatwg.number_in 10 (Whatwg.decimal n) 0 = Some n.
Proof.
  destruct (decimal_nonempty n) as (a & r & _ & ->).
  split; [apply digits_of_uint |].
  rewrite number_in_of_uint. f_equal. apply DecimalN.Unsigned.of_to.
Qed.

Lemma Number_toString_nonneg (n : Z) :
  0 <= n -> Js.Number_toString n = Whatwg.decimal (Z.to_N n).
Proof.
  intros H. unfold Js.Number_toString, Whatwg.decimal.
  destruct n as [| p | p]; [reflexivity | reflexivity | lia].
Qed.

Lemma Number_toString_neg (n : Z) :
  n < 0 -> exists r, Js.Number_toString n = String "-" r
                     /\ Chars.forallb number_char r = true.
Proof.
  intros H. unfold Js.Number_toString.
  destruct n as [| p | p]; [lia | lia |].
  simpl. eexists. split; [reflexivity |].
  destruct (decimal_nonempty (N.pos p)) as (a & r & _ & E).
  unfold Whatwg.decimal in E. simpl N.to_uint in E. rewrite E.
  generalize (digits_of_uint (Pos.to_uint p)).
  generalize (NilEmpty.string_of_uint (Pos.to_uint p)).
  induction s as [| c s IH]; simpl; [reflexivity |].
  intros Hd. apply andb_prop in Hd. destruct Hd as [Hc Hs].
  unfold number_char at 1. rewrite Hc. simpl. apply IH. exact Hs.
Qed.

Lemma number_char_plain (c : ascii) :
  number_char c = true ->
  WhatwgURL.is_tab_or_newline c = false
  /\ WhatwgURL.ends_authority c = false
  /\ Ascii.eqb c "@" = false.
Proof.
  destruct c as [[] [] [] [] [] [] [] []]; vm_compute; intros H;
    try discriminate H; repeat split.
Qed.

Lemma trim_end_slash (s : string) : WhatwgURL.trim_end (s ++ "/") = s ++ "/".
Proof.
  induction s as [| a s IH]; [reflexivity |].
  cbn [append WhatwgURL.trim_end]. rewrite IH.
  destruct s; reflexivity.
Qed.

Lemma filter_append (f : ascii -> bool) (s t : string) :
  Chars.filter f (s ++ t) = Chars.filter f s ++ Chars.filter f t.
Proof.
  induction s as [| a s IH]; simpl; [reflexivity |].
  destruct (f a); simpl; now rewrite IH.
Qed.

Lemma filter_number (D : string) :
  Chars.forallb number_char D = true ->
  Chars.filter (fun c => negb (WhatwgURL.is_tab_or_newline c)) D = D.
Proof.
  induction D as [| a D IH]; simpl; intros H; [reflexivity |].
  apply andb_prop in H. destruct H as [Ha HD].
  destruct (number_char_plain a Ha) as (-> & _). simpl. now rewrite IH.
Qed.

Lemma break_number (D t : string) :
  Chars.forallb number_char D = true ->
  Chars.break WhatwgURL.ends_authority (D ++ String "/" t) = (D, String "/" t).
Proof.
  induction D as [| a D IH]; simpl; intros H; [reflexivity |].
  apply andb_prop in H. destruct H as [Ha HD].
  destruct (number_char_plain a Ha) as (_ & -> & _). now rewrite IH.
Qed.

Lemma split_userinfo_number (D : string) :
  Chars.forallb number_char D = true ->
  WhatwgURL.split_userinfo D = (None, D).
Proof.
  induction D as [| a D IH]; simpl; intros H; [reflexivity |].
  apply andb_prop in H. destruct H as [Ha HD].
  destruct (number_char_plain a Ha) as (_ & _ & ->). now rewrite IH.
Qed.

(** The URL that [Port] builds around the text of a number. *)
Lemma URL_of_port_text (D : string) :
  Chars.forallb number_char D = true ->
  WhatwgURL.parse ("http://0.0.0.0:" ++ D ++ "/")
  = match WhatwgURL.parse_port D with
    | Some port =>
        Some (URLObject.make "0.0.0.0"
                (match port with Some p => Whatwg.decimal p | None => "" end)
                "" "" (Some nil))
    | None => None
    end.
Proof.
  intros HD. unfold WhatwgURL.parse.
  assert (WhatwgURL.preprocess ("http://0.0.0.0:" ++ D ++ "/")
          = "http://0.0.0.0:" ++ D ++ "/") as ->.
  { unfold WhatwgURL.preprocess.
    change (WhatwgURL.trim_start ("http://0.0.0.0:" ++ D ++ "/"))
      with ("http://0.0.0.0:" ++ D ++ "/").
    rewrite <- append_assoc, trim_end_slash, append_assoc.
    rewrite !filter_append, (filter_number D HD). reflexivity. }
  assert (WhatwgURL.after_http ("http://0.0.0.0:" ++ D ++ "/")
          = Some ("//0.0.0.0:" ++ D ++ "/")) as ->.
  { unfold WhatwgURL.after_http. cbn [append String.substring].
    cbn [String.length Nat.sub]. now rewrite substring_0_all. }
  change (WhatwgURL.ignore_slashes ("//0.0.0.0:" ++ D ++ "/"))
    with ("0.0.0.0:" ++ D ++ "/").
  assert (Chars.break WhatwgURL.ends_authority ("0.0.0.0:" ++ D ++ "/")
          = ("0.0.0.0:" ++ D, "/")) as ->.
  { change ("0.0.0.0:" ++ D ++ "/") with ("0.0.0.0:" ++ (D ++ String "/" "")).
    cbn [append]. cbn [Chars.break].
    change (WhatwgURL.ends_authority "0") with false.
    change (WhatwgURL.ends_authority ".") with false.
    change (WhatwgURL.ends_authority ":") with false.
    cbv iota. now rewrite (break_number D "" HD). }
  assert (WhatwgURL.split_userinfo ("0.0.0.0:" ++ D) = (None, "0.0.0.0:" ++ D))
    as ->.
  { cbn [append WhatwgURL.split_userinfo].
    rewrite (split_userinfo_number D HD). reflexivity. }
  change (WhatwgURL.split_port ("0.0.0.0:" ++ D) false)
    with ("0.0.0.0", Some D).
  cbv beta iota zeta.
  change (Whatwg.parse_host "0.0.0.0") with (Some "0.0.0.0").
  destruct (WhatwgURL.parse_port D) as [port |]; reflexivity.
Qed.

Lemma digits_are_number_chars (D : string) :
  Chars.forallb Chars.is_digit D = true -> Chars.forallb number_char D = true.
Proof.
  induction D as [| a D IH]; simpl; intros H; [reflexivity |].
  apply andb_prop in H. destruct H as [Ha HD].
  unfold number_char at 1. rewrite Ha, IH by exact HD. reflexivity.
Qed.

Lemma number_in_total (D : string) (acc : N) :
  Chars.forallb Chars.is_digit D = true ->
  exists v, Whatwg.number_in 10 D acc = Some v.
Proof.
  revert acc; induction D as [| a D IH]; simpl; intros acc H; [eauto |].
  apply andb_prop in H. destruct H as [Ha HD].
  unfold Chars.hex_value. rewrite Ha.
  assert ((Chars.code a - 48 <? 10)%N = true) as ->.
  { unfold Chars.is_digit in Ha. apply andb_prop in Ha. destruct Ha as [H1 H2].
    apply N.leb_le in H1, H2. apply N.ltb_lt. lia. }
  apply IH. exact HD.
Qed.

(** On the reference platform, a non-empty text of digits is accepted as a
    port exactly when the integer it denotes is at most 65535; the payload
    is the decimal text of that integer, except for 80, where it is empty. *)
Lemma port_of_digits (D : string) :
  D <> "" -> Chars.forallb Chars.is_digit D = true ->
  exists v,
    Whatwg.number_in 10 D 0 = Some v
    /\ Port_new (P := reference) (OfArg (Str D))
       = if (v <=? 65535)%N
         then OK (mkField KPort (if (v =? 80)%N then "" else Whatwg.decimal v))
         else Throw (InvalidConfigField ("Invalid port: " ++ D)).
Proof.
  intros Hne HD. destruct (number_in_total D 0 HD) as [v Hv].
  exists v. split; [exact Hv |].
  unfold Port_new, throwErrorForInvalidField. cbn [unwrap_port unwrap String_of].
  destruct D as [| a D']; [contradiction |].
  cbn [URL reference]. unfold WhatwgURL.URL.
  rewrite (URL_of_port_text _ (digits_are_number_chars _ HD)).
  unfold WhatwgURL.parse_port. rewrite HD, Hv.
  destruct (N.leb_spec v 65535) as [Hle | Hgt].
  - assert ((65535 <? v)%N = false) as -> by (apply N.ltb_ge; exact Hle).
    destruct (v =? 80)%N; reflexivity.
  - assert ((65535 <? v)%N = true) as -> by (apply N.ltb_lt; exact Hgt).
    reflexivity.
Qed.

(** On the reference platform, a safe integer is accepted as a port exactly
    when it is in [0, 65535]; the payload is its decimal text, except for
    80, where it is empty, and a refused integer is quoted in the error. *)
Lemma port_of_number (n : Z) :
  Js.isSafeInteger n = true ->
  Port_new (P := reference) (Num n)
  = if (0 <=? n)%Z && (n <=? 65535)%Z
    then OK (mkField KPort (if (n =? 80)%Z then "" else Js.Number_toString n))
    else Throw (InvalidConfigField ("Invalid port: " ++ Js.Number_toString n)).
Proof.
  intros _.
  unfold Port_new, throwErrorForInvalidField. cbn [unwrap_port String_of].
  cbn [URL reference]. unfold WhatwgURL.URL.
  destruct (Z.leb_spec 0 n) as [Hpos | Hneg]; cbn [andb].
  - rewrite (Number_toString_nonneg n Hpos).
    destruct (decimal_value (Z.to_N n)) as [Hd Hv].
    destruct (decimal_nonempty (Z.to_N n)) as (a & r & Hs & _).
    rewrite (URL_of_port_text _ (digits_are_number_chars _ Hd)).
    unfold WhatwgURL.parse_port. rewrite Hd, Hv, Hs.
    destruct (Z.leb_spec n 65535) as [Hle | Hgt].
    + assert ((65535 <? Z.to_N n)%N = false) as -> by (apply N.ltb_ge; lia).
      destruct (Z.eqb_spec n 80) as [-> | Hne]; [reflexivity |].
      assert ((Z.to_N n =? 80)%N = false) as -> by (apply N.eqb_neq; lia).
      now rewrite <- Hs.
    + assert ((65535 <? Z.to_N n)%N = true) as -> by (apply N.ltb_lt; lia).
      now rewrite <- Hs.
  - destruct (Number_toString_neg n Hneg) as (r & Hs & Hr).
    rewrite Hs.
    assert (Chars.forallb number_char (String "-" r) = true) as Hall
        by (simpl; exact Hr).
    rewrite (URL_of_port_text _ Hall). reflexivity.
Qed.

(** C6 at its failing inputs.  Port 80, as a number or as a string, is
    accepted with the empty payload, not with "80": the URL parser leaves
    out the default port of the scheme.  Next to it, "01234" is accepted
    with the payload "1234" and the empty string is refused, as the claim
    says. *)
Theorem port_80_payload_empty :
  Port_new (P := reference) (Num 80) = OK (mkField KPort "")
  /\ Port_new (P := reference) (OfArg (Str "80")) = OK (mkField KPort "")
  /\ Port_new (P := reference) (OfArg (Str "01234")) = OK (mkField KPort "1234")
  /\ Port_new (P := reference) (OfArg (Str ""))
     = Throw (InvalidConfigField "Invalid port: ").
Proof.
  repeat split; vm_compute; reflexivity.
Qed.

(** C9 at its failing input: validating "80" succeeds, validating the
    payload it yields does not. *)
Theorem port_revalidation_fails :
  exists f : Port,
    Port_new (P := reference) (OfArg (Str "80")) = OK f
    /\ Port_new (P := reference) (OfArg (Str (data f)))
       = Throw (InvalidConfigField "Invalid port: ").
Proof.
  exists (mkField KPort ""). split; vm_compute; reflexivity.
Qed.


(** ** The reference platform: URLs made of plain parts *)

Lemma forallb_impl (f g : ascii -> bool) (s : string) :
  (forall c, f c = true -> g c = true) ->
  Chars.forallb f s = true -> Chars.forallb g s = true.
Proof.
  intros Hfg. induction s as [| a s IH]; simpl; intros H; [reflexivity |].
  apply andb_prop in H. destruct H as [Ha Hs].
  now rewrite (Hfg a Ha), IH.
Qed.

Lemma visible_not_removed (c : ascii) :
  visible c = true -> WhatwgURL.is_tab_or_newline c = false.
Proof.
  destruct c as [[] [] [] [] [] [] [] []]; vm_compute; intros H;
    try discriminate H; reflexivity.
Qed.

Lemma plain_char_spec (c : ascii) :
  plain_char c = true ->
  visible c = true
  /\ WhatwgURL.ends_authority c = false
  /\ Ascii.eqb c "@" = false
  /\ Ascii.eqb c ":" = false
  /\ Ascii.eqb c "[" = false
  /\ Ascii.eqb c "]" = false.
Proof.
  destruct c as [[] [] [] [] [] [] [] []]; vm_compute; intros H;
    try discriminate H; repeat split.
Qed.

Lemma trim_end_visible (s : string) :
  Chars.forallb visible s = true -> WhatwgURL.trim_end s = s.
Proof.
  induction s as [| a s IH]; simpl; intros H; [reflexivity |].
  apply andb_prop in H. destruct H as [Ha Hs]. rewrite (IH Hs).
  unfold visible in Ha. apply negb_true_iff in Ha. rewrite Ha.
  destruct s; reflexivity.
Qed.

Lemma filter_visible (s : string) :
  Chars.forallb visible s = true ->
  Chars.filter (fun c => negb (WhatwgURL.is_tab_or_newline c)) s = s.
Proof.
  induction s as [| a s IH]; simpl; intros H; [reflexivity |].
  apply andb_prop in H. destruct H as [Ha Hs].
  rewrite (visible_not_removed a Ha). simpl. now rewrite IH.
Qed.

Lemma preprocess_visible (s : string) :
  Chars.forallb visible s = true -> WhatwgURL.preprocess s = s.
Proof.
  intros H. unfold WhatwgURL.preprocess.
  assert (WhatwgURL.trim_start s = s) as ->.
  { destruct s as [| a s]; [reflexivity |]. simpl in *.
    apply andb_prop in H. destruct H as [Ha _].
    unfold visible in Ha. apply negb_true_iff in Ha. now rewrite Ha. }
  rewrite (trim_end_visible s H). apply filter_visible. exact H.
Qed.

Lemma break_at (stop : ascii -> bool) (s t : string) (c : ascii) :
  Chars.forallb (fun a => negb (stop a)) s = true -> stop c = true ->
  Chars.break stop (s ++ String c t) = (s, String c t).
Proof.
  intros Hs Hc. induction s as [| a s IH]; simpl.
  - now rewrite Hc.
  - simpl in Hs. apply andb_prop in Hs. destruct Hs as [Ha Hs].
    apply negb_true_iff in Ha. rewrite Ha. now rewrite (IH Hs).
Qed.

Lemma break_none (stop : ascii -> bool) (s : string) :
  Chars.forallb (fun a => negb (stop a)) s = true ->
  Chars.break stop s = (s, "").
Proof.
  induction s as [| a s IH]; simpl; intros Hs; [reflexivity |].
  apply andb_prop in Hs. destruct Hs as [Ha Hs].
  apply negb_true_iff in Ha. rewrite Ha. now rewrite (IH Hs).
Qed.

Lemma split_userinfo_none (s : string) :
  Chars.forallb (fun c => negb (Ascii.eqb c "@")) s = true ->
  WhatwgURL.split_userinfo s = (None, s).
Proof.
  induction s as [| a s IH]; simpl; intros H; [reflexivity |].
  apply andb_prop in H. destruct H as [Ha Hs].
  apply negb_true_iff in Ha. now rewrite (IH Hs), Ha.
Qed.

Lemma split_userinfo_some (u s : string) :
  Chars.forallb (fun c => negb (Ascii.eqb c "@")) s = true ->
  WhatwgURL.split_userinfo (u ++ String "@" s) = (Some u, s).
Proof.
  intros Hs. induction u as [| a u IH]; simpl.
  - now rewrite (split_userinfo_none s Hs).
  - now rewrite IH.
Qed.

Lemma plain_no_at (s : string) :
  Chars.forallb plain_char s = true ->
  Chars.forallb (fun c => negb (Ascii.eqb c "@")) s = true.
Proof.
  apply forallb_impl. intros c Hc.
  destruct (plain_char_spec c Hc) as (_ & _ & -> & _). reflexivity.
Qed.

Lemma plain_visible (s : string) :
  Chars.forallb plain_char s = true -> Chars.forallb visible s = true.
Proof.
  apply forallb_impl. intros c Hc. now destruct (plain_char_spec c Hc).
Qed.

Lemma plain_inside_authority (s : string) :
  Chars.forallb plain_char s = true ->
  Chars.forallb (fun c => negb (WhatwgURL.ends_authority c)) s = true.
Proof.
  apply forallb_impl. intros c Hc.
  destruct (plain_char_spec c Hc) as (_ & -> & _). reflexivity.
Qed.

Lemma split_port_none (h : string) :
  Chars.forallb plain_char h = true -> WhatwgURL.split_port h false = (h, None).
Proof.
  induction h as [| a h IH]; simpl; intros H; [reflexivity |].
  apply andb_prop in H. destruct H as [Ha Hh].
  destruct (plain_char_spec a Ha) as (_ & _ & _ & -> & -> & ->).
  simpl. now rewrite (IH Hh).
Qed.

Lemma split_port_some (h p : string) :
  Chars.forallb plain_char h = true ->
  WhatwgURL.split_port (h ++ String ":" p) false = (h, Some p).
Proof.
  induction h as [| a h IH]; simpl; intros H; [reflexivity |].
  apply andb_prop in H. destruct H as [Ha Hh].
  destruct (plain_char_spec a Ha) as (_ & _ & _ & -> & -> & ->).
  simpl. now rewrite (IH Hh).
Qed.

Lemma after_http_literal (rest : string) :
  WhatwgURL.after_http ("http://" ++ rest) = Some ("//" ++ rest).
Proof.
  unfold WhatwgURL.after_http. cbn [append String.substring].
  cbn [String.length Nat.sub]. now rewrite substring_0_all.
Qed.

Lemma ignore_slashes_stop (s : string) :
  match s with String c _ => WhatwgURL.is_slash c = false | EmptyString => True end ->
  WhatwgURL.ignore_slashes ("//" ++ s) = s.
Proof.
  destruct s as [| c s]; [reflexivity |]. intros H.
  change (WhatwgURL.ignore_slashes ("//" ++ String c s))
    with (WhatwgURL.ignore_slashes (String c s)).
  simpl. now rewrite H.
Qed.

Lemma not_ending_not_slash (c : ascii) :
  WhatwgURL.ends_authority c = false -> WhatwgURL.is_slash c = false.
Proof.
  unfold WhatwgURL.ends_authority. intros H.
  apply orb_false_elim in H. destruct H as [H _].
  apply orb_false_elim in H. destruct H as [H _]. exact H.
Qed.

(** The URL parser on an [http] URL whose authority and tail are known. *)
Lemma URL_of_authority (authority t : string) (userinfo : option string)
  (hostport h : string) (p : option string) :
  authority <> "" ->
  Chars.forallb visible authority = true ->
  Chars.forallb (fun c => negb (WhatwgURL.ends_authority c)) authority = true ->
  Chars.forallb visible t = true ->
  WhatwgURL.split_userinfo authority = (userinfo, hostport) ->
  WhatwgURL.split_port hostport false = (h, p) ->
  WhatwgURL.parse ("http://" ++ authority ++ String "/" t)
  = match h, Whatwg.parse_host h,
          WhatwgURL.parse_port (match p with Some x => x | None => "" end)
    with
    | String _ _, Some host, Some port =>
        let '(query, fragment) := WhatwgURL.query_and_fragment (String "/" t) in
        Some (URLObject.make
                host
                (match port with Some x => Whatwg.decimal x | None => "" end)
                (WhatwgURL.username_of userinfo)
                (WhatwgURL.hash_of fragment)
                (Some (WhatwgURL.parse_query
                         (Chars.percent_encode Whatwg.special_query_set query))))
    | _, _, _ => None
    end.
Proof.
  intros Hne Hva Hta Hvt Hu Hp. unfold WhatwgURL.parse.
  rewrite preprocess_visible.
  2:{ change ("http://" ++ authority ++ String "/" t)
        with ("http://" ++ (authority ++ String "/" t)).
      rewrite !forallb_append, Hva. simpl. exact Hvt. }
  rewrite after_http_literal, ignore_slashes_stop.
  2:{ destruct authority as [| c a]; [contradiction |]. simpl in Hta |- *.
      apply andb_prop in Hta. destruct Hta as [Hc _].
      apply negb_true_iff in Hc. now apply not_ending_not_slash. }
  rewrite (break_at _ authority t "/" Hta eq_refl), Hu, Hp. reflexivity.
Qed.

(** On the reference platform, a non-empty host of plain characters is
    accepted exactly when the host parser accepts it, with the host the
    parser returns as payload. *)
Lemma host_of_plain (h : string) :
  h <> "" -> Chars.forallb plain_char h = true ->
  Host_new (P := reference) (Str h)
  = match Whatwg.parse_host h with
    | Some host => OK (mkField KHost host)
    | None => Throw (InvalidConfigField ("Invalid host: " ++ h))
    end.
Proof.
  intros Hne Hh. unfold Host_new, throwErrorForInvalidField.
  cbn [unwrap String_of URL reference]. unfold WhatwgURL.URL.
  rewrite (URL_of_authority h "" None h h None Hne (plain_visible h Hh)
             (plain_inside_authority h Hh) eq_refl
             (split_userinfo_none h (plain_no_at h Hh)) (split_port_none h Hh)).
  destruct h as [| a h']; [contradiction |].
  destruct (Whatwg.parse_host (String a h')); reflexivity.
Qed.

(** ** The reference platform: the user information of a SIP002 URI *)

Lemma b64_char_spec (c : ascii) :
  b64_char c = true ->
  plain_char c = true
  /\ Ascii.eqb c ":" = false
  /\ Ascii.eqb c "%" = false
  /\ (Ascii.eqb c "=" = false -> Whatwg.userinfo_set c = false).
Proof.
  destruct c as [[] [] [] [] [] [] [] []]; vm_compute; intros H;
    try discriminate H; repeat split; intros H'; try discriminate H'.
Qed.



Lemma username_of_b64 (s : string) :
  Chars.forallb b64_char s = true ->
  WhatwgURL.username_of (Some s) = Chars.percent_encode Whatwg.userinfo_set s.
Proof.
  intros H. unfold WhatwgURL.username_of. rewrite break_none; [reflexivity |].
  revert H. apply forallb_impl. intros c Hc.
  destruct (b64_char_spec c Hc) as (_ & -> & _). reflexivity.
Qed.

Lemma b64_plain (s : string) :
  Chars.forallb b64_char s = true -> Chars.forallb plain_char s = true.
Proof.
  apply forallb_impl. intros c Hc. now destruct (b64_char_spec c Hc).
Qed.

Lemma indexOf_from_absent_cons (c a : ascii) (s : string) (i : Z) :
  Js.indexOf_from c (String a s) i = -1 -> 0 <= i ->
  Ascii.eqb a c = false /\ Js.indexOf_from c s (i + 1) = -1.
Proof.
  simpl. destruct (Ascii.eqb a c); [lia | auto].
Qed.

Lemma no_slash_b64_chars (s : string) :
  Js.indexOf s "/" = -1 ->
  Chars.forallb
    (fun c => match Base64.TABLE_indexOf c with
              | Some _ => true
              | None => Ascii.eqb c "="
              end) s = true ->
  Chars.forallb b64_char s = true.
Proof.
  unfold Js.indexOf. assert (0 <= 0) as Hi by lia. revert Hi.
  generalize 0 at 2 3.
  induction s as [| a s IH]; intros i Hi Hs Ht; [reflexivity |].
  destruct (indexOf_from_absent_cons _ _ _ _ Hs Hi) as [Ha Hs'].
  simpl in Ht |- *. apply andb_prop in Ht. destruct Ht as [Hta Hts].
  rewrite (IH (i + 1)) by (lia || assumption).
  unfold b64_char. rewrite Ha.
  destruct (Base64.TABLE_indexOf a); [reflexivity | now rewrite Hta].
Qed.


Lemma encode_loop_shape (s : string) :
  exists k,
    Base64.encode_loop s = b64_body s ++ padding k
    /\ (k <= 2)%nat
    /\ (N.of_nat (String.length (Base64.encode_loop s)) mod 4 = 0)%N.
Proof.
  induction s as [| a | a b | a b c r (k & IH1 & IH2 & IH3)] using string_ind3.
  - exists O. repeat split; [lia].
  - exists 2%nat. repeat split; [lia].
  - exists 1%nat. repeat split; [lia].
  - exists k. cbn [Base64.encode_loop b64_body append]. rewrite <- IH1.
    repeat split; [exact IH2 |].
    cbn [String.length]. clear - IH3. euclid.
Qed.


Lemma strip_end_padding_body (body : string) (k : nat) :
  in_TABLE body -> (k <= 2)%nat ->
  Base64.strip_end_padding (body ++ padding k) = body.
Proof.
  unfold in_TABLE. intros Hb Hk.
  induction body as [| a body IH].
  - destruct k as [| [| [| k]]]; [reflexivity | reflexivity | reflexivity | lia].
  - simpl in Hb. apply andb_prop in Hb. destruct Hb as [Ha Hb].
    destruct (TABLE_char a Ha) as (He & _ & _).
    cbn [append Base64.strip_end_padding].
    destruct (Ascii.eqb_spec a "=") as [-> | _]; [contradiction |].
    simpl. now rewrite (IH Hb).
Qed.

Lemma filter_padding (k : nat) :
  Chars.filter (fun c => negb (Base64.is_space c)) (padding k) = padding k.
Proof.
  induction k as [| k IH]; [reflexivity |]. simpl padding.
  cbn [Chars.filter]. change (Base64.is_space "=") with false.
  simpl. now rewrite IH.
Qed.

(** On the reference platform, decoding the padded base64 text of any
    string gives the string back. *)
Lemma reference_b64_padded (s : string) :
  Base64.decode (Base64.encode_loop s) = Returns s.
Proof.
  destruct (encode_loop_shape s) as (k & Hk & Hk2 & Hlen).
  destruct (b64_body_decodes s) as (Ht & Hbody & l & Hl & Hd).
  unfold Base64.decode.
  assert (Chars.filter (fun c => negb (Base64.is_space c)) (Base64.encode_loop s)
          = Base64.encode_loop s) as ->.
  { rewrite Hk, filter_append, (in_TABLE_no_space _ Ht), filter_padding.
    reflexivity. }
  apply N.eqb_eq in Hlen. rewrite Hlen.
  rewrite Hk, (strip_end_padding_body _ k Ht Hk2), Hl.
  apply N.eqb_neq in Hbody. rewrite Hbody. now rewrite Hd.
Qed.

(** ** The reference platform: query and fragment of a SIP002 URI *)

Lemma percent_encode_outside (set : ascii -> bool) (s : string) :
  Chars.forallb (fun c => negb (set c)) s = true -> Chars.percent_encode set s = s.
Proof.
  induction s as [| a s IH]; simpl; intros H; [reflexivity |].
  apply andb_prop in H. destruct H as [Ha Hs].
  apply negb_true_iff in Ha. rewrite Ha. simpl. now rewrite (IH Hs).
Qed.


Lemma query_char_spec (c : ascii) :
  query_char c = true ->
  visible c = true
  /\ Whatwg.special_query_set c = false
  /\ Ascii.eqb c "#" = false
  /\ Ascii.eqb c "&" = false
  /\ Ascii.eqb c "+" = false
  /\ Ascii.eqb c "%" = false
  /\ (Chars.code c <? 128)%N = true.
Proof.
  destruct c as [[] [] [] [] [] [] [] []]; vm_compute; intros H;
    try discriminate H; repeat split.
Qed.





Lemma split_none (sep : ascii) (s : string) :
  Chars.forallb (fun c => negb (Ascii.eqb c sep)) s = true ->
  Chars.split sep s = [s].
Proof.
  induction s as [| a s IH]; simpl; intros H; [reflexivity |].
  apply andb_prop in H. destruct H as [Ha Hs].
  apply negb_true_iff in Ha. now rewrite Ha, (IH Hs).
Qed.

Lemma percent_decode_plain (s : string) (fuel : nat) :
  Chars.forallb query_char s = true -> (String.length s <= fuel)%nat ->
  Whatwg.percent_decode fuel s = s.
Proof.
  revert fuel; induction s as [| a s IH]; intros fuel H Hf.
  - destruct fuel; reflexivity.
  - simpl in H, Hf. apply andb_prop in H. destruct H as [Ha Hs].
    destruct fuel as [| fuel]; [lia |].
    destruct (query_char_spec a Ha) as (_ & _ & _ & _ & _ & Hp & _).
    cbn [Whatwg.percent_decode].
    assert (UriComponent.escape (String a s) = None) as ->.
    { destruct a as [[] [] [] [] [] [] [] []]; try discriminate Hp; reflexivity. }
    rewrite IH by (assumption || lia). reflexivity.
Qed.

Lemma utf8_decode_cons (a b : ascii) (r : string) :
  Whatwg.utf8_decode (String a (String b r))
  = if ((Chars.code a =? 194)%N || (Chars.code a =? 195)%N)
       && (128 <=? Chars.code b)%N && (Chars.code b <? 192)%N
    then String (ascii_of_N ((Chars.code a - 192) * 64 + (Chars.code b - 128)))
                (Whatwg.utf8_decode r)
    else String a (Whatwg.utf8_decode (String b r)).
Proof. reflexivity. Qed.

Lemma utf8_decode_ascii (s : string) :
  Chars.forallb query_char s = true -> Whatwg.utf8_decode s = s.
Proof.
  induction s as [| a s IH]; [reflexivity |]. intros H.
  simpl in H. apply andb_prop in H. destruct H as [Ha Hs].
  destruct (query_char_spec a Ha) as (_ & _ & _ & _ & _ & _ & Hc).
  apply N.ltb_lt in Hc.
  destruct s as [| b s]; [reflexivity |].
  rewrite utf8_decode_cons.
  assert ((Chars.code a =? 194)%N = false) as -> by (apply N.eqb_neq; lia).
  assert ((Chars.code a =? 195)%N = false) as -> by (apply N.eqb_neq; lia).
  cbn [orb andb]. now rewrite (IH Hs).
Qed.







(** ** The reference platform: round trips *)

Lemma parse_host_nonempty (h : string) :
  Whatwg.parse_host h = Some h -> h <> "".
Proof. intros H ->. discriminate H. Qed.

Lemma parse_host_cons (h : string) :
  Whatwg.parse_host h = Some h -> exists a h', h = String a h'.
Proof.
  intros H. destruct h as [| a h']; [discriminate H | eauto].
Qed.

Lemma Host_fixed (h : Host) :
  Chars.forallb plain_char (data h) = true ->
  Whatwg.parse_host (data h) = Some (data h) ->
  Host_new (P := reference) (Str (data h)) = OK h.
Proof.
  intros Hp Hf.
  rewrite (host_of_plain _ (parse_host_nonempty _ Hf) Hp), Hf.
  now rewrite field_eta.
Qed.

Lemma parse_port_decimal (v : N) :
  (v <= 65535)%N -> v <> 80%N ->
  WhatwgURL.parse_port (Whatwg.decimal v) = Some (Some v).
Proof.
  intros Hle Hne. unfold WhatwgURL.parse_port.
  destruct (decimal_value v) as [-> ->].
  destruct (decimal_nonempty v) as (a & r & -> & _).
  assert ((65535 <? v)%N = false) as -> by (apply N.ltb_ge; exact Hle).
  assert ((v =? 80)%N = false) as -> by (apply N.eqb_neq; exact Hne).
  reflexivity.
Qed.

Lemma digit_plain (c : ascii) : Chars.is_digit c = true -> plain_char c = true.
Proof.
  destruct c as [[] [] [] [] [] [] [] []]; vm_compute; intros H;
    try discriminate H; reflexivity.
Qed.

Lemma Port_fixed (p : Port) (v : N) :
  data p = Whatwg.decimal v -> (v <= 65535)%N -> v <> 80%N ->
  Port_new (P := reference) (OfArg (Str (data p))) = OK p.
Proof.
  intros Hd Hle Hne.
  destruct (decimal_value v) as [Hdig Hval].
  destruct (decimal_nonempty v) as (a & r & Hs & _).
  destruct (port_of_digits (data p)) as (v' & Hv' & ->);
    [rewrite Hd, Hs; discriminate | now rewrite Hd |].
  rewrite Hd, Hval in Hv'. injection Hv' as <-.
  apply N.leb_le in Hle. rewrite Hle.
  apply N.eqb_neq in Hne. rewrite Hne, <- Hd. now rewrite field_eta.
Qed.


Lemma plain_no_colon (h : string) :
  Chars.forallb plain_char h = true -> Js.indexOf h ":" = -1.
Proof.
  unfold Js.indexOf. generalize 0.
  induction h as [| a h IH]; simpl; intros i H; [reflexivity |].
  apply andb_prop in H. destruct H as [Ha Hh].
  destruct (plain_char_spec a Ha) as (_ & _ & _ & -> & _). now apply IH.
Qed.


(** Construction on the reference platform, from a plain host that the
    host parser maps to itself, an integer port in range other than 80 and
    a known method. *)
Lemma Config_new_plain (h : string) (n : Z) (m : string)
  (pw : Arg KPassword) (tag : Arg KTag) (plugin : Arg KPlugin) :
  Chars.forallb plain_char h = true ->
  Whatwg.parse_host h = Some h ->
  0 <= n <= 65535 -> n <> 80 ->
  METHODS_has (VString m) = true ->
  let c := Config.make (mkField KHost h) (mkField KPort (Js.Number_toString n))
                       (mkField KMethod m) (Password_new pw) (Tag_new tag) in
  Config_new (P := reference)
    (UnsafeConfig.make (Str h) (Num n) (Str m) pw tag plugin) = OK c
  /\ Config_new (P := reference) (Config.as_UnsafeConfig c) = OK c.
Proof.
  intros Hplain Hhost Hn Hne Hm c.
  assert (Host_new (P := reference) (Str h) = OK (mkField KHost h)) as Hh.
  { rewrite (host_of_plain _ (parse_host_nonempty _ Hhost) Hplain), Hhost.
    reflexivity. }
  assert (Port_new (P := reference) (Num n)
          = OK (mkField KPort (Js.Number_toString n))) as Hp.
  { rewrite port_of_number by (apply Z.leb_le; unfold Js.MAX_SAFE_INTEGER; lia).
    assert ((0 <=? n)%Z && (n <=? 65535)%Z = true) as ->
        by (apply andb_true_intro; split; apply Z.leb_le; lia).
    assert ((n =? 80)%Z = false) as -> by (apply Z.eqb_neq; exact Hne).
    reflexivity. }
  split.
  - unfold Config_new. cbn [UnsafeConfig.host UnsafeConfig.port UnsafeConfig.method
                             UnsafeConfig.password UnsafeConfig.tag].
    rewrite Hh, Hp. cbn [bind]. rewrite (Method_new_Str _ Hm). reflexivity.
  - apply Config_new_fixpoint.
    + exact (Host_fixed (mkField KHost h) Hplain Hhost).
    + apply (Port_fixed (mkField KPort (Js.Number_toString n)) (Z.to_N n)); [| lia | lia].
      cbn [data]. apply Number_toString_nonneg. lia.
    + exact Hm.
Qed.



(** * Further properties of the code *)

(** ** The protocol check *)

Lemma prefix_append (p s : string) :
  String.prefix p s = true -> exists rest, s = p ++ rest.
Proof.
  revert s; induction p as [| a p IH]; intros s H.
  - exists s. reflexivity.
  - destruct s as [| b s]; simpl in H; [discriminate H |].
    destruct (ascii_dec a b) as [-> | _]; [| discriminate H].
    destruct (IH s H) as [rest ->]. exists rest. reflexivity.
Qed.

(** X1.  A string that is not ["ss://"] followed by something is refused by
    both codec parsers and by the dispatcher, on any platform, with the
    same [InvalidURI], whose message quotes the input. *)
Theorem protocol_required :
  forall (P : Platform) (uri : string),
    (forall rest, uri <> "ss://" ++ rest) ->
    let e := InvalidURI ("URI must start with " ++ Js.dquote ++ "ss://"
                           ++ Js.dquote ++ ": " ++ uri) in
    LegacyBase64URI_parse uri = Throw e
    /\ Sip002URI_parse uri = Throw e
    /\ ShadowsocksURI_parse uri = Throw e.
Proof.
  intros P uri Hno e.
  assert (validateProtocol uri = Throw e) as Hv.
  { unfold validateProtocol, Js.startsWith.
    destruct (String.prefix "ss://" uri) eqn:Hp; [| reflexivity].
    destruct (prefix_append _ _ Hp) as [rest ->]. now destruct (Hno rest). }
  assert (LegacyBase64URI_parse uri = Throw e) as H1.
  { unfold LegacyBase64URI_parse. now rewrite Hv. }
  assert (Sip002URI_parse uri = Throw e) as H2.
  { unfold Sip002URI_parse. now rewrite Hv. }
  split; [exact H1 | split; [exact H2 |]].
  unfold ShadowsocksURI_parse, parse_with, parse_for, UriType_parse.
  rewrite H1, H2. reflexivity.
Qed.

Lemma protocol_required_witness :
  ShadowsocksURI_parse (P := reference) "http://192.168.100.1:8888/"
  = Throw (InvalidURI ("URI must start with " ++ Js.dquote ++ "ss://"
                         ++ Js.dquote ++ ": http://192.168.100.1:8888/")).
Proof.
  apply (protocol_required reference "http://192.168.100.1:8888/").
  intros rest H. discriminate H.
Defined.

(** ** What the dispatcher throws *)

(** X2.  Whatever makes the parsers fail, the dispatcher throws an
    [InvalidURI]: an error of the platform or an [InvalidConfigField] never
    leaves it as it is. *)
Theorem dispatch_error_is_InvalidURI :
  forall (P : Platform) (uri : string) (e : Error),
    ShadowsocksURI_parse uri = Throw e -> exists message, e = InvalidURI message.
Proof.
  intros P uri e. unfold ShadowsocksURI_parse, parse_with, parse_for.
  destruct (UriType_parse LegacyBase64URI_class uri) as [c | e1];
    [discriminate |].
  destruct (UriType_parse Sip002URI_class uri) as [c | e2]; [discriminate |].
  intros H. injection H as <-. unfold rethrow.
  destruct e1 as [m | m | n m]; cbn [instanceof_InvalidURI negb]; eauto.
Qed.

Lemma dispatch_error_is_InvalidURI_witness :
  exists message,
    InvalidURI
      ("Invalid input: ss://not-base64 - Original error: InvalidCharacterError: "
         ++ "Invalid character: the string to be decoded is not correctly encoded.")
    = InvalidURI message.
Proof.
  apply (dispatch_error_is_InvalidURI reference "ss://not-base64").
  vm_compute. reflexivity.
Defined.

(** ** What the constructor of [Config] throws *)

(** X3.  When the constructor of [Config] throws, on any platform, the
    error is an [InvalidConfigField] that names the host, the port or the
    method and quotes the value given for it; a password or a tag never
    makes it throw.  A port given as a number is a safe integer here, quoted
    by its decimal digits. *)
Theorem config_failure_names_the_field :
  forall (P : Platform) (config : UnsafeConfig) (e : Error),
    PortArg_safe (UnsafeConfig.port config) = true ->
    Config_new config = Throw e ->
    e = InvalidConfigField
          ("Invalid host: " ++ String_of (unwrap (UnsafeConfig.host config)))
    \/ e = InvalidConfigField
             ("Invalid port: " ++ String_of (unwrap_port (UnsafeConfig.port config)))
    \/ e = InvalidConfigField
             ("Invalid method: " ++ String_of (unwrap (UnsafeConfig.method config))).
Proof.
  intros P config e _. unfold Config_new.
  destruct (Host_new (UnsafeConfig.host config)) as [h | eh] eqn:Hh.
  - destruct (Port_new (UnsafeConfig.port config)) as [p | ep] eqn:Hp.
    + destruct (Method_new (UnsafeConfig.method config)) as [m | em] eqn:Hm;
        cbn [bind]; [discriminate |].
      intros H. injection H as <-. right. right.
      unfold Method_new, throwErrorForInvalidField in Hm.
      destruct (METHODS_has _); [discriminate Hm |]. now injection Hm as <-.
    + cbn [bind]. intros H. injection H as <-. right. left.
      unfold Port_new, throwErrorForInvalidField in Hp.
      destruct (unwrap_port (UnsafeConfig.port config)) as [| [| a s] | n];
        try (destruct (URL _); [discriminate Hp |]);
        now injection Hp as <-.
  - cbn [bind]. intros H. injection H as <-. left.
    unfold Host_new, throwErrorForInvalidField in Hh.
    destruct (URL _); [discriminate Hh |]. now injection Hh as <-.
Qed.

Lemma config_failure_names_the_field_witness :
  exists e,
    Config_new (P := reference)
      (UnsafeConfig.make (Str "192.168.100.1") (Num 70000) (Str "bf-cfb")
                         (Str "test") Undefined Undefined) = Throw e
    /\ e = InvalidConfigField "Invalid port: 70000".
Proof.
  pose (config := UnsafeConfig.make (Str "192.168.100.1") (Num 70000)
                    (Str "bf-cfb") (Str "test") Undefined Undefined).
  exists (InvalidConfigField "Invalid port: 70000").
  assert (Config_new (P := reference) config
          = Throw (InvalidConfigField "Invalid port: 70000")) as H
      by (vm_compute; reflexivity).
  split; [exact H |].
  destruct (config_failure_names_the_field reference config _ eq_refl H)
    as [E | [E | E]];
    [vm_compute in E; discriminate E | exact E | vm_compute in E; discriminate E].
Defined.

(** ** What the constructors keep *)

Lemma METHODS_has_In (m : string) :
  METHODS_has (VString m) = true -> In m METHODS.
Proof.
  unfold METHODS_has. intros H. apply existsb_exists in H.
  destruct H as (x & Hin & Heq). apply String.eqb_eq in Heq. now subst x.
Qed.

Section Kept.

Context {P : Platform}.

(** What a [Config] holds of the record it was made from. *)
Lemma Config_new_keeps (config : UnsafeConfig) (c : Config) :
  Config_new config = OK c ->
  unwrap (UnsafeConfig.method config) = VString (Config.method c)
  /\ In (Config.method c) METHODS
  /\ Config.password c = or_empty (unwrap (UnsafeConfig.password config))
  /\ Config.tag c = or_empty (unwrap (UnsafeConfig.tag config)).
Proof.
  intros H. apply Config_new_OK in H. destruct H as (_ & _ & Hm & Hp & Ht).
  apply Method_new_OK in Hm. destruct Hm as [Hm1 Hm2].
  split; [exact Hm2 | split; [now apply METHODS_has_In |]].
  unfold Config.password, Config.tag. rewrite <- Hp, <- Ht. split; reflexivity.
Qed.

(** The same through the constructor of [ShadowsocksURI], which makes a
    [Config] of a [Config]. *)
Lemma ShadowsocksURI_new_keeps (config : UnsafeConfig) (c : Config) :
  ShadowsocksURI_new config = OK c ->
  unwrap (UnsafeConfig.method config) = VString (Config.method c)
  /\ In (Config.method c) METHODS
  /\ Config.password c = or_empty (unwrap (UnsafeConfig.password config))
  /\ Config.tag c = or_empty (unwrap (UnsafeConfig.tag config)).
Proof.
  unfold ShadowsocksURI_new. intros H. bind_inv H.
  apply Config_new_keeps in E. apply Config_new_keeps in H.
  destruct E as (E1 & _ & E3 & E4). destruct H as (H1 & H2 & H3 & H4).
  cbn [Config.as_UnsafeConfig UnsafeConfig.method UnsafeConfig.password
       UnsafeConfig.tag unwrap or_empty] in H1, H3, H4.
  injection H1 as H1.
  split; [now rewrite E1, H1 | split; [exact H2 |]].
  split; [now rewrite H3 | now rewrite H4].
Qed.

End Kept.

(** X4.  A codec object holds the method, the password and the tag that were
    given to its constructor, unchanged, and for SIP002 the plugin as well;
    a missing password, tag or plugin is held as the empty string.  The
    method is one of the known ciphers.  This holds on any platform, through
    the three [Config] constructions a codec constructor runs. *)
Theorem codec_keeps_fields :
  forall (P : Platform) (config : UnsafeConfig),
    (forall u : LegacyBase64URI,
        LegacyBase64URI_new config = OK u ->
        let c := LegacyBase64URI.super u in
        unwrap (UnsafeConfig.method config) = VString (Config.method c)
        /\ In (Config.method c) METHODS
        /\ Config.password c = or_empty (unwrap (UnsafeConfig.password config))
        /\ Config.tag c = or_empty (unwrap (UnsafeConfig.tag config)))
    /\ (forall u : Sip002URI,
           Sip002URI_new config = OK u ->
           let c := Sip002URI.super u in
           unwrap (UnsafeConfig.method config) = VString (Config.method c)
           /\ In (Config.method c) METHODS
           /\ Config.password c = or_empty (unwrap (UnsafeConfig.password config))
           /\ Config.tag c = or_empty (unwrap (UnsafeConfig.tag config))
           /\ Sip002URI.plugin u = or_empty (unwrap (UnsafeConfig.plugin config))).
Proof.
  intros P config. split.
  - intros u H c. subst c. unfold LegacyBase64URI_new in H.
    bind_inv H. bind_inv H. bind_inv H. injection H as <-.
    cbn [LegacyBase64URI.super].
    apply Config_new_keeps in E. apply ShadowsocksURI_new_keeps in E0.
    destruct E as (K1 & _ & K3 & K4). destruct E0 as (H1 & H2 & H3 & H4).
    cbn [Config.as_UnsafeConfig UnsafeConfig.method UnsafeConfig.password
         UnsafeConfig.tag unwrap or_empty] in H1, H3, H4.
    injection H1 as H1.
    split; [now rewrite K1, H1 | split; [exact H2 |]].
    split; [now rewrite H3 | now rewrite H4].
  - intros u H c. subst c. unfold Sip002URI_new in H.
    bind_inv H. bind_inv H. bind_inv H. injection H as <-.
    cbn [Sip002URI.super Sip002URI.plugin Sip002URI.plugin_].
    apply Config_new_keeps in E. apply ShadowsocksURI_new_keeps in E0.
    destruct E as (K1 & _ & K3 & K4). destruct E0 as (H1 & H2 & H3 & H4).
    cbn [Config.as_UnsafeConfig UnsafeConfig.method UnsafeConfig.password
         UnsafeConfig.tag unwrap or_empty] in H1, H3, H4.
    injection H1 as H1.
    split; [now rewrite K1, H1 | split; [exact H2 |]].
    split; [now rewrite H3 | split; [now rewrite H4 | reflexivity]].
Qed.

Lemma codec_keeps_fields_witness :
  exists u,
    Sip002URI_new (P := reference)
      (UnsafeConfig.make (Str "192.168.100.1") (Num 8888) (Str "rc4-md5")
                         (Str "p@ss:word") Undefined (Str "obfs-local;obfs=http"))
    = OK u
    /\ Config.method (Sip002URI.super u) = "rc4-md5"
    /\ Config.password (Sip002URI.super u) = "p@ss:word"
    /\ Config.tag (Sip002URI.super u) = ""
    /\ Sip002URI.plugin u = "obfs-local;obfs=http".
Proof.
  pose (config := UnsafeConfig.make (Str "192.168.100.1") (Num 8888) (Str "rc4-md5")
                    (Str "p@ss:word") Undefined (Str "obfs-local;obfs=http")).
  let r := eval vm_compute in (Sip002URI_new (P := reference) config) in
  match r with OK ?u => exists u end.
  assert (Sip002URI_new (P := reference) config = OK _) as H
      by (vm_compute; reflexivity).
  split; [exact H |].
  destruct (proj2 (codec_keeps_fields reference config) _ H)
    as (H1 & _ & H2 & H3 & H4).
  cbn [config UnsafeConfig.method UnsafeConfig.password UnsafeConfig.tag
       UnsafeConfig.plugin unwrap or_empty] in H1, H2, H3, H4.
  split; [exact (f_equal or_empty (eq_sym H1)) |].
  repeat split; assumption.
Defined.

(** ** What the parsers refuse *)

Section Parsers.

Context {P : Platform}.

(** What the legacy parser cuts out of ["ss://"], a base64 text without [#]
    and a fragment. *)
Lemma legacy_cut (b64 : string) (fragment : option string) :
  Js.indexOf b64 "#" = -1 ->
  let uri := "ss://" ++ b64 ++ with_fragment fragment in
  Js.substring uri (Js.length "ss://")
    (if (Js.indexOf uri "#" =? -1)%Z then Js.length uri else Js.indexOf uri "#")
  = b64
  /\ Js.substring_from uri
       (if (Js.indexOf uri "#" =? -1)%Z then Js.length uri
        else Js.indexOf uri "#" + 1)
     = fragment_text fragment.
Proof.
  intros Hb uri. subst uri. destruct fragment as [e |]; cbn [with_fragment fragment_text].
  - destruct (legacy_cut_fragment b64 e Hb) as (C1 & C2 & C3).
    rewrite C1. split; assumption.
  - rewrite append_nil_r.
    destruct (legacy_cut_plain b64 Hb) as (C1 & C2 & C3).
    rewrite C1. simpl Z.eqb. cbv iota. split; assumption.
Qed.

(** The legacy parser once the tag and the base64 text are decoded: what is
    left of it works on the decoded text alone. *)
Lemma legacy_parse_decoded (b64 : string) (fragment : option string)
  (t b64DecodedData : string) :
  Js.indexOf b64 "#" = -1 ->
  decodeURIComponent (fragment_text fragment) = Returns t ->
  b64Decode b64 = Returns b64DecodedData ->
  LegacyBase64URI_parse ("ss://" ++ b64 ++ with_fragment fragment)
  = (let tag := Tag_new (Str t) in
     let atSignIndex := Js.indexOf b64DecodedData "@" in
     if (atSignIndex =? -1)%Z
     then Throw (InvalidURI ("Missing " ++ Js.dquote ++ "@" ++ Js.dquote ++ ": "
                               ++ b64DecodedData))
     else
     let methodAndPassword := Js.substring b64DecodedData 0 atSignIndex in
     let methodEndIndex := Js.indexOf methodAndPassword ":" in
     if (methodEndIndex =? -1)%Z
     then Throw (InvalidURI ("Missing password part: " ++ methodAndPassword))
     else
     method <- Method_new (Str (Js.substring methodAndPassword 0 methodEndIndex)) ;;
     let password :=
       Password_new (Str (Js.substring_from methodAndPassword (methodEndIndex + 1))) in
     let hostAndPort := Js.substring_from b64DecodedData (atSignIndex + 1) in
     let hostEndIndex := Js.indexOf hostAndPort ":" in
     if (hostEndIndex =? -1)%Z
     then Throw (InvalidURI ("Missing port part: " ++ hostAndPort))
     else
     host <- Host_new (Str (Js.substring hostAndPort 0 hostEndIndex)) ;;
     port <- Port_new (OfArg (Str (Js.substring_from hostAndPort (hostEndIndex + 1)))) ;;
     LegacyBase64URI_new
       (UnsafeConfig.make (Inst host) (OfArg (Inst port)) (Inst method)
                          (Inst password) (Inst tag) Undefined)).
Proof.
  intros Hb Ht Hd. unfold LegacyBase64URI_parse.
  rewrite validateProtocol_ss. cbn [bind].
  destruct (legacy_cut b64 fragment Hb) as [C1 C2].
  destruct (Js.indexOf _ "#" =? -1)%Z;
    rewrite C2, Ht; cbn [lift bind]; rewrite C1, Hd; reflexivity.
Qed.

End Parsers.

(** The decoded text [m:pw@rest] cut as the legacy parser cuts it, when [m]
    has no [:] and neither [m] nor [pw] has an [@]. *)
Lemma decoded_cut (m pw rest : string) :
  Js.indexOf m ":" = -1 -> Js.indexOf m "@" = -1 -> Js.indexOf pw "@" = -1 ->
  let b64DecodedData := m ++ ":" ++ pw ++ "@" ++ rest in
  let atSignIndex := Js.indexOf b64DecodedData "@" in
  let methodAndPassword := Js.substring b64DecodedData 0 atSignIndex in
  let methodEndIndex := Js.indexOf methodAndPassword ":" in
  (atSignIndex =? -1)%Z = false
  /\ (methodEndIndex =? -1)%Z = false
  /\ Js.substring methodAndPassword 0 methodEndIndex = m
  /\ Js.substring_from methodAndPassword (methodEndIndex + 1) = pw
  /\ Js.substring_from b64DecodedData (atSignIndex + 1) = rest.
Proof.
  intros Hm1 Hm2 Hpw. cbv zeta.
  assert (Js.indexOf (m ++ ":" ++ pw) "@" = -1) as Hmp.
  { apply indexOf_absent_append; [exact Hm2 |].
    apply (indexOf_absent_append "@" ":" pw); [reflexivity | exact Hpw]. }
  replace (m ++ ":" ++ pw ++ "@" ++ rest)
    with ((m ++ ":" ++ pw) ++ String "@" rest)
    by (now rewrite !append_assoc).
  destruct (split_at_first "@" (m ++ ":" ++ pw) rest Hmp) as (-> & -> & ->).
  destruct (split_at_first ":" m pw Hm1) as (Hi1 & Hs1 & Ht1).
  change (":" ++ pw) with (String ":" pw).
  rewrite Hi1, !Js_length_nonneg. repeat split; assumption.
Qed.

(** X5.  What the legacy parser refuses in the decoded text, on any
    platform, once the tag and the base64 text are decoded: a text without
    [@] (the message starts with Missing and names the [@]); a text with no
    [:] before its first [@] (Missing password part); a method that is not a
    known cipher ([InvalidConfigField], before the host and the port are
    looked at); a text with no [:] after its first [@] (Missing port part).
    Each message quotes the part at fault. *)
Theorem legacy_parse_refusals :
  forall (P : Platform) (b64 : string) (fragment : option string)
         (t b64DecodedData : string),
    Js.indexOf b64 "#" = -1 ->
    decodeURIComponent (fragment_text fragment) = Returns t ->
    b64Decode b64 = Returns b64DecodedData ->
    let uri := "ss://" ++ b64 ++ with_fragment fragment in
    (Js.indexOf b64DecodedData "@" = -1 ->
     LegacyBase64URI_parse uri
     = Throw (InvalidURI ("Missing " ++ Js.dquote ++ "@" ++ Js.dquote ++ ": "
                            ++ b64DecodedData)))
    /\ (forall methodAndPassword rest,
           b64DecodedData = methodAndPassword ++ "@" ++ rest ->
           Js.indexOf methodAndPassword "@" = -1 ->
           Js.indexOf methodAndPassword ":" = -1 ->
           LegacyBase64URI_parse uri
           = Throw (InvalidURI ("Missing password part: " ++ methodAndPassword)))
    /\ (forall m pw rest,
           b64DecodedData = m ++ ":" ++ pw ++ "@" ++ rest ->
           Js.indexOf m ":" = -1 -> Js.indexOf m "@" = -1 ->
           Js.indexOf pw "@" = -1 ->
           METHODS_has (VString m) = false ->
           LegacyBase64URI_parse uri
           = Throw (InvalidConfigField ("Invalid method: " ++ m)))
    /\ (forall m pw hostAndPort,
           b64DecodedData = m ++ ":" ++ pw ++ "@" ++ hostAndPort ->
           METHODS_has (VString m) = true ->
           Js.indexOf pw "@" = -1 ->
           Js.indexOf hostAndPort ":" = -1 ->
           LegacyBase64URI_parse uri
           = Throw (InvalidURI ("Missing port part: " ++ hostAndPort))).
Proof.
  intros P b64 fragment t d Hb Ht Hd uri. subst uri.
  rewrite (legacy_parse_decoded b64 fragment t d Hb Ht Hd). cbv zeta.
  split; [| split; [| split]].
  - intros ->. reflexivity.
  - intros mp rest -> Hat Hcolon.
    destruct (split_at_first "@" mp rest Hat) as (Hi & Hs & _).
    change ("@" ++ rest) with (String "@" rest).
    rewrite Hi, Js_length_nonneg, Hs, Hcolon. reflexivity.
  - intros m pw rest -> Hm1 Hm2 Hpw Hm.
    destruct (decoded_cut m pw rest Hm1 Hm2 Hpw) as (F1 & F2 & F3 & _).
    rewrite F1, F2, F3. unfold Method_new. cbn [unwrap]. rewrite Hm.
    reflexivity.
  - intros m pw rest -> Hm Hpw Hrest.
    destruct (METHODS_no_separator m Hm) as [Hm2 Hm1].
    destruct (decoded_cut m pw rest Hm1 Hm2 Hpw) as (F1 & F2 & F3 & _ & F5).
    rewrite F1, F2, F3, F5, (Method_new_Str _ Hm). cbn [bind].
    rewrite Hrest. reflexivity.
Qed.

Lemma legacy_parse_refusals_witness :
  LegacyBase64URI_parse (P := reference) "ss://YmYtY2ZiOnRlc3Q#Foo%20Bar"
  = Throw (InvalidURI ("Missing " ++ Js.dquote ++ "@" ++ Js.dquote ++ ": bf-cfb:test"))
  /\ LegacyBase64URI_parse (P := reference) "ss://YmYtY2ZiOnRlc3RAMTkyLjE2OC4xMDAuMQ"
     = Throw (InvalidURI "Missing port part: 192.168.100.1").
Proof.
  split.
  - apply (proj1 (legacy_parse_refusals reference "YmYtY2ZiOnRlc3Q"
                    (Some "Foo%20Bar") "Foo Bar" "bf-cfb:test"
                    eq_refl eq_refl eq_refl)).
    reflexivity.
  - apply (proj2 (proj2 (proj2
             (legacy_parse_refusals reference
                "YmYtY2ZiOnRlc3RAMTkyLjE2OC4xMDAuMQ" None ""
                "bf-cfb:test@192.168.100.1" eq_refl eq_refl eq_refl)))
             "bf-cfb" "test" "192.168.100.1");
      reflexivity.
Defined.

Lemma sip002_input (rest : string) :
  "http" ++ Js.substring_from ("ss://" ++ rest) 2 = "http://" ++ rest.
Proof.
  change ("ss://" ++ rest) with ("ss" ++ ("://" ++ rest)).
  change 2 with (Js.length "ss"). now rewrite Js_substring_from_append.
Qed.

(** X6.  What the SIP002 parser refuses, on any platform, in the order the
    code checks.  An error of the URL parser leaves it as it is (it is not
    made an [InvalidURI]).  A URL whose port reads as the empty string, so a
    URI that names no port, is refused with ["Invalid port: "].  User
    information that decodes to a text without [:] is refused with
    ["Missing password part"], which quotes the decoded text. *)
Theorem sip002_parse_refusals :
  forall (P : Platform) (rest : string),
    let uri := "ss://" ++ rest in
    (forall name message,
        URL ("http://" ++ rest) = Throws name message ->
        Sip002URI_parse uri = Throw (NativeError name message))
    /\ (forall url host,
           URL ("http://" ++ rest) = Returns url ->
           Host_new (Str (URLObject.hostname url)) = OK host ->
           URLObject.port url = "" ->
           Sip002URI_parse uri = Throw (InvalidConfigField "Invalid port: "))
    /\ (forall url host port t b64DecodedUserInfo,
           URL ("http://" ++ rest) = Returns url ->
           Host_new (Str (URLObject.hostname url)) = OK host ->
           Port_new (OfArg (Str (URLObject.port url))) = OK port ->
           decodeURIComponent (Js.substring_from (URLObject.hash url) 1)
             = Returns t ->
           b64Decode (Js.replace_3D (URLObject.username url))
             = Returns b64DecodedUserInfo ->
           Js.indexOf b64DecodedUserInfo ":" = -1 ->
           Sip002URI_parse uri
           = Throw (InvalidURI ("Missing password part: " ++ b64DecodedUserInfo))).
Proof.
  intros P rest uri. subst uri.
  unfold Sip002URI_parse. rewrite validateProtocol_ss, sip002_input. cbn [bind].
  split; [| split].
  - intros name message ->. reflexivity.
  - intros url host Hu Hh Hp. rewrite Hu. cbn [lift bind]. rewrite Hh.
    cbn [bind]. rewrite Hp. reflexivity.
  - intros url host port t d Hu Hh Hp Ht Hd Hc. rewrite Hu. cbn [lift bind].
    rewrite Hh. cbn [bind]. rewrite Hp. cbn [bind]. rewrite Ht. cbn [lift bind].
    rewrite Hd. cbn [lift bind]. rewrite Hc. reflexivity.
Qed.

Lemma sip002_parse_refusals_witness :
  Sip002URI_parse (P := reference) "ss://"
  = Throw (NativeError "TypeError" "Invalid URL")
  /\ Sip002URI_parse (P := reference) "ss://YWVzLTEyOC1nY206dGVzdA==@192.168.100.1/"
     = Throw (InvalidConfigField "Invalid port: ")
  /\ Sip002URI_parse (P := reference) "ss://dGVzdA==@192.168.100.1:8888/"
     = Throw (InvalidURI "Missing password part: test").
Proof.
  split; [| split].
  - apply (proj1 (sip002_parse_refusals reference "")). reflexivity.
  - apply (proj1 (proj2 (sip002_parse_refusals reference
                           "YWVzLTEyOC1nY206dGVzdA==@192.168.100.1/"))
             (URLObject.make "192.168.100.1" "" "YWVzLTEyOC1nY206dGVzdA%3D%3D" ""
                             (Some nil))
             (mkField KHost "192.168.100.1"));
      reflexivity.
  - apply (proj2 (proj2 (sip002_parse_refusals reference
                           "dGVzdA==@192.168.100.1:8888/"))
             (URLObject.make "192.168.100.1" "8888" "dGVzdA%3D%3D" "" (Some nil))
             (mkField KHost "192.168.100.1") (mkField KPort "8888") "" "test");
      reflexivity.
Defined.

(** ** What the parsers read *)

(** X7.  The grammar of the legacy parser, on any platform.  In the decoded
    text the method is what comes before the first [:], the password what
    lies between that [:] and the first [@] (so a password may hold a [:]
    but no [@]), the host what lies between the [@] and the next [:], and
    the port all that follows (so a host may hold no [:]).  The host and the
    port are validated, and the object is the one the constructor makes of
    the validated fields and the decoded tag. *)
Theorem legacy_parse_fields :
  forall (P : Platform) (b64 : string) (fragment : option string)
         (t m pw h p : string),
    Js.indexOf b64 "#" = -1 ->
    decodeURIComponent (fragment_text fragment) = Returns t ->
    b64Decode b64 = Returns (m ++ ":" ++ pw ++ "@" ++ h ++ ":" ++ p) ->
    METHODS_has (VString m) = true ->
    Js.indexOf pw "@" = -1 ->
    Js.indexOf h ":" = -1 ->
    LegacyBase64URI_parse ("ss://" ++ b64 ++ with_fragment fragment)
    = (host <- Host_new (Str h) ;;
       port <- Port_new (OfArg (Str p)) ;;
       LegacyBase64URI_new
         (UnsafeConfig.make (Inst host) (OfArg (Inst port))
                            (Inst (mkField KMethod m)) (Inst (mkField KPassword pw))
                            (Inst (mkField KTag t)) Undefined)).
Proof.
  intros P b64 fragment t m pw h p Hb Ht Hd Hm Hpw Hh.
  rewrite (legacy_parse_decoded b64 fragment t _ Hb Ht Hd). cbv zeta.
  destruct (legacy_fields m pw h p Hm Hpw Hh) as (F1 & F2 & F3 & F4 & F5 & F6 & F7).
  rewrite F1, F2, F3, F4, F5, F6, F7, (Method_new_Str _ Hm). reflexivity.
Qed.

Lemma legacy_parse_fields_witness :
  exists u,
    LegacyBase64URI_parse (P := reference)
      "ss://YmYtY2ZiOnRlOnN0QDE5Mi4xNjguMTAwLjE6ODg4OA#Foo%20Bar" = OK u
    /\ Config.method (LegacyBase64URI.super u) = "bf-cfb"
    /\ Config.password (LegacyBase64URI.super u) = "te:st"
    /\ Config.host (LegacyBase64URI.super u) = "192.168.100.1"
    /\ Config.port (LegacyBase64URI.super u) = "8888"
    /\ Config.tag (LegacyBase64URI.super u) = "Foo Bar".
Proof.
  let r := eval vm_compute in
    (LegacyBase64URI_parse (P := reference)
       "ss://YmYtY2ZiOnRlOnN0QDE5Mi4xNjguMTAwLjE6ODg4OA#Foo%20Bar") in
  match r with OK ?u => exists u end.
  split; [| repeat split].
  etransitivity.
  - exact (legacy_parse_fields reference
             "YmYtY2ZiOnRlOnN0QDE5Mi4xNjguMTAwLjE6ODg4OA" (Some "Foo%20Bar")
             "Foo Bar" "bf-cfb" "te:st" "192.168.100.1" "8888"
             eq_refl eq_refl eq_refl eq_refl eq_refl eq_refl).
  - vm_compute. reflexivity.
Defined.

(** X8.  The grammar of the SIP002 parser, on any platform.  The host, the
    port, the user information, the fragment and the query are the ones the
    URL parser reports.  In the decoded user information the method is what
    comes before the first [:] and the password all that follows, so a
    password may hold [:] and [@].  The host and the port are validated, and
    the object is the one the constructor makes of the validated fields,
    the decoded tag and the [plugin] parameter. *)
Theorem sip002_parse_fields :
  forall (P : Platform) (rest : string) (url : URLObject) (t m pw : string),
    URL ("http://" ++ rest) = Returns url ->
    decodeURIComponent (Js.substring_from (URLObject.hash url) 1) = Returns t ->
    b64Decode (Js.replace_3D (URLObject.username url)) = Returns (m ++ ":" ++ pw) ->
    METHODS_has (VString m) = true ->
    Sip002URI_parse ("ss://" ++ rest)
    = (host <- Host_new (Str (URLObject.hostname url)) ;;
       port <- Port_new (OfArg (Str (URLObject.port url))) ;;
       Sip002URI_new
         (UnsafeConfig.make (Inst host) (OfArg (Inst port))
                            (Inst (mkField KMethod m)) (Inst (mkField KPassword pw))
                            (Inst (mkField KTag t))
                            (if String.eqb (URL_plugin url) "" then Undefined
                             else Inst (mkField KPlugin (URL_plugin url))))).
Proof.
  intros P rest url t m pw Hu Ht Hd Hm.
  unfold Sip002URI_parse. rewrite validateProtocol_ss, sip002_input. cbn [bind].
  rewrite Hu. cbn [lift bind].
  destruct (Host_new (Str (URLObject.hostname url))) as [host | e]; [| reflexivity].
  cbn [bind].
  destruct (Port_new (OfArg (Str (URLObject.port url)))) as [port | e];
    [| reflexivity].
  cbn [bind]. rewrite Ht. cbn [lift bind]. rewrite Hd. cbn [lift bind].
  destruct (METHODS_no_separator m Hm) as [_ Hm1].
  destruct (split_at_first ":" m pw Hm1) as (Hi & Hs & Hr).
  change (":" ++ pw) with (String ":" pw).
  rewrite Hi, Js_length_nonneg, Hs, Hr, (Method_new_Str _ Hm). cbn [bind].
  f_equal. f_equal. unfold URL_plugin.
  destruct (URLObject.searchParams url) as [ps |]; [| reflexivity].
  destruct (searchParams_get ps "plugin") as [v |]; [| reflexivity].
  cbn [truthy]. destruct (String.eqb v ""); reflexivity.
Qed.

Lemma sip002_parse_fields_witness :
  exists u,
    Sip002URI_parse (P := reference)
      "ss://YWVzLTEyOC1nY206dEA6c3Q=@192.168.100.1:8888/?plugin=obfs-local#Foo%20Bar"
    = OK u
    /\ Config.method (Sip002URI.super u) = "aes-128-gcm"
    /\ Config.password (Sip002URI.super u) = "t@:st"
    /\ Sip002URI.plugin u = "obfs-local".
Proof.
  let r := eval vm_compute in
    (Sip002URI_parse (P := reference)
       "ss://YWVzLTEyOC1nY206dEA6c3Q=@192.168.100.1:8888/?plugin=obfs-local#Foo%20Bar") in
  match r with OK ?u => exists u end.
  split; [| repeat split].
  etransitivity.
  - exact (sip002_parse_fields reference
             "YWVzLTEyOC1nY206dEA6c3Q=@192.168.100.1:8888/?plugin=obfs-local#Foo%20Bar"
             (URLObject.make "192.168.100.1" "8888" "YWVzLTEyOC1nY206dEA6c3Q%3D"
                             "#Foo%20Bar" (Some [("plugin", "obfs-local")]))
             "Foo Bar" "aes-128-gcm" "t@:st" eq_refl eq_refl eq_refl eq_refl).
  - vm_compute. reflexivity.
Defined.

(** ** What the parsers return *)

Section Parsed.

Context {P : Platform}.

Lemma LegacyBase64URI_parse_constructs (uri : string) (u : LegacyBase64URI) :
  LegacyBase64URI_parse uri = OK u ->
  (exists rest, uri = "ss://" ++ rest)
  /\ exists config, LegacyBase64URI_new config = OK u.
Proof.
  unfold LegacyBase64URI_parse, validateProtocol, Js.startsWith. intros H.
  destruct (String.prefix "ss://" uri) eqn:Hp; [| discriminate H].
  split; [now apply prefix_append |]. cbn [bind] in H.
  destruct (if (Js.indexOf uri "#" =? -1)%Z
            then (Js.length uri, Js.length uri)
            else (Js.indexOf uri "#", Js.indexOf uri "#" + 1)) as [i j].
  bind_inv H. bind_inv H.
  destruct (_ =? -1)%Z; [discriminate H |].
  destruct (_ =? -1)%Z; [discriminate H |].
  bind_inv H.
  destruct (_ =? -1)%Z; [discriminate H |].
  bind_inv H. bind_inv H. eauto.
Qed.

Lemma Sip002URI_parse_constructs (uri : string) (u : Sip002URI) :
  Sip002URI_parse uri = OK u ->
  (exists rest, uri = "ss://" ++ rest)
  /\ exists url config,
       URL ("http" ++ Js.substring_from uri 2) = Returns url
       /\ Sip002URI_new config = OK u
       /\ Plugin_new (UnsafeConfig.plugin config) = mkField KPlugin (URL_plugin url).
Proof.
  unfold Sip002URI_parse, validateProtocol, Js.startsWith. intros H.
  destruct (String.prefix "ss://" uri) eqn:Hp; [| discriminate H].
  split; [now apply prefix_append |]. cbn [bind] in H.
  bind_inv H. apply lift_OK in E. bind_inv H. bind_inv H. bind_inv H. bind_inv H.
  destruct (_ =? -1)%Z; [discriminate H |].
  bind_inv H. exists x. eexists. split; [exact E | split; [exact H |]].
  cbn [UnsafeConfig.plugin]. apply parsed_plugin.
Qed.

End Parsed.

(** X9.  Whatever the dispatcher returns, on any platform, was read from a
    string that starts with ["ss://"] and came out of a codec constructor:
    its method is a known cipher; the base64 text of a legacy object does
    not end with [=]; the user information of a SIP002 object is the base64
    text of its own [method:password], encoded anew and not taken from the
    URI. *)
Theorem parsed_objects_are_constructed :
  forall (P : Platform) (uri : string) (p : ParsedURI),
    ShadowsocksURI_parse uri = OK p ->
    (exists rest, uri = "ss://" ++ rest)
    /\ In (Config.method (ParsedURI_config p)) METHODS
    /\ match p with
       | Legacy u => unpadded (LegacyBase64URI.b64EncodedData u)
       | Sip002 u =>
           b64Encode (Config.method (Sip002URI.super u) ++ ":"
                        ++ Config.password (Sip002URI.super u))
           = Returns (Sip002URI.b64EncodedUserInfo u)
       end.
Proof.
  intros P uri p. unfold ShadowsocksURI_parse, parse_with, parse_for, UriType_parse.
  destruct (LegacyBase64URI_parse uri) as [u | e1] eqn:H1; cbn [bind].
  - intros H. injection H as <-.
    destruct (LegacyBase64URI_parse_constructs _ _ H1) as (Hs & config & Hc).
    destruct (LegacyBase64URI_new_OK _ _ Hc) as (b64 & _ & Hd & Hm).
    split; [exact Hs | split; [now apply METHODS_has_In |]].
    cbn beta iota. rewrite Hd, stripPadding_spec. apply strip_unpadded.
  - destruct (Sip002URI_parse uri) as [u | e2] eqn:H2; cbn [bind];
      [| discriminate].
    intros H. injection H as <-.
    destruct (Sip002URI_parse_constructs _ _ H2)
      as (Hs & url & config & _ & Hc & _).
    destruct (Sip002URI_new_OK _ _ Hc) as (He & _ & Hm).
    split; [exact Hs | split; [now apply METHODS_has_In | exact He]].
Qed.

Lemma parsed_objects_are_constructed_witness :
  exists u,
    ShadowsocksURI_parse (P := reference)
      "ss://YmYtY2ZiOnRlc3RAMTkyLjE2OC4xMDAuMTo4ODg4#Foo%20Bar" = OK (Legacy u)
    /\ In (Config.method (LegacyBase64URI.super u)) METHODS
    /\ unpadded (LegacyBase64URI.b64EncodedData u).
Proof.
  let r := eval vm_compute in
    (LegacyBase64URI_parse (P := reference)
       "ss://YmYtY2ZiOnRlc3RAMTkyLjE2OC4xMDAuMTo4ODg4#Foo%20Bar") in
  match r with OK ?u => exists u end.
  assert (ShadowsocksURI_parse (P := reference)
            "ss://YmYtY2ZiOnRlc3RAMTkyLjE2OC4xMDAuMTo4ODg4#Foo%20Bar" = OK (Legacy _))
    as H by (vm_compute; reflexivity).
  split; [exact H |].
  destruct (parsed_objects_are_constructed reference _ _ H) as (_ & Hm & Hu).
  split; [exact Hm | exact Hu].
Defined.

(** X10.  The plugin of an object the SIP002 parser returns is the first
    [plugin] parameter of the query as the URL parser reports it; it is the
    empty string when there is none, and on a platform whose URL objects
    have no [searchParams] the plugin of the URI is dropped without an
    error. *)
Theorem sip002_parsed_plugin :
  forall (P : Platform) (uri : string) (u : Sip002URI) (url : URLObject),
    Sip002URI_parse uri = OK u ->
    URL ("http" ++ Js.substring_from uri 2) = Returns url ->
    Sip002URI.plugin u = URL_plugin url
    /\ (URLObject.searchParams url = None -> Sip002URI.plugin u = "")
    /\ (forall searchParams,
           URLObject.searchParams url = Some searchParams ->
           searchParams_get searchParams "plugin" = None ->
           Sip002URI.plugin u = "").
Proof.
  intros P uri u url H Hurl.
  destruct (Sip002URI_parse_constructs _ _ H) as (_ & url' & config & Hu & Hc & Hp).
  rewrite Hurl in Hu. apply Returns_inj in Hu. subst url'.
  destruct (Sip002URI_new_OK _ _ Hc) as (_ & Hpl & _).
  assert (Sip002URI.plugin u = URL_plugin url) as Heq.
  { unfold Sip002URI.plugin. now rewrite Hpl, Hp. }
  split; [exact Heq | split].
  - intros Hs. rewrite Heq. unfold URL_plugin. now rewrite Hs.
  - intros ps Hs Hg. rewrite Heq. unfold URL_plugin. now rewrite Hs, Hg.
Qed.

Lemma sip002_parsed_plugin_witness :
  exists u,
    Sip002URI_parse (P := reference)
      "ss://cmM0LW1kNTpwYXNzd2Q=@192.168.100.1:8888/?plugin=obfs-local%3Bobfs%3Dhttp#Foo%20Bar"
    = OK u
    /\ Sip002URI.plugin u = "obfs-local;obfs=http".
Proof.
  let r := eval vm_compute in
    (Sip002URI_parse (P := reference)
       "ss://cmM0LW1kNTpwYXNzd2Q=@192.168.100.1:8888/?plugin=obfs-local%3Bobfs%3Dhttp#Foo%20Bar") in
  match r with OK ?u => exists u end.
  assert (Sip002URI_parse (P := reference)
            "ss://cmM0LW1kNTpwYXNzd2Q=@192.168.100.1:8888/?plugin=obfs-local%3Bobfs%3Dhttp#Foo%20Bar"
          = OK _) as H by (vm_compute; reflexivity).
  split; [exact H |].
  let r := eval vm_compute in
    (WhatwgURL.parse
       "http://cmM0LW1kNTpwYXNzd2Q=@192.168.100.1:8888/?plugin=obfs-local%3Bobfs%3Dhttp#Foo%20Bar") in
  match r with
  | Some ?url =>
      destruct (sip002_parsed_plugin reference _ _ url H) as (Hp & _);
        [vm_compute; reflexivity | exact Hp]
  end.
Defined.

(** ** Ports on the reference platform *)

Lemma digit_text_of_uint (D : string) :
  Chars.forallb Chars.is_digit D = true ->
  exists d : Decimal.uint, D = NilEmpty.string_of_uint d.
Proof.
  induction D as [| c D IH]; intros H.
  - exists Decimal.Nil. reflexivity.
  - cbn [Chars.forallb] in H. apply andb_prop in H. destruct H as [Hc HD].
    destruct (IH HD) as [d ->].
    destruct c as [[] [] [] [] [] [] [] []]; try discriminate Hc;
      first [ now exists (Decimal.D0 d) | now exists (Decimal.D1 d)
            | now exists (Decimal.D2 d) | now exists (Decimal.D3 d)
            | now exists (Decimal.D4 d) | now exists (Decimal.D5 d)
            | now exists (Decimal.D6 d) | now exists (Decimal.D7 d)
            | now exists (Decimal.D8 d) | now exists (Decimal.D9 d) ].
Qed.

(** The URL that [Port] builds around a plain text. *)
Lemma URL_of_plain_port (s : string) :
  Chars.forallb plain_char s = true ->
  WhatwgURL.parse ("http://0.0.0.0:" ++ s ++ "/")
  = match WhatwgURL.parse_port s with
    | Some port =>
        Some (URLObject.make "0.0.0.0"
                (match port with Some p => Whatwg.decimal p | None => "" end)
                "" "" (Some nil))
    | None => None
    end.
Proof.
  intros Hs.
  change ("http://0.0.0.0:" ++ s ++ "/")
    with ("http://" ++ ("0.0.0.0" ++ String ":" s) ++ String "/" "").
  rewrite (URL_of_authority _ "" None ("0.0.0.0" ++ String ":" s) "0.0.0.0" (Some s)).
  - change (Whatwg.parse_host "0.0.0.0") with (Some "0.0.0.0").
    destruct (WhatwgURL.parse_port s) as [port |]; reflexivity.
  - discriminate.
  - rewrite forallb_append. cbn [Chars.forallb].
    change (visible ":") with true. rewrite (plain_visible s Hs). reflexivity.
  - rewrite forallb_append. cbn [Chars.forallb].
    change (negb (WhatwgURL.ends_authority ":")) with true.
    rewrite (plain_inside_authority s Hs). reflexivity.
  - reflexivity.
  - apply split_userinfo_none. rewrite forallb_append. cbn [Chars.forallb].
    change (negb (Ascii.eqb ":" "@")) with true.
    rewrite (plain_no_at s Hs). reflexivity.
  - apply split_port_some. reflexivity.
Qed.

(** X11.  [Port] on a text, with a URL parser that follows the URL Standard.
    A non-empty text of decimal digits is accepted exactly when the integer
    it denotes is at most 65535, and the payload is the decimal text of that
    integer, so without leading zeros, except for 80, where the payload is
    empty.  A text of characters above the space other than [# / : ? @ [ \ ]],
    one of which is not a digit, is refused with ["Invalid port: "] and the
    text: a sign, a decimal point or a letter is enough. *)
Theorem port_of_text :
  (forall D : string,
      D <> "" -> Chars.forallb Chars.is_digit D = true ->
      exists d : Decimal.uint,
        D = NilEmpty.string_of_uint d
        /\ Port_new (P := reference) (OfArg (Str D))
           = if (N.of_uint d <=? 65535)%N
             then OK (mkField KPort
                        (if (N.of_uint d =? 80)%N then ""
                         else Js.Number_toString (Z.of_N (N.of_uint d))))
             else Throw (InvalidConfigField ("Invalid port: " ++ D)))
  /\ (forall s : string,
         Chars.forallb plain_char s = true ->
         Chars.forallb Chars.is_digit s = false ->
         Port_new (P := reference) (OfArg (Str s))
         = Throw (InvalidConfigField ("Invalid port: " ++ s))).
Proof.
  split.
  - intros D Hne HD. destruct (digit_text_of_uint D HD) as [d Hd].
    exists d. split; [exact Hd |].
    destruct (port_of_digits D Hne HD) as (v & Hv & ->).
    rewrite Hd, number_in_of_uint in Hv. injection Hv as <-.
    rewrite (Number_toString_nonneg (Z.of_N (N.of_uint d))) by lia.
    now rewrite N2Z.id.
  - intros s Hs Hd. destruct s as [| a s]; [discriminate Hd |].
    unfold Port_new, throwErrorForInvalidField.
    cbn [unwrap_port unwrap String_of URL reference]. unfold WhatwgURL.URL.
    rewrite (URL_of_plain_port _ Hs). unfold WhatwgURL.parse_port.
    now rewrite Hd.
Qed.

Lemma port_of_text_witness :
  Port_new (P := reference) (OfArg (Str "01234")) = OK (mkField KPort "1234")
  /\ Port_new (P := reference) (OfArg (Str "-123"))
     = Throw (InvalidConfigField "Invalid port: -123")
  /\ Port_new (P := reference) (OfArg (Str "123.4"))
     = Throw (InvalidConfigField "Invalid port: 123.4").
Proof.
  split; [| split].
  - destruct (proj1 port_of_text "01234") as (d & Hd & H);
      [discriminate | reflexivity |].
    rewrite H. clear H.
    assert (d = Decimal.D0 (Decimal.D1 (Decimal.D2 (Decimal.D3
                (Decimal.D4 Decimal.Nil))))) as ->.
    { destruct d as [| d | d | d | d | d | d | d | d | d | d];
        try discriminate Hd; injection Hd as Hd.
      destruct d as [| d | d | d | d | d | d | d | d | d | d];
        try discriminate Hd; injection Hd as Hd.
      destruct d as [| d | d | d | d | d | d | d | d | d | d];
        try discriminate Hd; injection Hd as Hd.
      destruct d as [| d | d | d | d | d | d | d | d | d | d];
        try discriminate Hd; injection Hd as Hd.
      destruct d as [| d | d | d | d | d | d | d | d | d | d];
        try discriminate Hd; injection Hd as Hd.
      destruct d; try discriminate Hd. reflexivity. }
    reflexivity.
  - apply (proj2 port_of_text "-123"); reflexivity.
  - apply (proj2 port_of_text "123.4"); reflexivity.
Defined.

(** The port a parsed URL reports is empty or the decimal text of an
    integer up to 65535 other than 80. *)
Lemma parsed_port_shape (input : string) (url : URLObject) :
  WhatwgURL.parse input = Some url ->
  URLObject.port url = ""
  \/ exists v, (v <= 65535)%N /\ v <> 80%N /\ URLObject.port url = Whatwg.decimal v.
Proof.
  unfold WhatwgURL.parse.
  destruct (WhatwgURL.after_http _) as [rest |]; [| discriminate].
  destruct (Chars.break _ _) as [authority tail].
  destruct (WhatwgURL.split_userinfo _) as [userinfo hostport].
  destruct (WhatwgURL.split_port _ _) as [buffer portBuffer].
  destruct buffer as [| a b]; [discriminate |].
  destruct (Whatwg.parse_host _) as [host |]; [| discriminate].
  destruct (WhatwgURL.parse_port _) as [port |] eqn:Hp; [| discriminate].
  destruct (WhatwgURL.query_and_fragment tail) as [query fragment].
  intros H. injection H as <-. cbn [URLObject.port].
  destruct port as [v |]; [right | now left].
  exists v. unfold WhatwgURL.parse_port in Hp.
  destruct (Chars.forallb _ _); [| discriminate Hp].
  destruct (match portBuffer with Some p => p | None => "" end);
    [discriminate Hp |].
  destruct (Whatwg.number_in _ _ _) as [w |]; [| discriminate Hp].
  destruct (N.ltb_spec 65535 w) as [Hgt | Hle]; [discriminate Hp |].
  destruct (N.eqb_spec w 80) as [He | Hne]; [discriminate Hp |].
  injection Hp as <-. repeat split; assumption.
Qed.

(** X12.  With a URL parser that follows the URL Standard, whatever [Port]
    is given (a text, a number or an instance), the payload of the instance
    it returns is either empty or the decimal text of an integer from 0 to
    65535 other than 80; and every payload that is not empty validates to
    the same instance again. *)
Theorem port_payload_canonical :
  forall (x : PortArg) (f : Port),
    Port_new (P := reference) x = OK f ->
    data f = ""
    \/ (exists n : Z,
           0 <= n <= 65535 /\ n <> 80 /\ data f = Js.Number_toString n)
       /\ Port_new (P := reference) (OfArg (Str (data f))) = OK f.
Proof.
  intros x f H. apply Port_new_OK in H. destruct H as (_ & url & Hu & Hp).
  cbn [URL reference] in Hu. unfold WhatwgURL.URL in Hu.
  destruct (WhatwgURL.parse _) as [url' |] eqn:E; [| discriminate Hu].
  apply Returns_inj in Hu. subst url'.
  destruct (parsed_port_shape _ _ E) as [H0 | (v & Hle & Hne & Hv)].
  - left. now rewrite <- Hp.
  - right. rewrite Hp in Hv. split.
    + exists (Z.of_N v). repeat split; try lia.
      rewrite Number_toString_nonneg by lia. now rewrite N2Z.id.
    + exact (Port_fixed f v Hv Hle Hne).
Qed.

Lemma port_payload_canonical_witness :
  Port_new (P := reference) (OfArg (Str "0443")) = OK (mkField KPort "443")
  /\ Port_new (P := reference) (OfArg (Str "443")) = OK (mkField KPort "443").
Proof.
  assert (Port_new (P := reference) (OfArg (Str "0443")) = OK (mkField KPort "443"))
    as H by reflexivity.
  split; [exact H |].
  destruct (port_payload_canonical _ _ H) as [H0 | [_ H1]];
    [discriminate H0 | exact H1].
Defined.

(** ** What the field constructors let through *)

Lemma ender_visible (c : ascii) :
  WhatwgURL.ends_authority c = true -> visible c = true.
Proof.
  destruct c as [[] [] [] [] [] [] [] []]; vm_compute; intros H;
    try discriminate H; reflexivity.
Qed.

Lemma trim_end_after_visible (s t : string) :
  Chars.forallb visible s = true ->
  WhatwgURL.trim_end (s ++ t) = s ++ WhatwgURL.trim_end t.
Proof.
  induction s as [| a s IH]; cbn [append Chars.forallb]; intros H; [reflexivity |].
  apply andb_prop in H. destruct H as [Ha Hs].
  cbn [WhatwgURL.trim_end]. rewrite (IH Hs).
  unfold visible in Ha. apply negb_true_iff in Ha. rewrite Ha.
  destruct (s ++ WhatwgURL.trim_end t); reflexivity.
Qed.

(** What the URL parser does to an input before it parses it leaves a
    leading visible part as it is. *)
Lemma preprocess_after_visible (s t : string) :
  s <> "" -> Chars.forallb visible s = true ->
  exists t', WhatwgURL.preprocess (s ++ t) = s ++ t'.
Proof.
  intros Hne Hs. unfold WhatwgURL.preprocess.
  assert (WhatwgURL.trim_start (s ++ t) = s ++ t) as ->.
  { destruct s as [| a s]; [contradiction |]. cbn [append WhatwgURL.trim_start].
    cbn [Chars.forallb] in Hs. apply andb_prop in Hs. destruct Hs as [Ha _].
    unfold visible in Ha. apply negb_true_iff in Ha. now rewrite Ha. }
  rewrite (trim_end_after_visible s t Hs), filter_append, (filter_visible s Hs).
  eexists. reflexivity.
Qed.

(** The URL parser on an [http] URL whose authority is followed by a
    character that ends it and by any text. *)
Lemma URL_of_authority_any (authority t : string) (c : ascii)
  (userinfo : option string) (hostport h : string) (p : option string) :
  authority <> "" ->
  Chars.forallb visible authority = true ->
  Chars.forallb (fun c => negb (WhatwgURL.ends_authority c)) authority = true ->
  WhatwgURL.ends_authority c = true ->
  WhatwgURL.split_userinfo authority = (userinfo, hostport) ->
  WhatwgURL.split_port hostport false = (h, p) ->
  exists hash searchParams,
    WhatwgURL.parse ("http://" ++ authority ++ String c t)
    = match h, Whatwg.parse_host h,
            WhatwgURL.parse_port (match p with Some x => x | None => "" end)
      with
      | String _ _, Some host, Some port =>
          Some (URLObject.make
                  host
                  (match port with Some x => Whatwg.decimal x | None => "" end)
                  (WhatwgURL.username_of userinfo) hash searchParams)
      | _, _, _ => None
      end.
Proof.
  intros Hne Hva Hta Hc Hu Hp.
  destruct (preprocess_after_visible ("http://" ++ authority ++ String c "") t)
    as [t' Ht'].
  { discriminate. }
  { change ("http://" ++ authority ++ String c "")
      with ("http://" ++ (authority ++ String c "")).
    rewrite !forallb_append, Hva. cbn [Chars.forallb].
    now rewrite (ender_visible c Hc). }
  assert (("http://" ++ authority ++ String c "") ++ t
          = "http://" ++ authority ++ String c t) as E
      by (repeat (cbn [append]; rewrite ?append_assoc); reflexivity).
  assert (("http://" ++ authority ++ String c "") ++ t'
          = "http://" ++ authority ++ String c t') as E'
      by (repeat (cbn [append]; rewrite ?append_assoc); reflexivity).
  rewrite E, E' in Ht'.
  destruct (WhatwgURL.query_and_fragment (String c t')) as [query fragment] eqn:Hq.
  exists (WhatwgURL.hash_of fragment),
    (Some (WhatwgURL.parse_query
             (Chars.percent_encode Whatwg.special_query_set query))).
  unfold WhatwgURL.parse. rewrite Ht'.
  rewrite after_http_literal, ignore_slashes_stop.
  2:{ destruct authority as [| a r]; [contradiction |]. simpl in Hta |- *.
      apply andb_prop in Hta. destruct Hta as [Ha _].
      apply negb_true_iff in Ha. now apply not_ending_not_slash. }
  rewrite (break_at _ authority t' c Hta Hc), Hu, Hp, Hq. reflexivity.
Qed.

(** X13.  [Host] and [Port] read their argument as a part of a URL, so
    what follows the first [/], [?], [#] or backslash of the text is not
    looked at.  With a URL parser that follows the URL Standard: a text
    that is accepted is accepted with the same payload when such a
    character and any text at all follow it; and a text that starts with
    such a character is accepted as a port, with the empty payload. *)
Theorem text_after_authority_ignored :
  forall (c : ascii) (rest : string),
    WhatwgURL.ends_authority c = true ->
    (forall (h : string) (f : Host),
        Chars.forallb plain_char h = true ->
        Host_new (P := reference) (Str h) = OK f ->
        Host_new (P := reference) (Str (h ++ String c rest)) = OK f)
    /\ (forall (s : string) (f : Port),
           Chars.forallb plain_char s = true ->
           Port_new (P := reference) (OfArg (Str s)) = OK f ->
           Port_new (P := reference) (OfArg (Str (s ++ String c rest))) = OK f)
    /\ Port_new (P := reference) (OfArg (Str (String c rest)))
       = OK (mkField KPort "").
Proof.
  intros c rest Hc.
  split; [| split].
  - intros h f Hh Hf.
    assert (h <> "") as Hne.
    { intros ->. vm_compute in Hf. discriminate Hf. }
    rewrite (host_of_plain h Hne Hh) in Hf.
    destruct (Whatwg.parse_host h) as [host |] eqn:Hhost; [| discriminate Hf].
    apply OK_inj in Hf. subst f.
    unfold Host_new. cbn [unwrap String_of URL reference]. unfold WhatwgURL.URL.
    assert ("http://" ++ (h ++ String c rest) ++ "/"
            = "http://" ++ h ++ String c (rest ++ "/")) as ->
        by (now rewrite append_assoc).
    destruct (URL_of_authority_any h (rest ++ "/") c None h h None Hne
                (plain_visible h Hh) (plain_inside_authority h Hh) Hc
                (split_userinfo_none h (plain_no_at h Hh)) (split_port_none h Hh))
      as (hash & searchParams & ->).
    destruct h as [| a h']; [contradiction |]. now rewrite Hhost.
  - intros s f Hs Hf.
    assert (s <> "") as Hne.
    { intros ->. vm_compute in Hf. discriminate Hf. }
    unfold Port_new, throwErrorForInvalidField in Hf.
    cbn [unwrap_port unwrap String_of URL reference] in Hf.
    unfold WhatwgURL.URL in Hf. rewrite (URL_of_plain_port s Hs) in Hf.
    unfold Port_new. cbn [unwrap_port unwrap String_of URL reference].
    unfold WhatwgURL.URL.
    assert (exists username hash searchParams,
               WhatwgURL.parse ("http://0.0.0.0:" ++ (s ++ String c rest) ++ "/")
               = match WhatwgURL.parse_port s with
                 | Some port =>
                     Some (URLObject.make "0.0.0.0"
                             (match port with
                              | Some p => Whatwg.decimal p
                              | None => ""
                              end) username hash searchParams)
                 | None => None
                 end) as (username & hash & searchParams & Hurl).
    { assert ("http://0.0.0.0:" ++ (s ++ String c rest) ++ "/"
              = "http://" ++ ("0.0.0.0" ++ String ":" s) ++ String c (rest ++ "/"))
        as -> by (now rewrite append_assoc).
      destruct (URL_of_authority_any ("0.0.0.0" ++ String ":" s) (rest ++ "/") c
                  None ("0.0.0.0" ++ String ":" s) "0.0.0.0" (Some s))
        as (hash & searchParams & ->).
      - discriminate.
      - rewrite forallb_append. cbn [Chars.forallb].
        change (visible ":") with true. rewrite (plain_visible s Hs). reflexivity.
      - rewrite forallb_append. cbn [Chars.forallb].
        change (negb (WhatwgURL.ends_authority ":")) with true.
        rewrite (plain_inside_authority s Hs). reflexivity.
      - exact Hc.
      - apply split_userinfo_none. rewrite forallb_append. cbn [Chars.forallb].
        change (negb (Ascii.eqb ":" "@")) with true.
        rewrite (plain_no_at s Hs). reflexivity.
      - apply split_port_some. reflexivity.
      - exists "", hash, searchParams.
        change (Whatwg.parse_host "0.0.0.0") with (Some "0.0.0.0").
        destruct (WhatwgURL.parse_port s); reflexivity. }
    rewrite Hurl.
    destruct (WhatwgURL.parse_port s) as [port |];
      destruct s as [| a s']; try contradiction; [| discriminate Hf].
    exact Hf.
  - unfold Port_new. cbn [unwrap_port unwrap String_of URL reference].
    unfold WhatwgURL.URL.
    change ("http://0.0.0.0:" ++ String c rest ++ "/")
      with ("http://" ++ ("0.0.0.0" ++ String ":" "") ++ String c (rest ++ "/")).
    destruct (URL_of_authority_any ("0.0.0.0" ++ String ":" "") (rest ++ "/") c
                None ("0.0.0.0" ++ String ":" "") "0.0.0.0" (Some "")
                ltac:(discriminate) eq_refl eq_refl Hc eq_refl eq_refl)
      as (hash & searchParams & ->).
    reflexivity.
Qed.

Lemma text_after_authority_ignored_witness :
  Host_new (P := reference) (Str "example.com/;echo pwned")
  = OK (mkField KHost "example.com")
  /\ Port_new (P := reference) (OfArg (Str "8388?x=1")) = OK (mkField KPort "8388").
Proof.
  split.
  - apply (proj1 (text_after_authority_ignored "/" ";echo pwned" eq_refl)
             "example.com"); reflexivity.
  - apply (proj1 (proj2 (text_after_authority_ignored "?" "x=1" eq_refl))
             "8388"); reflexivity.
Defined.

Lemma parse_port_in_range (n : Z) :
  0 <= n <= 65535 ->
  exists port, WhatwgURL.parse_port (Js.Number_toString n) = Some port.
Proof.
  intros Hn. rewrite Number_toString_nonneg by lia.
  destruct (N.eq_dec (Z.to_N n) 80) as [-> | Hne].
  - eexists. reflexivity.
  - eexists. apply parse_port_decimal; [lia | exact Hne].
Qed.

(** Credentials before a host are dropped by the URL parser. *)
Lemma host_with_credentials (u h host : string) :
  Chars.forallb plain_char h = true ->
  Whatwg.parse_host h = Some host ->
  Chars.forallb visible u = true ->
  Chars.forallb (fun c => negb (WhatwgURL.ends_authority c)) u = true ->
  Host_new (P := reference) (Str (u ++ "@" ++ h)) = OK (mkField KHost host).
Proof.
  intros Hh Hhost Hv He.
  assert (h <> "") as Hne by (intros ->; discriminate Hhost).
  unfold Host_new. cbn [unwrap String_of URL reference]. unfold WhatwgURL.URL.
  change ("http://" ++ (u ++ "@" ++ h) ++ "/")
    with ("http://" ++ (u ++ String "@" h) ++ String "/" "").
  rewrite (URL_of_authority (u ++ String "@" h) "" (Some u) h h None).
  - destruct h as [| a h']; [contradiction |]. now rewrite Hhost.
  - destruct u; discriminate.
  - rewrite forallb_append, Hv. cbn [Chars.forallb].
    change (visible "@") with true. now rewrite (plain_visible h Hh).
  - rewrite forallb_append, He. cbn [Chars.forallb].
    change (negb (WhatwgURL.ends_authority "@")) with true.
    now rewrite (plain_inside_authority h Hh).
  - reflexivity.
  - apply split_userinfo_some, plain_no_at, Hh.
  - apply split_port_none, Hh.
Qed.

(** X14.  [Host] keeps the host name of what it is given and nothing else.
    With a URL parser that follows the URL Standard, a text of plain
    characters (above the space, none of [# / : ? @ [ \ ]]) that is accepted
    is accepted with the same payload when credentials (characters above the
    space, none of [/ ? # \]) and [@] come before it, and when [:] and the
    decimal text of an integer from 0 to 65535 come after it. *)
Theorem host_drops_credentials_and_port :
  forall (h : string) (f : Host),
    Chars.forallb plain_char h = true ->
    Host_new (P := reference) (Str h) = OK f ->
    (forall credentials : string,
        Chars.forallb visible credentials = true ->
        Chars.forallb (fun c => negb (WhatwgURL.ends_authority c)) credentials
          = true ->
        Host_new (P := reference) (Str (credentials ++ "@" ++ h)) = OK f)
    /\ (forall n : Z,
           0 <= n <= 65535 ->
           Host_new (P := reference) (Str (h ++ ":" ++ Js.Number_toString n))
           = OK f).
Proof.
  intros h f Hh Hf.
  assert (h <> "") as Hne.
  { intros ->. vm_compute in Hf. discriminate Hf. }
  rewrite (host_of_plain h Hne Hh) in Hf.
  destruct (Whatwg.parse_host h) as [host |] eqn:Hhost; [| discriminate Hf].
  apply OK_inj in Hf. subst f. split.
  - intros u Hv He. exact (host_with_credentials u h host Hh Hhost Hv He).
  - intros n Hn. destruct (parse_port_in_range n Hn) as [port Hport].
    assert (Chars.forallb plain_char (Js.Number_toString n) = true) as Hd.
    { rewrite Number_toString_nonneg by lia.
      destruct (decimal_value (Z.to_N n)) as [Hdig _].
      revert Hdig. apply forallb_impl. exact digit_plain. }
    unfold Host_new. cbn [unwrap String_of URL reference]. unfold WhatwgURL.URL.
    change ("http://" ++ (h ++ ":" ++ Js.Number_toString n) ++ "/")
      with ("http://" ++ (h ++ String ":" (Js.Number_toString n)) ++ String "/" "").
    rewrite (URL_of_authority (h ++ String ":" (Js.Number_toString n)) "" None
               (h ++ String ":" (Js.Number_toString n)) h
               (Some (Js.Number_toString n))).
    + destruct h as [| a h']; [contradiction |]. now rewrite Hhost, Hport.
    + destruct h; discriminate.
    + rewrite forallb_append, (plain_visible h Hh). cbn [Chars.forallb].
      change (visible ":") with true. now rewrite (plain_visible _ Hd).
    + rewrite forallb_append, (plain_inside_authority h Hh). cbn [Chars.forallb].
      change (negb (WhatwgURL.ends_authority ":")) with true.
      now rewrite (plain_inside_authority _ Hd).
    + reflexivity.
    + apply split_userinfo_none. rewrite forallb_append, (plain_no_at h Hh).
      cbn [Chars.forallb]. change (negb (Ascii.eqb ":" "@")) with true.
      now rewrite (plain_no_at _ Hd).
    + apply split_port_some, Hh.
Qed.

Lemma host_drops_credentials_and_port_witness :
  Host_new (P := reference) (Str "user:secret@example.com")
  = OK (mkField KHost "example.com")
  /\ Host_new (P := reference) (Str "example.com:8388")
     = OK (mkField KHost "example.com").
Proof.
  destruct (host_drops_credentials_and_port "example.com"
              (mkField KHost "example.com") eq_refl eq_refl) as [H1 H2].
  split.
  - apply (H1 "user:secret"); reflexivity.
  - apply (H2 8388). lia.
Defined.

(** ** Port 80 *)

(** A codec constructor validates the payloads of the [Config] it made
    again: an empty port payload stops it. *)
Lemma codec_new_empty_port {P : Platform} (config : UnsafeConfig) (c : Config)
  (host : Host) :
  Config_new config = OK c ->
  Config.port c = "" ->
  Host_new (Str (Config.host c)) = OK host ->
  LegacyBase64URI_new config = Throw (InvalidConfigField "Invalid port: ")
  /\ Sip002URI_new config = Throw (InvalidConfigField "Invalid port: ").
Proof.
  intros Hc Hp Hh.
  assert (ShadowsocksURI_new (Config.as_UnsafeConfig c)
          = Throw (InvalidConfigField "Invalid port: ")) as Hs.
  { unfold ShadowsocksURI_new, Config_new.
    cbn [Config.as_UnsafeConfig UnsafeConfig.host UnsafeConfig.port].
    rewrite Hh, Hp. reflexivity. }
  split.
  - unfold LegacyBase64URI_new. rewrite Hc. cbn [bind]. now rewrite Hs.
  - unfold Sip002URI_new. rewrite Hc. cbn [bind]. now rewrite Hs.
Qed.

(** X15.  Port 80 cannot be carried by a URI.  With a URL parser that
    follows the URL Standard, for every host of plain characters that the
    host parser maps to itself and every known method: a [Config] with port
    80 is made, with the empty port payload, but both codec constructors
    refuse the same record with ["Invalid port: "]; when the password has
    no [@], the legacy parser refuses the URI that holds the base64 text of
    [method:password@host:80]; and the SIP002 parser refuses every URI made
    of ["ss://"], user information (characters above the space, none of
    [/ ? # \]), [@host:80/] and any text; each with the same error. *)
Theorem port_80_has_no_uri :
  forall (h m pw tag plugin : string),
    Chars.forallb plain_char h = true ->
    Whatwg.parse_host h = Some h ->
    METHODS_has (VString m) = true ->
    let config :=
      UnsafeConfig.make (Str h) (Num 80) (Str m) (Str pw) (Str tag) (Str plugin) in
    Config_new (P := reference) config
    = OK (Config.make (mkField KHost h) (mkField KPort "") (mkField KMethod m)
                      (mkField KPassword pw) (mkField KTag tag))
    /\ LegacyBase64URI_new (P := reference) config
       = Throw (InvalidConfigField "Invalid port: ")
    /\ Sip002URI_new (P := reference) config
       = Throw (InvalidConfigField "Invalid port: ")
    /\ (Js.indexOf pw "@" = -1 ->
        LegacyBase64URI_parse (P := reference)
          ("ss://" ++ stripPadding (Base64.encode_loop
                                      (m ++ ":" ++ pw ++ "@" ++ h ++ ":" ++ "80")))
        = Throw (InvalidConfigField "Invalid port: "))
    /\ (forall userinfo tail : string,
           Chars.forallb visible userinfo = true ->
           Chars.forallb (fun c => negb (WhatwgURL.ends_authority c)) userinfo
             = true ->
           Sip002URI_parse (P := reference)
             ("ss://" ++ userinfo ++ "@" ++ h ++ ":" ++ "80" ++ "/" ++ tail)
           = Throw (InvalidConfigField "Invalid port: ")).
Proof.
  intros h m pw tag plugin Hplain Hhost Hm config.
  pose proof (Host_fixed (mkField KHost h) Hplain Hhost) as Hh. cbn [data] in Hh.
  assert (Config_new (P := reference) config
          = OK (Config.make (mkField KHost h) (mkField KPort "") (mkField KMethod m)
                            (mkField KPassword pw) (mkField KTag tag))) as Hc.
  { unfold Config_new, config.
    cbn [UnsafeConfig.host UnsafeConfig.port UnsafeConfig.method
         UnsafeConfig.password UnsafeConfig.tag].
    rewrite Hh. cbn [bind].
    change (Port_new (P := reference) (Num 80)) with (OK (mkField KPort "")).
    cbn [bind]. rewrite (Method_new_Str _ Hm). reflexivity. }
  destruct (codec_new_empty_port (P := reference) config _ (mkField KHost h) Hc
              eq_refl Hh) as [Hl Hs].
  split; [exact Hc | split; [exact Hl | split; [exact Hs | split]]].
  - intros Hpw.
    destruct (reference_b64_round_trip (m ++ ":" ++ pw ++ "@" ++ h ++ ":" ++ "80"))
      as (b64 & Henc & Hdec & Hhash).
    cbn [b64Encode reference] in Henc. unfold Base64.encode in Henc.
    apply Returns_inj in Henc. subst b64.
    rewrite <- (append_nil_r (stripPadding _)).
    change (stripPadding
              (Base64.encode_loop (m ++ ":" ++ pw ++ "@" ++ h ++ ":" ++ "80")) ++ "")
      with (stripPadding
              (Base64.encode_loop (m ++ ":" ++ pw ++ "@" ++ h ++ ":" ++ "80"))
              ++ with_fragment None).
    rewrite (legacy_parse_decoded (P := reference) _ None "" _ Hhash eq_refl Hdec).
    cbv zeta.
    destruct (legacy_fields m pw h "80" Hm Hpw (plain_no_colon h Hplain))
      as (F1 & F2 & F3 & F4 & F5 & F6 & F7).
    rewrite F1, F2, F3, F4, F5, F6, F7.
    rewrite (Method_new_Str _ Hm). cbn [bind]. rewrite Hh. cbn [bind].
    change (Port_new (P := reference) (OfArg (Str "80")))
      with (OK (mkField KPort "")).
    cbn [bind]. unfold LegacyBase64URI_new, Config_new at 1.
    cbn [UnsafeConfig.host UnsafeConfig.port].
    change (Host_new (P := reference) (Inst (mkField KHost h)))
      with (Host_new (P := reference) (Str h)).
    rewrite Hh. reflexivity.
  - intros userinfo tail Hv He.
    unfold Sip002URI_parse. rewrite validateProtocol_ss, sip002_input. cbn [bind].
    cbn [URL reference]. unfold WhatwgURL.URL.
    assert ("http://" ++ userinfo ++ "@" ++ h ++ ":" ++ "80" ++ "/" ++ tail
            = "http://" ++ (userinfo ++ String "@" (h ++ String ":" "80"))
                ++ String "/" tail) as ->
        by (repeat (cbn [append]; rewrite ?append_assoc); reflexivity).
    destruct (URL_of_authority_any (userinfo ++ String "@" (h ++ String ":" "80"))
                tail "/" (Some userinfo) (h ++ String ":" "80") h (Some "80"))
      as (hash & searchParams & ->).
    + destruct userinfo; discriminate.
    + rewrite forallb_append, Hv. cbn [Chars.forallb].
      change (visible "@") with true. cbn [andb].
      rewrite forallb_append, (plain_visible h Hplain). reflexivity.
    + rewrite forallb_append, He. cbn [Chars.forallb].
      change (negb (WhatwgURL.ends_authority "@")) with true. cbn [andb].
      rewrite forallb_append, (plain_inside_authority h Hplain). reflexivity.
    + reflexivity.
    + apply split_userinfo_some.
      rewrite forallb_append, (plain_no_at h Hplain). reflexivity.
    + now apply split_port_some.
    + destruct (parse_host_cons h Hhost) as (a & h' & Eh).
      rewrite Eh at 1. cbv iota. rewrite <- Eh, Hhost.
      change (WhatwgURL.parse_port "80") with (Some (@None N)). cbv iota.
      cbn [lift bind URLObject.hostname URLObject.port]. rewrite Hh. reflexivity.
Qed.

Lemma port_80_has_no_uri_witness :
  Sip002URI_new (P := reference)
    (UnsafeConfig.make (Str "example.com") (Num 80) (Str "aes-128-gcm")
                       (Str "test") (Str "") (Str ""))
  = Throw (InvalidConfigField "Invalid port: ")
  /\ Sip002URI_parse (P := reference)
       "ss://YWVzLTEyOC1nY206dGVzdA==@example.com:80/"
     = Throw (InvalidConfigField "Invalid port: ").
Proof.
  destruct (port_80_has_no_uri "example.com" "aes-128-gcm" "test" "" ""
              eq_refl eq_refl eq_refl) as (_ & _ & H1 & _ & H2).
  split; [exact H1 |].
  apply (H2 "YWVzLTEyOC1nY206dGVzdA==" ""); reflexivity.
Defined.

(** ** The two formats do not overlap *)

Lemma strip_end_padding_at (x y : string) :
  Base64.strip_end_padding (x ++ String "@" y)
  = x ++ String "@" (Base64.strip_end_padding y).
Proof.
  induction x as [| a x IH]; cbn [append Base64.strip_end_padding].
  - reflexivity.
  - assert (String.eqb (x ++ String "@" y) "" || String.eqb (x ++ String "@" y) "="
            = false) as ->.
    { destruct x as [| b x]; [reflexivity |]. cbn [append String.eqb orb].
      destruct x; cbn [append String.eqb]; apply andb_false_r. }
    rewrite andb_false_r. now rewrite IH.
Qed.

Lemma sextets_at (x y : string) : Base64.sextets (x ++ String "@" y) = None.
Proof.
  induction x as [| a x IH]; cbn [append Base64.sextets].
  - reflexivity.
  - rewrite IH. now destruct (Base64.TABLE_indexOf a).
Qed.

(** [b64Decode] of the reference platform refuses a text with an [@]. *)
Lemma decode_at (x y : string) :
  Base64.decode (x ++ String "@" y)
  = Throws "InvalidCharacterError"
      "Invalid character: the string to be decoded is not correctly encoded.".
Proof.
  unfold Base64.decode. rewrite filter_append. cbn [Chars.filter].
  change (negb (Base64.is_space "@")) with true. cbv iota.
  destruct (_ =? 0)%N.
  - now rewrite strip_end_padding_at, sextets_at.
  - now rewrite sextets_at.
Qed.

(** A text is cut at its first [#], if it has one. *)
Lemma first_hash (s : string) :
  exists (s1 : string) (fragment : option string),
    s = s1 ++ with_fragment fragment /\ Js.indexOf s1 "#" = -1.
Proof.
  induction s as [| a s (s1 & fragment & Hs & H1)].
  - exists "", None. split; reflexivity.
  - destruct (Ascii.eqb_spec a "#") as [-> | Hne].
    + exists "", (Some s). split; reflexivity.
    + exists (String a s1), fragment. split; [cbn [append]; now rewrite <- Hs |].
      apply (indexOf_absent_append "#" (String a "") s1); [| exact H1].
      unfold Js.indexOf. cbn [Js.indexOf_from].
      destruct (Ascii.eqb_spec a "#"); [contradiction | reflexivity].
Qed.

Lemma padding_no_hash (k : nat) : Js.indexOf (padding k) "#" = -1.
Proof.
  induction k as [| k IH]; [reflexivity |].
  apply (indexOf_absent_append "#" "=" (padding k)); [reflexivity | exact IH].
Qed.

Lemma encode_loop_no_hash (s : string) :
  Js.indexOf (Base64.encode_loop s) "#" = -1.
Proof.
  destruct (encode_loop_shape s) as (k & -> & _).
  destruct (b64_body_decodes s) as (Ht & _).
  apply indexOf_absent_append; [now apply in_TABLE_no_hash | apply padding_no_hash].
Qed.

(** The legacy parser of the reference platform on a URI with an [@] before
    its first [#]. *)
Lemma legacy_refuses_at (info rest : string) :
  Js.indexOf info "#" = -1 ->
  exists name message,
    LegacyBase64URI_parse (P := reference) ("ss://" ++ info ++ String "@" rest)
    = Throw (NativeError name message).
Proof.
  intros Hi. destruct (first_hash rest) as (s1 & fragment & -> & H1).
  assert (Js.indexOf (info ++ String "@" s1) "#" = -1) as Hb.
  { apply indexOf_absent_append; [exact Hi |].
    apply (indexOf_absent_append "#" "@" s1); [reflexivity | exact H1]. }
  assert ("ss://" ++ info ++ String "@" (s1 ++ with_fragment fragment)
          = "ss://" ++ (info ++ String "@" s1) ++ with_fragment fragment) as ->
      by (repeat (cbn [append]; rewrite ?append_assoc); reflexivity).
  unfold LegacyBase64URI_parse. rewrite validateProtocol_ss. cbn [bind].
  destruct (legacy_cut (info ++ String "@" s1) fragment Hb) as [C1 C2].
  destruct (Js.indexOf _ "#" =? -1)%Z; rewrite C2;
    (destruct (decodeURIComponent (fragment_text fragment)) as [t | name message];
     cbn [lift bind]; [| eauto]);
    rewrite C1; cbn [b64Decode reference]; rewrite decode_at; cbn [lift bind];
    eauto.
Qed.

(** X16.  On the reference platform a string with an [@] between ["ss://"]
    and its first [#] is never read as a legacy URI: the legacy parser
    throws an error of the platform ([b64Decode] refuses the [@]), and the
    dispatcher returns what the SIP002 parser makes of the string.  This is
    so for every URI the SIP002 serializer writes. *)
Theorem at_sign_selects_sip002 :
  (forall (info rest : string),
      Js.indexOf info "#" = -1 ->
      let uri := "ss://" ++ info ++ "@" ++ rest in
      (exists name message,
          LegacyBase64URI_parse (P := reference) uri
          = Throw (NativeError name message))
      /\ (forall u, Sip002URI_parse (P := reference) uri = OK u ->
                    ShadowsocksURI_parse (P := reference) uri = OK (Sip002 u)))
  /\ (forall (config : UnsafeConfig) (u : Sip002URI) (uri : string),
         Sip002URI_new (P := reference) config = OK u ->
         Sip002URI_toString (P := reference) u = OK uri ->
         exists rest,
           uri = "ss://" ++ Sip002URI.b64EncodedUserInfo u ++ "@" ++ rest
           /\ Js.indexOf (Sip002URI.b64EncodedUserInfo u) "#" = -1).
Proof.
  split.
  - intros info rest Hi uri. subst uri.
    destruct (legacy_refuses_at info rest Hi) as (name & message & Hl).
    change ("@" ++ rest) with (String "@" rest).
    split; [eauto |]. intros u Hu.
    unfold ShadowsocksURI_parse, parse_with, parse_for, UriType_parse.
    rewrite Hl, Hu. reflexivity.
  - intros config u uri Hnew Hstr.
    destruct (Sip002URI_new_OK _ _ Hnew) as (Henc & _ & _).
    cbn [b64Encode reference] in Henc. unfold Base64.encode in Henc.
    apply Returns_inj in Henc.
    unfold Sip002URI_toString in Hstr. apply bind_OK in Hstr.
    destruct Hstr as (hash & _ & Hstr). apply OK_inj in Hstr.
    eexists. split; [symmetry; exact Hstr |].
    rewrite <- Henc. apply encode_loop_no_hash.
Qed.

Lemma at_sign_selects_sip002_witness :
  exists u,
    ShadowsocksURI_parse (P := reference)
      "ss://YWVzLTEyOC1nY206dGVzdA==@192.168.100.1:8888/#Foo%20Bar"
    = OK (Sip002 u).
Proof.
  let r := eval vm_compute in
    (Sip002URI_parse (P := reference)
       "ss://YWVzLTEyOC1nY206dGVzdA==@192.168.100.1:8888/#Foo%20Bar") in
  match r with OK ?u => exists u end.
  apply (proj2 (proj1 at_sign_selects_sip002 "YWVzLTEyOC1nY206dGVzdA=="
                  "192.168.100.1:8888/#Foo%20Bar" eq_refl)).
  vm_compute. reflexivity.
Defined.



(** ** The legacy parser and the decoded text *)

Lemma legacy_parse_tag_error {P : Platform} (b64 : string)
  (fragment : option string) (name message : string) :
  Js.indexOf b64 "#" = -1 ->
  decodeURIComponent (fragment_text fragment) = Throws name message ->
  LegacyBase64URI_parse ("ss://" ++ b64 ++ with_fragment fragment)
  = Throw (NativeError name message).
Proof.
  intros Hb Ht. unfold LegacyBase64URI_parse.
  rewrite validateProtocol_ss. cbn [bind].
  destruct (legacy_cut b64 fragment Hb) as [C1 C2].
  destruct (Js.indexOf _ "#" =? -1)%Z; rewrite C2, Ht; reflexivity.
Qed.

(** X18.  Padding is optional for the legacy parser.  On the reference
    platform, for every text and every fragment, the parser gives the same
    result, or throws the same error, on the base64 text of the text with
    its [=] padding as on that base64 text with the padding removed, which
    is the form the serializer writes. *)
Theorem legacy_padding_optional :
  forall (text : string) (fragment : option string),
    LegacyBase64URI_parse (P := reference)
      ("ss://" ++ Base64.encode_loop text ++ with_fragment fragment)
    = LegacyBase64URI_parse (P := reference)
        ("ss://" ++ stripPadding (Base64.encode_loop text) ++ with_fragment fragment).
Proof.
  intros text fragment.
  destruct (reference_b64_round_trip text) as (b64 & Henc & Hdec & Hhash).
  cbn [b64Encode reference] in Henc. unfold Base64.encode in Henc.
  apply Returns_inj in Henc. subst b64.
  pose proof (encode_loop_no_hash text) as Hhash'.
  destruct (decodeURIComponent (Platform := reference) (fragment_text fragment))
    as [t | name message] eqn:Ht.
  - rewrite (legacy_parse_decoded (P := reference) _ fragment t text Hhash' Ht
               (reference_b64_padded text)).
    now rewrite (legacy_parse_decoded (P := reference) _ fragment t text Hhash Ht Hdec).
  - rewrite (legacy_parse_tag_error (P := reference) _ fragment _ _ Hhash' Ht).
    now rewrite (legacy_parse_tag_error (P := reference) _ fragment _ _ Hhash Ht).
Qed.

(** ** A password with an [@] *)

(** The fragment the serializers write for a tag, as a fragment the parsers
    read. *)
Lemma tag_as_fragment (tag : string) :
  exists fragment,
    tagFragment (P := reference) tag = OK (with_fragment fragment)
    /\ decodeURIComponent (Platform := reference) (fragment_text fragment)
       = Returns tag.
Proof.
  unfold tagFragment. destruct (String.eqb_spec tag "") as [-> | Hne].
  - exists None. split; reflexivity.
  - destruct (reference_percent_round_trip tag) as (e & He & Hd).
    exists (Some e). rewrite He. split; [reflexivity | exact Hd].
Qed.

(** X19.  The legacy codec loses what follows the first [@] of a password.
    On the reference platform, for a plain host that the host parser maps to
    itself, a port in [0, 65535] other than 80 and a known method: when the
    password is [kept], an [@] and [lost], where [kept] has no [@] and [lost]
    is made of plain characters, the URI of the configuration parses, without
    an error, to the object of the configuration whose password is [kept]:
    the URL parser reads [lost] as credentials before the host. *)
Theorem legacy_password_cut_at_first_at :
  forall (h : string) (n : Z) (m kept lost tag : string),
    Chars.forallb plain_char h = true ->
    Whatwg.parse_host h = Some h ->
    0 <= n <= 65535 -> n <> 80 ->
    METHODS_has (VString m) = true ->
    Js.indexOf kept "@" = -1 ->
    Chars.forallb plain_char lost = true ->
    exists u uri u',
      LegacyBase64URI_new (P := reference)
        (UnsafeConfig.make (Str h) (Num n) (Str m) (Str (kept ++ "@" ++ lost))
                           (Str tag) Undefined) = OK u
      /\ Config.password (LegacyBase64URI.super u) = kept ++ "@" ++ lost
      /\ LegacyBase64URI_toString (P := reference) u = OK uri
      /\ LegacyBase64URI_parse (P := reference) uri = OK u'
      /\ LegacyBase64URI_new (P := reference)
           (UnsafeConfig.make (Str h) (Num n) (Str m) (Str kept) (Str tag)
                              Undefined) = OK u'
      /\ Config.password (LegacyBase64URI.super u') = kept.
Proof.
  intros h n m kept lost tag Hplain Hhost Hn Hne Hm Hkept Hlost.
  set (p := Js.Number_toString n).
  destruct (Config_new_plain h n m (Str (kept ++ "@" ++ lost)) (Str tag) Undefined
              Hplain Hhost Hn Hne Hm) as [Hc1 Hc2].
  destruct (Config_new_plain h n m (Str kept) (Str tag) Undefined
              Hplain Hhost Hn Hne Hm) as [Hk1 Hk2].
  cbv zeta in Hc1, Hc2, Hk1, Hk2. fold p in Hc1, Hc2, Hk1, Hk2.
  set (c := Config.make (mkField KHost h) (mkField KPort p) (mkField KMethod m)
              (Password_new (Str (kept ++ "@" ++ lost))) (Tag_new (Str tag)))
    in *.
  set (c' := Config.make (mkField KHost h) (mkField KPort p) (mkField KMethod m)
               (Password_new (Str kept)) (Tag_new (Str tag))) in *.
  set (d := m ++ ":" ++ (kept ++ "@" ++ lost) ++ "@" ++ h ++ ":" ++ p).
  set (d' := m ++ ":" ++ kept ++ "@" ++ h ++ ":" ++ p).
  set (u := LegacyBase64URI.make c (stripPadding (Base64.encode_loop d))).
  set (u' := LegacyBase64URI.make c' (stripPadding (Base64.encode_loop d'))).
  destruct (tag_as_fragment tag) as (fragment & Hf & Ht).
  exists u, ("ss://" ++ LegacyBase64URI.b64EncodedData u ++ with_fragment fragment), u'.
  assert (LegacyBase64URI_new (P := reference)
            (Config.as_UnsafeConfig c') = OK u') as Hagain.
  { unfold LegacyBase64URI_new, ShadowsocksURI_new.
    rewrite Hk2. cbn [bind]. rewrite Hk2. cbn [bind]. rewrite Hk2. reflexivity. }
  split; [| split; [reflexivity | split; [| split; [| split; [| reflexivity]]]]].
  - unfold LegacyBase64URI_new, ShadowsocksURI_new.
    rewrite Hc1. cbn [bind]. rewrite Hc2. cbn [bind]. rewrite Hc2. reflexivity.
  - unfold LegacyBase64URI_toString.
    rewrite (getHash_tag _ tag) by reflexivity. now rewrite Hf.
  - destruct (reference_b64_round_trip d) as (b64 & Henc & Hdec & Hhash).
    cbn [b64Encode reference] in Henc. unfold Base64.encode in Henc.
    apply Returns_inj in Henc. subst b64.
    cbn [LegacyBase64URI.b64EncodedData u].
    rewrite (legacy_parse_decoded (P := reference) _ fragment tag d Hhash Ht Hdec).
    cbv zeta.
    destruct (METHODS_no_separator m Hm) as [Hm2 Hm1].
    assert (d = m ++ ":" ++ kept ++ "@" ++ (lost ++ "@" ++ h) ++ ":" ++ p) as Hd
        by (unfold d; repeat (cbn [append]; rewrite ?append_assoc); reflexivity).
    rewrite Hd.
    destruct (decoded_cut m kept ((lost ++ "@" ++ h) ++ ":" ++ p) Hm1 Hm2 Hkept)
      as (F1 & F2 & F3 & F4 & F5).
    rewrite F1, F2, F3, F4, F5.
    assert (Js.indexOf (lost ++ "@" ++ h) ":" = -1) as Hcolon.
    { apply indexOf_absent_append; [now apply plain_no_colon |].
      apply (indexOf_absent_append ":" "@" h); [reflexivity |].
      now apply plain_no_colon. }
    destruct (split_at_first ":" (lost ++ "@" ++ h) p Hcolon) as (G1 & G2 & G3).
    change (":" ++ p) with (String ":" p).
    rewrite G1, Js_length_nonneg, G2, G3.
    rewrite (Method_new_Str _ Hm). cbn [bind].
    rewrite (host_with_credentials lost h h Hplain Hhost (plain_visible _ Hlost)
               (plain_inside_authority _ Hlost)).
    cbn [bind].
    assert (Port_new (P := reference) (OfArg (Str p)) = OK (mkField KPort p)) as Hp.
    { apply (Port_fixed (mkField KPort p) (Z.to_N n)); [| lia | lia].
      cbn [data]. apply Number_toString_nonneg. lia. }
    rewrite Hp. cbn [bind]. exact Hagain.
  - unfold LegacyBase64URI_new, ShadowsocksURI_new.
    rewrite Hk1. cbn [bind]. rewrite Hk2. cbn [bind]. rewrite Hk2. reflexivity.
Qed.

Lemma legacy_password_cut_at_first_at_witness :
  exists u uri u',
    LegacyBase64URI_new (P := reference)
      (UnsafeConfig.make (Str "192.168.100.1") (Num 8888) (Str "chacha20")
                         (Str ("P" ++ "@" ++ "$$W0RD!")) (Str "") Undefined) = OK u
    /\ LegacyBase64URI_toString (P := reference) u = OK uri
    /\ LegacyBase64URI_parse (P := reference) uri = OK u'
    /\ Config.password (LegacyBase64URI.super u') = "P".
Proof.
  destruct (legacy_password_cut_at_first_at "192.168.100.1" 8888 "chacha20" "P"
              "$$W0RD!" "" eq_refl eq_refl ltac:(lia) ltac:(lia) eq_refl eq_refl
              eq_refl) as (u & uri & u' & H1 & _ & H2 & H3 & _ & H4).
  exists u, uri, u'. repeat split; assumption.
Defined.

(** ** Setters and serialization *)

Lemma Sip002URI_toString_spec {P : Platform} (u : Sip002URI) :
  Sip002URI_toString u
  = (fragment <- tagFragment (Config.tag (Sip002URI.super u)) ;;
     OK ("ss://" ++ Sip002URI.b64EncodedUserInfo u ++ "@"
           ++ Config.host (Sip002URI.super u) ++ ":"
           ++ Config.port (Sip002URI.super u) ++ "/"
           ++ pluginQuery (Sip002URI.plugin u) ++ fragment)).
Proof.
  unfold Sip002URI_toString, pluginQuery.
  rewrite (getHash_tag _ (Config.tag (Sip002URI.super u))) by reflexivity.
  simpl truthy. destruct (String.eqb (Sip002URI.plugin u) ""); reflexivity.
Qed.

(** X20.  The base64 text of a codec object is computed once, by its
    constructor, and the serializers write that text.  So, on any platform,
    a legacy object serializes to the same URI after its host, port, method
    or password has been set to another value, and a SIP002 object
    serializes to the same URI after its method or password has been set.
    What the serializers read at the time of the call is written as it
    then is: the tag, by both; the host, the port and the plugin, by the
    SIP002 serializer.  After one of these is set, the URI is the old base64
    text with the new value in its place. *)
Theorem setters_and_serialization :
  forall (P : Platform),
    (forall (u : LegacyBase64URI) (c : Config),
        (forall host, Config_set_host (LegacyBase64URI.super u) host = OK c ->
           LegacyBase64URI_toString (LegacyBase64URI_set u c)
           = LegacyBase64URI_toString u)
        /\ (forall port, Config_set_port (LegacyBase64URI.super u) port = OK c ->
              LegacyBase64URI_toString (LegacyBase64URI_set u c)
              = LegacyBase64URI_toString u)
        /\ (forall method,
               Config_set_method (LegacyBase64URI.super u) method = OK c ->
               LegacyBase64URI_toString (LegacyBase64URI_set u c)
               = LegacyBase64URI_toString u)
        /\ (forall password,
               LegacyBase64URI_toString
                 (LegacyBase64URI_set u
                    (Config_set_password (LegacyBase64URI.super u) password))
               = LegacyBase64URI_toString u)
        /\ (forall tag,
               LegacyBase64URI_toString
                 (LegacyBase64URI_set u
                    (Config_set_tag (LegacyBase64URI.super u) tag))
               = (fragment <- tagFragment (or_empty (unwrap tag)) ;;
                  OK ("ss://" ++ LegacyBase64URI.b64EncodedData u ++ fragment))))
    /\ (forall (u : Sip002URI) (c : Config),
           let this := Sip002URI.super u in
           (forall method,
               Config_set_method this method = OK c ->
               Sip002URI_toString (Sip002URI_set u c) = Sip002URI_toString u)
           /\ (forall password,
                  Sip002URI_toString
                    (Sip002URI_set u (Config_set_password this password))
                  = Sip002URI_toString u)
           /\ (forall host,
                  Config_set_host this host = OK c ->
                  Sip002URI_toString (Sip002URI_set u c)
                  = (fragment <- tagFragment (Config.tag this) ;;
                     OK ("ss://" ++ Sip002URI.b64EncodedUserInfo u ++ "@"
                           ++ Config.host c ++ ":" ++ Config.port this ++ "/"
                           ++ pluginQuery (Sip002URI.plugin u) ++ fragment)))
           /\ (forall port,
                  Config_set_port this port = OK c ->
                  Sip002URI_toString (Sip002URI_set u c)
                  = (fragment <- tagFragment (Config.tag this) ;;
                     OK ("ss://" ++ Sip002URI.b64EncodedUserInfo u ++ "@"
                           ++ Config.host this ++ ":" ++ Config.port c ++ "/"
                           ++ pluginQuery (Sip002URI.plugin u) ++ fragment)))
           /\ (forall tag,
                  Sip002URI_toString (Sip002URI_set u (Config_set_tag this tag))
                  = (fragment <- tagFragment (or_empty (unwrap tag)) ;;
                     OK ("ss://" ++ Sip002URI.b64EncodedUserInfo u ++ "@"
                           ++ Config.host this ++ ":" ++ Config.port this ++ "/"
                           ++ pluginQuery (Sip002URI.plugin u) ++ fragment)))
           /\ (forall plugin,
                  Sip002URI_toString (Sip002URI_set_plugin u plugin)
                  = (fragment <- tagFragment (Config.tag this) ;;
                     OK ("ss://" ++ Sip002URI.b64EncodedUserInfo u ++ "@"
                           ++ Config.host this ++ ":" ++ Config.port this ++ "/"
                           ++ pluginQuery (or_empty (unwrap plugin)) ++ fragment)))).
Proof.
  intros P. split.
  - intros u c. split; [| split; [| split; [| split]]].
    + intros host H. unfold Config_set_host in H. bind_inv H.
      apply OK_inj in H. subst c. reflexivity.
    + intros port H. unfold Config_set_port in H. bind_inv H.
      apply OK_inj in H. subst c. reflexivity.
    + intros method H. unfold Config_set_method in H. bind_inv H.
      apply OK_inj in H. subst c. reflexivity.
    + intros password. reflexivity.
    + intros tag. unfold LegacyBase64URI_toString.
      now rewrite (getHash_tag _ (or_empty (unwrap tag))).
  - intros u c this. split; [| split; [| split; [| split; [| split]]]].
    + intros method H. unfold Config_set_method in H. bind_inv H.
      apply OK_inj in H. subst c. reflexivity.
    + intros password. reflexivity.
    + intros host H. unfold Config_set_host in H. bind_inv H.
      apply OK_inj in H. subst c. now rewrite Sip002URI_toString_spec.
    + intros port H. unfold Config_set_port in H. bind_inv H.
      apply OK_inj in H. subst c. now rewrite Sip002URI_toString_spec.
    + intros tag. now rewrite Sip002URI_toString_spec.
    + intros plugin. now rewrite Sip002URI_toString_spec.
Qed.

Lemma setters_and_serialization_witness :
  exists u c,
    LegacyBase64URI_new (P := reference) (literal "192.168.100.1" "bf-cfb") = OK u
    /\ Config_set_host (P := reference) (LegacyBase64URI.super u)
         (Str "example.com") = OK c
    /\ Config.host c = "example.com"
    /\ LegacyBase64URI_toString (P := reference) (LegacyBase64URI_set u c)
       = OK "ss://YmYtY2ZiOnRlc3RAMTkyLjE2OC4xMDAuMTo4ODg4#Foo%20Bar".
Proof.
  let r := eval vm_compute in
    (LegacyBase64URI_new (P := reference) (literal "192.168.100.1" "bf-cfb")) in
  match r with OK ?u => exists u end.
  eexists. split; [vm_compute; reflexivity |].
  split; [vm_compute; reflexivity | split; [reflexivity |]].
  rewrite (proj1 (proj1 (setters_and_serialization reference) _ _)
             (Str "example.com")) by (vm_compute; reflexivity).
  vm_compute. reflexivity.
Defined.

(** ** The legacy parser and IPv6 hosts *)

Lemma split_port_inside (x : string) :
  Chars.forallb plain_char x = true -> WhatwgURL.split_port x true = (x, None).
Proof.
  induction x as [| a x IH]; simpl; intros H; [reflexivity |].
  apply andb_prop in H. destruct H as [Ha Hx].
  destruct (plain_char_spec a Ha) as (_ & _ & _ & _ & -> & ->).
  rewrite andb_false_r. now rewrite (IH Hx).
Qed.

Lemma last_char_plain (a : ascii) (x : string) :
  a <> "]"%char -> Chars.forallb plain_char x = true ->
  exists c, Whatwg.last_char (String a x) = Some c /\ c <> "]"%char.
Proof.
  revert a; induction x as [| b x IH]; intros a Ha Hx.
  - exists a. split; [reflexivity | exact Ha].
  - cbn [Chars.forallb] in Hx. apply andb_prop in Hx. destruct Hx as [Hb Hx].
    destruct (plain_char_spec b Hb) as (_ & _ & _ & _ & _ & Hb').
    apply (IH b); [| exact Hx].
    intros ->. discriminate Hb'.
Qed.

(** An opening bracket that is not closed is no host. *)
Lemma host_open_bracket (x : string) :
  Chars.forallb plain_char x = true ->
  Host_new (P := reference) (Str ("[" ++ x))
  = Throw (InvalidConfigField ("Invalid host: [" ++ x)).
Proof.
  intros Hx. unfold Host_new, throwErrorForInvalidField.
  cbn [unwrap String_of URL reference]. unfold WhatwgURL.URL.
  change ("http://" ++ ("[" ++ x) ++ "/")
    with ("http://" ++ String "[" x ++ String "/" "").
  rewrite (URL_of_authority (String "[" x) "" None (String "[" x) (String "[" x) None).
  - assert (Whatwg.parse_host (String "[" x) = None) as ->; [| reflexivity].
    unfold Whatwg.parse_host.
    destruct (last_char_plain "[" x ltac:(discriminate) Hx) as (c & -> & Hc).
    destruct c as [[] [] [] [] [] [] [] []]; try reflexivity.
    now destruct Hc.
  - discriminate.
  - cbn [Chars.forallb]. change (visible "[") with true.
    now rewrite (plain_visible x Hx).
  - cbn [Chars.forallb]. change (negb (WhatwgURL.ends_authority "[")) with true.
    now rewrite (plain_inside_authority x Hx).
  - reflexivity.
  - apply (split_userinfo_none (String "[" x)). cbn [Chars.forallb].
    change (negb (Ascii.eqb "[" "@")) with true. now rewrite (plain_no_at x Hx).
  - cbn [WhatwgURL.split_port]. change (Ascii.eqb "[" ":" && negb false) with false.
    cbv iota. change (Ascii.eqb "[" "[") with true. cbv iota.
    now rewrite (split_port_inside x Hx).
Qed.

(** X21.  The legacy parser cuts the host at the first [:] of what follows
    the [@], so it cannot read an IPv6 host back.  On the reference
    platform, for every legacy object whose host payload is an opening
    bracket, plain characters and a [:] followed by anything, as every IPv6
    literal in brackets is, and whose password has no [@]: parsing the URI
    the object serializes to throws an [InvalidConfigField] for the host cut
    short. *)
Theorem legacy_parser_refuses_ipv6 :
  forall (config : UnsafeConfig) (u : LegacyBase64URI) (uri x y : string),
    LegacyBase64URI_new (P := reference) config = OK u ->
    LegacyBase64URI_toString (P := reference) u = OK uri ->
    Config.host (LegacyBase64URI.super u) = "[" ++ x ++ ":" ++ y ->
    Chars.forallb plain_char x = true ->
    Js.indexOf (Config.password (LegacyBase64URI.super u)) "@" = -1 ->
    LegacyBase64URI_parse (P := reference) uri
    = Throw (InvalidConfigField ("Invalid host: [" ++ x)).
Proof.
  intros config u uri x y Hnew Hstr Hhost Hx Hpw.
  destruct (LegacyBase64URI_new_OK _ _ Hnew) as (b64 & Henc & Hdata & Hm).
  set (c := LegacyBase64URI.super u) in *.
  destruct (reference_b64_round_trip
              (Config.method c ++ ":" ++ Config.password c ++ "@"
                 ++ Config.host c ++ ":" ++ Config.port c))
    as (b64' & Henc' & Hdec & Hhash).
  rewrite Henc in Henc'. apply Returns_inj in Henc'. subst b64'.
  rewrite <- Hdata in Hdec, Hhash.
  unfold LegacyBase64URI_toString in Hstr.
  rewrite (getHash_tag _ (Config.tag c)) in Hstr by reflexivity.
  destruct (tag_as_fragment (Config.tag c)) as (fragment & Hf & Ht).
  rewrite Hf in Hstr. cbn [bind] in Hstr. apply OK_inj in Hstr. subst uri.
  rewrite (legacy_parse_decoded (P := reference) _ fragment _ _ Hhash Ht Hdec).
  cbv zeta. destruct (METHODS_no_separator _ Hm) as [Hm2 Hm1].
  destruct (decoded_cut (Config.method c) (Config.password c)
              (Config.host c ++ ":" ++ Config.port c) Hm1 Hm2 Hpw)
    as (F1 & F2 & F3 & F4 & F5).
  rewrite F1, F2, F3, F4, F5. rewrite (Method_new_Str _ Hm). cbn [bind].
  rewrite Hhost.
  assert (("[" ++ x ++ ":" ++ y) ++ ":" ++ Config.port c
          = ("[" ++ x) ++ String ":" (y ++ ":" ++ Config.port c)) as ->
      by (repeat (cbn [append]; rewrite ?append_assoc); reflexivity).
  assert (Js.indexOf ("[" ++ x) ":" = -1) as Hcolon.
  { apply (indexOf_absent_append ":" "[" x); [reflexivity |].
    now apply plain_no_colon. }
  destruct (split_at_first ":" ("[" ++ x) (y ++ ":" ++ Config.port c) Hcolon)
    as (G1 & G2 & _).
  rewrite G1, Js_length_nonneg, G2. now rewrite (host_open_bracket x Hx).
Qed.

Lemma legacy_parser_refuses_ipv6_witness :
  exists u uri,
    LegacyBase64URI_new (P := reference)
      (literal "[2001:0:ce49:7601:e866:efff:62c3:fffe]" "aes-128-gcm") = OK u
    /\ LegacyBase64URI_toString (P := reference) u = OK uri
    /\ LegacyBase64URI_parse (P := reference) uri
       = Throw (InvalidConfigField "Invalid host: [2001").
Proof.
  pose (config := literal "[2001:0:ce49:7601:e866:efff:62c3:fffe]" "aes-128-gcm").
  let r := eval vm_compute in (LegacyBase64URI_new (P := reference) config) in
  match r with
  | OK ?u =>
      let s := eval vm_compute in (LegacyBase64URI_toString (P := reference) u) in
      match s with
      | OK ?uri =>
          exists u, uri;
          split; [vm_compute; reflexivity | split; [vm_compute; reflexivity |]];
          apply (legacy_parser_refuses_ipv6 config u uri "2001"
                   "0:ce49:7601:e866:efff:62c3:fffe]");
          vm_compute; reflexivity
      end
  end.
Defined.

(** ** Host names on the reference platform *)

Lemma name_char_spec (c : ascii) :
  name_char c = true ->
  plain_char c = true
  /\ query_char c = true
  /\ Ascii.eqb c "[" = false
  /\ Whatwg.forbidden_domain_code_point (Chars.to_lower c) = false.
Proof.
  destruct c as [[] [] [] [] [] [] [] []]; vm_compute; intros H;
    try discriminate H; repeat split.
Qed.

Lemma parse_host_of_domain (a : ascii) (r : string) :
  Ascii.eqb a "[" = false ->
  Whatwg.parse_host (String a r)
  = match Whatwg.domain_to_ascii (Whatwg.percent_decode_string (String a r)) with
    | None => None
    | Some asciiDomain =>
        if negb (Chars.forallb
                   (fun c => negb (Whatwg.forbidden_domain_code_point c))
                   asciiDomain)
        then None
        else if Whatwg.ends_in_a_number asciiDomain
        then option_map Whatwg.serialize_ipv4 (Whatwg.parse_ipv4 asciiDomain)
        else Some asciiDomain
    end.
Proof.
  destruct a as [[] [] [] [] [] [] [] []]; intros H; try discriminate H;
    reflexivity.
Qed.

Lemma forallb_map (f : ascii -> bool) (g : ascii -> ascii) (s : string) :
  Chars.forallb f (Chars.map g s) = Chars.forallb (fun c => f (g c)) s.
Proof.
  induction s as [| a s IH]; simpl; [reflexivity | now rewrite IH].
Qed.

(** The host parser on a non-empty text of name characters without an
    [xn--] label. *)
Lemma parse_host_of_name (h : string) :
  h <> "" ->
  Chars.forallb name_char h = true ->
  existsb Whatwg.starts_xn (Chars.split "." h) = false ->
  Chars.forallb plain_char h = true
  /\ Whatwg.parse_host h
     = if Whatwg.ends_in_a_number (Chars.map Chars.to_lower h)
       then option_map Whatwg.serialize_ipv4
              (Whatwg.parse_ipv4 (Chars.map Chars.to_lower h))
       else Some (Chars.map Chars.to_lower h).
Proof.
  intros Hne Hname Hxn.
  assert (Chars.forallb plain_char h = true) as Hplain.
  { revert Hname. apply forallb_impl. intros c Hc.
    now destruct (name_char_spec c Hc). }
  assert (Chars.forallb query_char h = true) as Hquery.
  { revert Hname. apply forallb_impl. intros c Hc.
    now destruct (name_char_spec c Hc) as (_ & ? & _). }
  split; [exact Hplain |].
  destruct h as [| a r]; [contradiction |].
  rewrite parse_host_of_domain.
  2:{ cbn [Chars.forallb] in Hname. apply andb_prop in Hname.
      destruct Hname as [Ha _]. now destruct (name_char_spec a Ha) as (_ & _ & ? & _). }
  assert (Whatwg.percent_decode_string (String a r) = String a r) as ->.
  { unfold Whatwg.percent_decode_string.
    rewrite (percent_decode_plain _ _ Hquery) by lia.
    now apply utf8_decode_ascii. }
  unfold Whatwg.domain_to_ascii. rewrite Hxn.
  assert (Chars.forallb (fun c => (Chars.code c <? 128)%N) (String a r) = true) as ->.
  { revert Hquery. apply forallb_impl. intros c Hc.
    now destruct (query_char_spec c Hc) as (_ & _ & _ & _ & _ & _ & ?). }
  cbn [negb andb String.eqb].
  rewrite forallb_map.
  assert (Chars.forallb
            (fun c => negb (Whatwg.forbidden_domain_code_point (Chars.to_lower c)))
            (String a r) = true) as ->.
  { revert Hname. apply forallb_impl. intros c Hc.
    destruct (name_char_spec c Hc) as (_ & _ & _ & ->). reflexivity. }
  reflexivity.
Qed.

Lemma to_lower_spec (c : ascii) :
  Chars.to_lower (Chars.to_lower c) = Chars.to_lower c
  /\ Ascii.eqb (Chars.to_lower c) "." = Ascii.eqb c "."
  /\ (name_char c = true -> name_char (Chars.to_lower c) = true).
Proof.
  destruct c as [[] [] [] [] [] [] [] []]; vm_compute; repeat split;
    intros H; discriminate H.
Qed.

Lemma map_lower_twice (s : string) :
  Chars.map Chars.to_lower (Chars.map Chars.to_lower s) = Chars.map Chars.to_lower s.
Proof.
  induction s as [| a s IH]; cbn [Chars.map]; [reflexivity |].
  destruct (to_lower_spec a) as (-> & _). now rewrite IH.
Qed.

Lemma split_lower (s : string) :
  Chars.split "." (Chars.map Chars.to_lower s)
  = List.map (Chars.map Chars.to_lower) (Chars.split "." s).
Proof.
  induction s as [| a s IH]; cbn [Chars.map Chars.split]; [reflexivity |].
  destruct (to_lower_spec a) as (_ & -> & _). rewrite IH.
  destruct (Ascii.eqb a "."); [reflexivity |].
  destruct (Chars.split "." s); reflexivity.
Qed.

Lemma starts_xn_lower (labels : list string) :
  existsb Whatwg.starts_xn (List.map (Chars.map Chars.to_lower) labels)
  = existsb Whatwg.starts_xn labels.
Proof.
  induction labels as [| l labels IH]; cbn [List.map existsb]; [reflexivity |].
  rewrite IH. unfold Whatwg.starts_xn. now rewrite map_lower_twice.
Qed.

(** X22.  [Host] checks a name no further than the URL parser does.  With a
    URL parser that follows the URL Standard, every non-empty text made of
    letters, digits and the characters [! $ ( ) * , - . ; = _ ` { } ~] is
    accepted, with its lower-case form as payload, unless a label starts
    with [xn--] or the last label is a number: a leading hyphen, empty
    labels and labels of any length pass.  The payload validates to the
    same instance again. *)
Theorem host_accepts_names :
  forall h : string,
    h <> "" ->
    Chars.forallb name_char h = true ->
    existsb Whatwg.starts_xn (Chars.split "." h) = false ->
    Whatwg.ends_in_a_number (Chars.map Chars.to_lower h) = false ->
    let f := mkField KHost (Chars.map Chars.to_lower h) in
    Host_new (P := reference) (Str h) = OK f
    /\ Host_new (P := reference) (Str (data f)) = OK f.
Proof.
  assert (forall h : string,
             h <> "" ->
             Chars.forallb name_char h = true ->
             existsb Whatwg.starts_xn (Chars.split "." h) = false ->
             Whatwg.ends_in_a_number (Chars.map Chars.to_lower h) = false ->
             Host_new (P := reference) (Str h)
             = OK (mkField KHost (Chars.map Chars.to_lower h))) as Hgen.
  { intros h Hne Hname Hxn Hnum.
    destruct (parse_host_of_name h Hne Hname Hxn) as [Hplain Hhost].
    rewrite (host_of_plain h Hne Hplain), Hhost, Hnum. reflexivity. }
  intros h Hne Hname Hxn Hnum f. split; [now apply Hgen |].
  subst f. cbn [data].
  rewrite <- (map_lower_twice h) at 2. apply Hgen.
  - destruct h; [contradiction | discriminate].
  - rewrite forallb_map. revert Hname. apply forallb_impl. intros c Hc.
    now apply to_lower_spec.
  - now rewrite split_lower, starts_xn_lower.
  - now rewrite map_lower_twice.
Qed.

Lemma host_accepts_names_witness :
  Host_new (P := reference) (Str "-pwned") = OK (mkField KHost "-pwned")
  /\ Host_new (P := reference) (Str "Example..COM")
     = OK (mkField KHost "example..com")
  /\ Host_new (P := reference) (Str ";echo") = OK (mkField KHost ";echo").
Proof.
  split; [| split].
  - apply (host_accepts_names "-pwned"); [discriminate | reflexivity ..].
  - apply (host_accepts_names "Example..COM"); [discriminate | reflexivity ..].
  - apply (host_accepts_names ";echo"); [discriminate | reflexivity ..].
Defined.

(** ** IPv4 addresses on the reference platform *)

(** An integer up to 255 is the code of a character: what holds of the 256
    characters holds of it. *)
Lemma octet_ind (Q : N -> Prop) :
  (forall c : ascii, Q (N_of_ascii c)) -> forall n : N, (n <= 255)%N -> Q n.
Proof.
  intros H n Hn. rewrite <- (N_ascii_embedding n) by lia. apply H.
Qed.

Lemma octet_text (n : N) :
  (n <= 255)%N ->
  Chars.forallb (fun c => Chars.is_digit c && name_char c) (Whatwg.decimal n) = true
  /\ Whatwg.decimal n <> ""
  /\ Whatwg.starts_xn (Whatwg.decimal n) = false
  /\ Whatwg.parse_ipv4_number (Whatwg.decimal n) = Some n.
Proof.
  revert n. apply octet_ind. intros c.
  destruct c as [[] [] [] [] [] [] [] []]; vm_compute; repeat split; discriminate.
Qed.

Lemma digit_spec (c : ascii) :
  Chars.is_digit c && name_char c = true ->
  Chars.is_digit c = true /\ name_char c = true
  /\ Ascii.eqb c "." = false /\ Chars.to_lower c = c.
Proof.
  destruct c as [[] [] [] [] [] [] [] []]; vm_compute; intros H;
    try discriminate H; repeat split.
Qed.

Lemma split_at_sep (sep : ascii) (s t : string) :
  Chars.forallb (fun c => negb (Ascii.eqb c sep)) s = true ->
  Chars.split sep (s ++ String sep t) = s :: Chars.split sep t.
Proof.
  induction s as [| a s IH]; cbn [append Chars.split Chars.forallb]; intros H.
  - now rewrite Ascii.eqb_refl.
  - apply andb_prop in H. destruct H as [Ha Hs].
    apply negb_true_iff in Ha. now rewrite Ha, (IH Hs).
Qed.

Lemma map_append (f : ascii -> ascii) (s t : string) :
  Chars.map f (s ++ t) = Chars.map f s ++ Chars.map f t.
Proof.
  induction s as [| a s IH]; simpl; [reflexivity | now rewrite IH].
Qed.

Lemma octet_lower (s : string) :
  Chars.forallb (fun c => Chars.is_digit c && name_char c) s = true ->
  Chars.map Chars.to_lower s = s
  /\ Chars.forallb name_char s = true
  /\ Chars.forallb Chars.is_digit s = true
  /\ Chars.forallb (fun c => negb (Ascii.eqb c ".")) s = true.
Proof.
  induction s as [| a s IH]; intros H; [repeat split |].
  cbn [Chars.forallb] in H. apply andb_prop in H. destruct H as [Ha Hs].
  destruct (IH Hs) as (I1 & I2 & I3 & I4).
  destruct (digit_spec a Ha) as (D1 & D2 & D3 & D4).
  cbn [Chars.map Chars.forallb]. rewrite I1, I2, I3, I4, D1, D2, D3, D4.
  repeat split.
Qed.

Lemma ipv4_value (a b c d : N) :
  (a <= 255)%N -> (b <= 255)%N -> (c <= 255)%N -> (d <= 255)%N ->
  Whatwg.serialize_ipv4 (d + (a * 16777216 + (b * 65536 + (c * 256 + 0))))
  = Whatwg.decimal a ++ "." ++ Whatwg.decimal b ++ "." ++ Whatwg.decimal c
      ++ "." ++ Whatwg.decimal d.
Proof.
  intros Ha Hb Hc Hd. unfold Whatwg.serialize_ipv4.
  replace ((d + (a * 16777216 + (b * 65536 + (c * 256 + 0)))) / 16777216)%N
    with a by euclid.
  replace (((d + (a * 16777216 + (b * 65536 + (c * 256 + 0)))) / 65536) mod 256)%N
    with b by euclid.
  replace (((d + (a * 16777216 + (b * 65536 + (c * 256 + 0)))) / 256) mod 256)%N
    with c by euclid.
  replace ((d + (a * 16777216 + (b * 65536 + (c * 256 + 0)))) mod 256)%N
    with d by euclid.
  reflexivity.
Qed.

(** The host parser on four numbers from 0 to 255 with dots between them. *)
Lemma dotted_quad_fixed (na nb nc nd : N) :
  (na <= 255)%N -> (nb <= 255)%N -> (nc <= 255)%N -> (nd <= 255)%N ->
  let h := Whatwg.decimal na ++ "." ++ Whatwg.decimal nb ++ "."
             ++ Whatwg.decimal nc ++ "." ++ Whatwg.decimal nd in
  h <> ""
  /\ Chars.forallb plain_char h = true
  /\ Whatwg.parse_host h = Some h.
Proof.
  intros Hna Hnb Hnc Hnd.
  destruct (octet_text na Hna) as (A1 & A2 & A3 & A4).
  destruct (octet_text nb Hnb) as (B1 & B2 & B3 & B4).
  destruct (octet_text nc Hnc) as (C1 & C2 & C3 & C4).
  destruct (octet_text nd Hnd) as (D1 & D2 & D3 & D4).
  destruct (octet_lower _ A1) as (A5 & A6 & A7 & A8).
  destruct (octet_lower _ B1) as (B5 & B6 & B7 & B8).
  destruct (octet_lower _ C1) as (C5 & C6 & C7 & C8).
  destruct (octet_lower _ D1) as (D5 & D6 & D7 & D8).
  set (A := Whatwg.decimal na) in *. set (B := Whatwg.decimal nb) in *.
  set (C := Whatwg.decimal nc) in *. set (D := Whatwg.decimal nd) in *.
  intros h.
  assert (h = A ++ String "." (B ++ String "." (C ++ String "." D))) as Hh
      by reflexivity.
  assert (h <> "") as Hne.
  { rewrite Hh. destruct A; [contradiction | discriminate]. }
  assert (Chars.forallb name_char h = true) as Hname.
  { rewrite Hh, !forallb_append. cbn [Chars.forallb].
    change (name_char ".") with true.
    rewrite !forallb_append. cbn [Chars.forallb]. change (name_char ".") with true.
    rewrite !forallb_append. cbn [Chars.forallb]. change (name_char ".") with true.
    now rewrite A6, B6, C6, D6. }
  assert (Chars.split "." h = [A; B; C; D]) as Hsplit.
  { rewrite Hh, (split_at_sep "." A _ A8), (split_at_sep "." B _ B8),
      (split_at_sep "." C _ C8), (split_none "." D D8). reflexivity. }
  assert (Chars.map Chars.to_lower h = h) as Hlower.
  { rewrite Hh, map_append. cbn [Chars.map]. rewrite map_append. cbn [Chars.map].
    rewrite map_append. cbn [Chars.map]. now rewrite A5, B5, C5, D5. }
  assert (Whatwg.drop_last_empty [A; B; C; D] = [A; B; C; D]) as Hdrop.
  { unfold Whatwg.drop_last_empty. cbn [rev app].
    destruct D; [contradiction | reflexivity]. }
  destruct (parse_host_of_name h Hne Hname) as [Hplain Hhost].
  { rewrite Hsplit. cbn [existsb]. now rewrite A3, B3, C3, D3. }
  split; [exact Hne | split; [exact Hplain |]].
  rewrite Hhost, Hlower.
  assert (Whatwg.ends_in_a_number h = true) as ->.
  { unfold Whatwg.ends_in_a_number. rewrite Hsplit, Hdrop. cbn [rev app].
    rewrite D7. destruct D; [contradiction | reflexivity]. }
  unfold Whatwg.parse_ipv4. rewrite Hsplit, Hdrop.
  cbn [List.length Nat.ltb Nat.leb List.map Whatwg.all_some].
  rewrite A4, B4, C4, D4. cbn [Whatwg.all_some option_map rev app existsb].
  assert ((255 <? nc)%N = false) as -> by (apply N.ltb_ge; exact Hnc).
  assert ((255 <? nb)%N = false) as -> by (apply N.ltb_ge; exact Hnb).
  assert ((255 <? na)%N = false) as -> by (apply N.ltb_ge; exact Hna).
  cbn [orb List.length].
  change (256 ^ (5 - N.of_nat 4))%N with 256%N.
  assert ((256 <=? nd)%N = false) as -> by (apply N.leb_gt; lia).
  cbn [Whatwg.ipv4_sum].
  change (256 ^ (3 - 0))%N with 16777216%N.
  change (256 ^ (3 - (0 + 1)))%N with 65536%N.
  change (256 ^ (3 - (0 + 1 + 1)))%N with 256%N.
  cbn [option_map]. now rewrite (ipv4_value na nb nc nd Hna Hnb Hnc Hnd).
Qed.

(** X23.  With a URL parser that follows the URL Standard, [Host] accepts
    every IPv4 address written as four decimal numbers from 0 to 255,
    without leading zeros, and its payload is the text it was given. *)
Theorem host_ipv4_kept :
  forall a b c d : Z,
    0 <= a <= 255 -> 0 <= b <= 255 -> 0 <= c <= 255 -> 0 <= d <= 255 ->
    let h := Js.Number_toString a ++ "." ++ Js.Number_toString b ++ "."
               ++ Js.Number_toString c ++ "." ++ Js.Number_toString d in
    Host_new (P := reference) (Str h) = OK (mkField KHost h)
    /\ Chars.forallb plain_char h = true
    /\ Whatwg.parse_host h = Some h.
Proof.
  intros a b c d Ha Hb Hc Hd.
  rewrite !Number_toString_nonneg by lia.
  intros h.
  destruct (dotted_quad_fixed (Z.to_N a) (Z.to_N b) (Z.to_N c) (Z.to_N d))
    as (Hne & Hplain & Hfix); try lia.
  split; [| split; [exact Hplain | exact Hfix]].
  unfold h. rewrite (host_of_plain _ Hne Hplain), Hfix. reflexivity.
Qed.

Lemma host_ipv4_kept_witness :
  Host_new (P := reference) (Str "192.168.100.1")
  = OK (mkField KHost "192.168.100.1").
Proof.
  apply (host_ipv4_kept 192 168 100 1); lia.
Defined.

(** ** Padding written as [%3D] in a SIP002 URI *)

Lemma escaped_b64_char_spec (c : ascii) :
  escaped_b64_char c = true ->
  visible c = true
  /\ WhatwgURL.ends_authority c = false
  /\ Ascii.eqb c "@" = false
  /\ Ascii.eqb c ":" = false
  /\ Whatwg.userinfo_set c = false.
Proof.
  destruct c as [[] [] [] [] [] [] [] []]; vm_compute; intros H;
    try discriminate H; repeat split.
Qed.

Lemma escape_padding (info : string) :
  Chars.forallb b64_char info = true ->
  Chars.percent_encode (fun c => Ascii.eqb c "=") info
  = Chars.percent_encode Whatwg.userinfo_set info
  /\ Chars.forallb escaped_b64_char (Chars.percent_encode Whatwg.userinfo_set info)
     = true.
Proof.
  induction info as [| a info IH]; intros H; [split; reflexivity |].
  cbn [Chars.forallb] in H. apply andb_prop in H. destruct H as [Ha Hi].
  destruct (IH Hi) as [IH1 IH2]. cbn [Chars.percent_encode]. rewrite IH1.
  destruct (b64_char_spec a Ha) as (_ & _ & _ & Hu).
  destruct (Ascii.eqb_spec a "=") as [-> | Hne].
  - split; [reflexivity |]. change (Whatwg.userinfo_set "=") with true. cbv iota.
    change (Chars.percent_utf8 "=") with "%3D". cbn [append Chars.forallb].
    now rewrite IH2.
  - rewrite (Hu eq_refl). split; [reflexivity |]. cbn [append Chars.forallb].
    rewrite IH2, andb_true_r. unfold escaped_b64_char. rewrite Ha.
    destruct (Ascii.eqb_spec a "="); [contradiction | reflexivity].
Qed.

Lemma username_of_escaped (e : string) :
  Chars.forallb escaped_b64_char e = true ->
  WhatwgURL.username_of (Some e) = e.
Proof.
  intros H. unfold WhatwgURL.username_of. rewrite break_none.
  - apply percent_encode_outside. revert H. apply forallb_impl. intros c Hc.
    destruct (escaped_b64_char_spec c Hc) as (_ & _ & _ & _ & ->). reflexivity.
  - revert H. apply forallb_impl. intros c Hc.
    destruct (escaped_b64_char_spec c Hc) as (_ & _ & _ & -> & _). reflexivity.
Qed.

Lemma sip002_URL (userinfo hostport tail h : string) (p : option string) :
  userinfo <> "" ->
  Chars.forallb visible userinfo = true ->
  Chars.forallb (fun c => negb (WhatwgURL.ends_authority c)) userinfo = true ->
  Chars.forallb visible hostport = true ->
  Chars.forallb (fun c => negb (WhatwgURL.ends_authority c)) hostport = true ->
  Chars.forallb (fun c => negb (Ascii.eqb c "@")) hostport = true ->
  Chars.forallb visible tail = true ->
  WhatwgURL.split_port hostport false = (h, p) ->
  WhatwgURL.parse ("http://" ++ userinfo ++ "@" ++ hostport ++ "/" ++ tail)
  = match h, Whatwg.parse_host h,
          WhatwgURL.parse_port (match p with Some x => x | None => "" end)
    with
    | String _ _, Some host, Some port =>
        let '(query, fragment) := WhatwgURL.query_and_fragment (String "/" tail) in
        Some (URLObject.make
                host
                (match port with Some x => Whatwg.decimal x | None => "" end)
                (WhatwgURL.username_of (Some userinfo))
                (WhatwgURL.hash_of fragment)
                (Some (WhatwgURL.parse_query
                         (Chars.percent_encode Whatwg.special_query_set query))))
    | _, _, _ => None
    end.
Proof.
  intros Hne Hv He Hhv Hhe Hha Htv Hsp.
  assert ("http://" ++ userinfo ++ "@" ++ hostport ++ "/" ++ tail
          = "http://" ++ (userinfo ++ String "@" hostport) ++ String "/" tail) as ->
      by (repeat (cbn [append]; rewrite ?append_assoc); reflexivity).
  apply (URL_of_authority _ tail (Some userinfo) hostport h p).
  - destruct userinfo; discriminate.
  - rewrite forallb_append, Hv. cbn [Chars.forallb].
    change (visible "@") with true. now rewrite Hhv.
  - rewrite forallb_append, He. cbn [Chars.forallb].
    change (negb (WhatwgURL.ends_authority "@")) with true. now rewrite Hhe.
  - exact Htv.
  - now apply split_userinfo_some.
  - exact Hsp.
Qed.

(** X24.  The SIP002 parser reads user information whose padding is written
    [%3D] as it reads the same user information with [=].  On the reference
    platform, for every non-empty base64 text without [/], every text of
    host and port whose characters are above the space and none of
    [/ ? # \ @], and every tail of characters above the space, the two URIs
    parse to the same object or throw the same error. *)
Theorem sip002_escaped_padding :
  forall (info hostport tail : string),
    info <> "" ->
    Chars.forallb b64_char info = true ->
    Chars.forallb visible hostport = true ->
    Chars.forallb (fun c => negb (WhatwgURL.ends_authority c)) hostport = true ->
    Chars.forallb (fun c => negb (Ascii.eqb c "@")) hostport = true ->
    Chars.forallb visible tail = true ->
    Sip002URI_parse (P := reference)
      ("ss://" ++ Chars.percent_encode (fun c => Ascii.eqb c "=") info ++ "@"
         ++ hostport ++ "/" ++ tail)
    = Sip002URI_parse (P := reference)
        ("ss://" ++ info ++ "@" ++ hostport ++ "/" ++ tail).
Proof.
  intros info hostport tail Hne Hinfo Hhv Hhe Hha Htv.
  destruct (escape_padding info Hinfo) as [-> Hesc].
  set (e := Chars.percent_encode Whatwg.userinfo_set info) in *.
  assert (e <> "") as Hene.
  { subst e. destruct info as [| a info]; [contradiction |].
    cbn [Chars.percent_encode]. destruct (Whatwg.userinfo_set a).
    - unfold Chars.percent_utf8, Chars.percent_byte.
      destruct (_ <? _)%N; discriminate.
    - discriminate. }
  destruct (WhatwgURL.split_port hostport false) as [h p] eqn:Hsp.
  unfold Sip002URI_parse. rewrite !validateProtocol_ss, !sip002_input.
  cbn [bind URL reference]. unfold WhatwgURL.URL.
  rewrite (sip002_URL e hostport tail h p Hene).
  2:{ revert Hesc. apply forallb_impl. intros c Hc.
      now destruct (escaped_b64_char_spec c Hc). }
  2:{ revert Hesc. apply forallb_impl. intros c Hc.
      destruct (escaped_b64_char_spec c Hc) as (_ & -> & _). reflexivity. }
  2-6: assumption.
  rewrite (sip002_URL info hostport tail h p Hne
             (plain_visible _ (b64_plain _ Hinfo))
             (plain_inside_authority _ (b64_plain _ Hinfo)) Hhv Hhe Hha Htv Hsp).
  destruct h as [| a h']; [reflexivity |].
  destruct (Whatwg.parse_host (String a h')) as [host |]; [| reflexivity].
  destruct (WhatwgURL.parse_port _) as [port |]; [| reflexivity].
  destruct (WhatwgURL.query_and_fragment (String "/" tail)) as [q f].
  cbn [lift bind URLObject.hostname URLObject.port URLObject.username
       URLObject.hash URLObject.searchParams].
  rewrite (username_of_escaped e Hesc), (username_of_b64 info Hinfo).
  reflexivity.
Qed.

Lemma sip002_escaped_padding_witness :
  Sip002URI_parse (P := reference)
    "ss://YWVzLTEyOC1nY206dGVzdA%3D%3D@192.168.100.1:8888/#Foo%20Bar"
  = Sip002URI_parse (P := reference)
      "ss://YWVzLTEyOC1nY206dGVzdA==@192.168.100.1:8888/#Foo%20Bar".
Proof.
  apply (sip002_escaped_padding "YWVzLTEyOC1nY206dGVzdA==" "192.168.100.1:8888"
           "#Foo%20Bar"); [discriminate | reflexivity ..].
Defined.

(** ** A [/] in the user information of a SIP002 URI *)

(** The URL parser on an [http] URL that ends with its authority. *)
Lemma URL_of_bare_authority (authority : string) (userinfo : option string)
  (hostport h : string) (p : option string) :
  authority <> "" ->
  Chars.forallb visible authority = true ->
  Chars.forallb (fun c => negb (WhatwgURL.ends_authority c)) authority = true ->
  WhatwgURL.split_userinfo authority = (userinfo, hostport) ->
  WhatwgURL.split_port hostport false = (h, p) ->
  WhatwgURL.parse ("http://" ++ authority)
  = match h, Whatwg.parse_host h,
          WhatwgURL.parse_port (match p with Some x => x | None => "" end)
    with
    | String _ _, Some host, Some port =>
        Some (URLObject.make
                host
                (match port with Some x => Whatwg.decimal x | None => "" end)
                (WhatwgURL.username_of userinfo) "" (Some nil))
    | _, _, _ => None
    end.
Proof.
  intros Hne Hva Hta Hu Hp. unfold WhatwgURL.parse.
  rewrite preprocess_visible.
  2:{ rewrite forallb_append, Hva. reflexivity. }
  rewrite after_http_literal, ignore_slashes_stop.
  2:{ destruct authority as [| a r]; [contradiction |]. simpl in Hta |- *.
      apply andb_prop in Hta. destruct Hta as [Ha _].
      apply negb_true_iff in Ha. now apply not_ending_not_slash. }
  rewrite (break_none _ authority Hta), Hu, Hp. reflexivity.
Qed.

(** The SIP002 parser on a string whose authority is a base64 text: it has
    no port. *)
Lemma sip002_refuses_bare (x after : string) :
  x <> "" ->
  Chars.forallb b64_char x = true ->
  after = ""
  \/ (exists c rest, after = String c rest /\ WhatwgURL.ends_authority c = true) ->
  exists e,
    Sip002URI_parse (P := reference) ("ss://" ++ x ++ after) = Throw e
    /\ (e = NativeError "TypeError" "Invalid URL"
        \/ exists message, e = InvalidConfigField message).
Proof.
  intros Hne Hx Hafter. pose proof (b64_plain x Hx) as Hplain.
  unfold Sip002URI_parse. rewrite validateProtocol_ss, sip002_input. cbn [bind].
  cbn [URL reference]. unfold WhatwgURL.URL.
  assert (exists username hash searchParams,
             WhatwgURL.parse ("http://" ++ x ++ after)
             = match Whatwg.parse_host x with
               | Some host =>
                   Some (URLObject.make host "" username hash searchParams)
               | None => None
               end) as (username & hash & searchParams & ->).
  { destruct Hafter as [-> | (c & rest & -> & Hc)].
    - rewrite append_nil_r.
      rewrite (URL_of_bare_authority x None x x None Hne
                 (plain_visible x Hplain) (plain_inside_authority x Hplain)
                 (split_userinfo_none x (plain_no_at x Hplain))
                 (split_port_none x Hplain)).
      exists "", "", (Some nil).
      destruct x as [| a x']; [contradiction |].
      destruct (Whatwg.parse_host (String a x')); reflexivity.
    - destruct (URL_of_authority_any x rest c None x x None Hne
                  (plain_visible x Hplain) (plain_inside_authority x Hplain) Hc
                  (split_userinfo_none x (plain_no_at x Hplain))
                  (split_port_none x Hplain)) as (hash & searchParams & ->).
      exists "", hash, searchParams.
      destruct x as [| a x']; [contradiction |].
      destruct (Whatwg.parse_host (String a x')); reflexivity. }
  destruct (Whatwg.parse_host x) as [host |].
  - cbn [lift bind URLObject.hostname URLObject.port].
    destruct (Host_new (P := reference) (Str host)) as [f | e] eqn:Hh.
    + cbn [bind]. eexists. split; [reflexivity | right; eauto].
    + cbn [bind]. exists e. split; [reflexivity | right].
      unfold Host_new, throwErrorForInvalidField in Hh.
      destruct (URL _); [discriminate Hh |]. injection Hh as <-. eauto.
  - cbn [lift bind]. eexists. split; [reflexivity | now left].
Qed.

(** X25.  The SIP002 serializer writes the base64 text of [method:password]
    as it is, and standard base64 has a [/] among its characters.  With a
    URL parser that follows the URL Standard the authority of a URL ends at
    the first [/], so such a URI is not read back: for every string that is
    ["ss://"], a non-empty base64 text without [/], a [/] and anything, the
    SIP002 parser throws, either the [TypeError] of the URL parser or an
    [InvalidConfigField] for the host or the port.  This is so for the URI
    of every SIP002 object whose user information has a [/] that is not its
    first character. *)
Theorem sip002_slash_not_read_back :
  (forall (x rest : string),
      x <> "" ->
      Chars.forallb b64_char x = true ->
      exists e,
        Sip002URI_parse (P := reference) ("ss://" ++ x ++ "/" ++ rest) = Throw e
        /\ (e = NativeError "TypeError" "Invalid URL"
            \/ exists message, e = InvalidConfigField message))
  /\ (forall (config : UnsafeConfig) (u : Sip002URI) (uri x y : string),
         Sip002URI_new (P := reference) config = OK u ->
         Sip002URI_toString (P := reference) u = OK uri ->
         Sip002URI.b64EncodedUserInfo u = x ++ "/" ++ y ->
         x <> "" ->
         Chars.forallb b64_char x = true ->
         exists e, Sip002URI_parse (P := reference) uri = Throw e).
Proof.
  split.
  - intros x rest Hne Hx. apply sip002_refuses_bare; [exact Hne | exact Hx |].
    right. exists "/"%char, rest. split; reflexivity.
  - intros config u uri x y Hnew Hstr Hinfo Hne Hx.
    unfold Sip002URI_toString in Hstr. apply bind_OK in Hstr.
    destruct Hstr as (hash & _ & Hstr). apply OK_inj in Hstr. subst uri.
    rewrite Hinfo.
    destruct (sip002_refuses_bare x
                (String "/" (y ++ "@" ++ Config.host (Sip002URI.super u) ++ ":"
                   ++ Config.port (Sip002URI.super u) ++ "/"
                   ++ (if truthy (VString (Sip002URI.plugin u))
                       then "?plugin=" ++ Sip002URI.plugin u else "") ++ hash))
                Hne Hx) as (e & He & _).
    { right. eexists. eexists. split; reflexivity. }
    exists e. rewrite <- He. f_equal.
    repeat (cbn [append]; rewrite ?append_assoc). reflexivity.
Qed.

Lemma sip002_slash_not_read_back_witness :
  exists u uri,
    Sip002URI_new (P := reference)
      (UnsafeConfig.make (Str "192.168.100.1") (Num 8888) (Str "aes-128-gcm")
                         (Str "???") Undefined Undefined) = OK u
    /\ Sip002URI_toString (P := reference) u = OK uri
    /\ uri = "ss://YWVzLTEyOC1nY206Pz8/@192.168.100.1:8888/"
    /\ exists e, Sip002URI_parse (P := reference) uri = Throw e.
Proof.
  pose (config := UnsafeConfig.make (Str "192.168.100.1") (Num 8888)
                    (Str "aes-128-gcm") (Str "???") Undefined Undefined).
  let r := eval vm_compute in (Sip002URI_new (P := reference) config) in
  match r with
  | OK ?u =>
      exists u, "ss://YWVzLTEyOC1nY206Pz8/@192.168.100.1:8888/";
      split; [vm_compute; reflexivity |];
      split; [vm_compute; reflexivity |];
      split; [reflexivity |];
      apply (proj2 sip002_slash_not_read_back config u _ "YWVzLTEyOC1nY206Pz8" "");
      [vm_compute; reflexivity | vm_compute; reflexivity | reflexivity
      | discriminate | reflexivity]
  end.
Defined.

(** ** The order of the parsers and the URIs the serializers write *)

Lemma first_slash (s : string) :
  Js.indexOf s "/" = -1
  \/ exists s1 s2, s = s1 ++ String "/" s2 /\ Js.indexOf s1 "/" = -1.
Proof.
  induction s as [| a s IH]; [now left |].
  destruct (Ascii.eqb_spec a "/") as [-> | Hne].
  - right. exists "", s. split; reflexivity.
  - assert (Js.indexOf (String a "") "/" = -1) as Ha.
    { unfold Js.indexOf. cbn [Js.indexOf_from].
      destruct (Ascii.eqb_spec a "/"); [contradiction | reflexivity]. }
    destruct IH as [IH | (s1 & s2 & -> & H1)].
    + left. now apply (indexOf_absent_append "/" (String a "") s).
    + right. exists (String a s1), s2. split; [reflexivity |].
      now apply (indexOf_absent_append "/" (String a "") s1).
Qed.

Lemma in_TABLE_b64_chars (s : string) :
  in_TABLE s -> Js.indexOf s "/" = -1 -> Chars.forallb b64_char s = true.
Proof.
  intros Ht Hs. apply no_slash_b64_chars; [exact Hs |].
  revert Ht. unfold in_TABLE. apply forallb_impl.
  intros c Hc. destruct (Base64.TABLE_indexOf c); [reflexivity | discriminate Hc].
Qed.

(** The base64 text of a text that starts with a known method starts with a
    character other than [/]. *)
Lemma b64_body_of_method (m t : string) :
  METHODS_has (VString m) = true ->
  exists a r, b64_body (m ++ t) = String a r /\ a <> "/"%char.
Proof.
  intros H. apply METHODS_has_In in H. unfold METHODS in H. cbn [In] in H.
  repeat (destruct H as [<- | H];
          [cbn [append b64_body]; eexists; eexists; split;
           [reflexivity | intros E; vm_compute in E; discriminate E] |]).
  contradiction.
Qed.

(** The SIP002 parser of the reference platform on a URI the legacy
    serializer wrote. *)
Lemma sip002_refuses_legacy (config : UnsafeConfig) (u : LegacyBase64URI)
  (uri : string) :
  LegacyBase64URI_new (P := reference) config = OK u ->
  LegacyBase64URI_toString (P := reference) u = OK uri ->
  exists e, Sip002URI_parse (P := reference) uri = Throw e.
Proof.
  intros Hnew Hstr.
  destruct (LegacyBase64URI_new_OK _ _ Hnew) as (b64 & Henc & Hdata & Hm).
  set (c := LegacyBase64URI.super u) in *.
  cbn [b64Encode reference] in Henc. unfold Base64.encode in Henc.
  apply Returns_inj in Henc. subst b64.
  set (d := Config.password c ++ "@" ++ Config.host c ++ ":" ++ Config.port c)
    in *.
  assert (Config.method c ++ ":" ++ d
          = Config.method c ++ (":" ++ d)) as Hd by reflexivity.
  destruct (encode_loop_body (Config.method c ++ ":" ++ d)) as [k Hk].
  destruct (b64_body_decodes (Config.method c ++ ":" ++ d)) as (Ht & _).
  rewrite Hk, (stripPadding_append _ k (in_TABLE_unpadded _ Ht)) in Hdata.
  destruct (b64_body_of_method (Config.method c) (":" ++ d) Hm)
    as (a & r & Hbody & Ha).
  unfold LegacyBase64URI_toString in Hstr.
  rewrite (getHash_tag _ (Config.tag c)) in Hstr by reflexivity.
  destruct (tag_as_fragment (Config.tag c)) as (fragment & Hf & _).
  rewrite Hf in Hstr. cbn [bind] in Hstr. apply OK_inj in Hstr. subst uri.
  rewrite Hdata.
  destruct (first_slash (b64_body (Config.method c ++ ":" ++ d)))
    as [Hnone | (s1 & s2 & Hs & H1)].
  - destruct (sip002_refuses_bare (b64_body (Config.method c ++ ":" ++ d))
                (with_fragment fragment)) as (e & He & _).
    + rewrite Hbody. discriminate.
    + now apply in_TABLE_b64_chars.
    + destruct fragment as [e |]; [right | now left].
      exists "#"%char, e. split; reflexivity.
    + eauto.
  - rewrite Hs in Ht, Hbody |- *.
    assert (in_TABLE s1) as Ht1.
    { unfold in_TABLE in Ht |- *. rewrite forallb_append in Ht.
      apply andb_prop in Ht. now destruct Ht. }
    destruct (sip002_refuses_bare s1 (String "/" s2 ++ with_fragment fragment))
      as (e & He & _).
    + destruct s1 as [| b s1']; [| discriminate].
      cbn [append] in Hbody. injection Hbody as <- _. now destruct Ha.
    + now apply in_TABLE_b64_chars.
    + right. exists "/"%char, (s2 ++ with_fragment fragment). split; reflexivity.
    + exists e. rewrite <- He. f_equal.
      repeat (cbn [append]; rewrite ?append_assoc). reflexivity.
Qed.

(** X26.  On the reference platform no URI that a serializer writes is read
    by the parser of the other format: the SIP002 parser throws on every
    URI the legacy serializer writes, and the legacy parser throws on every
    URI the SIP002 serializer writes.  So for these URIs the order in which
    the dispatcher tries the two parsers does not change what it returns:
    it returns an object exactly when trying SIP002 first would return the
    same object. *)
Theorem serialized_uris_have_one_reading :
  (forall (config : UnsafeConfig) (u : LegacyBase64URI) (uri : string),
      LegacyBase64URI_new (P := reference) config = OK u ->
      LegacyBase64URI_toString (P := reference) u = OK uri ->
      (exists e, Sip002URI_parse (P := reference) uri = Throw e)
      /\ forall p, ShadowsocksURI_parse (P := reference) uri = OK p <->
                   parse_SIP002_first (P := reference) uri = OK p)
  /\ (forall (config : UnsafeConfig) (u : Sip002URI) (uri : string),
         Sip002URI_new (P := reference) config = OK u ->
         Sip002URI_toString (P := reference) u = OK uri ->
         (exists e, LegacyBase64URI_parse (P := reference) uri = Throw e)
         /\ forall p, ShadowsocksURI_parse (P := reference) uri = OK p <->
                      parse_SIP002_first (P := reference) uri = OK p).
Proof.
  split.
  - intros config u uri Hnew Hstr.
    destruct (sip002_refuses_legacy config u uri Hnew Hstr) as [e He].
    split; [eauto |]. intros p.
    unfold ShadowsocksURI_parse, parse_SIP002_first, parse_with, parse_for,
      UriType_parse.
    rewrite He. cbn [bind].
    destruct (LegacyBase64URI_parse (P := reference) uri) as [u' | e'];
      cbn [bind]; [reflexivity |].
    split; discriminate.
  - intros config u uri Hnew Hstr.
    destruct (Sip002URI_new_OK _ _ Hnew) as (Henc & _ & _).
    cbn [b64Encode reference] in Henc. unfold Base64.encode in Henc.
    apply Returns_inj in Henc.
    pose proof Hstr as Hshape.
    unfold Sip002URI_toString in Hshape. apply bind_OK in Hshape.
    destruct Hshape as (hash & _ & Hshape). apply OK_inj in Hshape.
    assert (Js.indexOf (Sip002URI.b64EncodedUserInfo u) "#" = -1) as Hi
        by (rewrite <- Henc; apply encode_loop_no_hash).
    destruct (legacy_refuses_at _
                (Config.host (Sip002URI.super u) ++ ":"
                   ++ Config.port (Sip002URI.super u) ++ "/"
                   ++ (if truthy (VString (Sip002URI.plugin u))
                       then "?plugin=" ++ Sip002URI.plugin u else "") ++ hash) Hi)
      as (name & message & Hl).
    change (String "@" ?x) with ("@" ++ x) in Hl. rewrite Hshape in Hl.
    split; [eauto |]. intros p.
    unfold ShadowsocksURI_parse, parse_SIP002_first, parse_with, parse_for,
      UriType_parse.
    rewrite Hl. cbn [bind].
    destruct (Sip002URI_parse (P := reference) uri) as [u' | e'];
      cbn [bind]; [reflexivity |].
    split; discriminate.
Qed.

Lemma serialized_uris_have_one_reading_witness :
  exists e,
    Sip002URI_parse (P := reference)
      "ss://YmYtY2ZiOnRlc3RAMTkyLjE2OC4xMDAuMTo4ODg4#Foo%20Bar" = Throw e.
Proof.
  pose (config := literal "192.168.100.1" "bf-cfb").
  let r := eval vm_compute in (LegacyBase64URI_new (P := reference) config) in
  match r with
  | OK ?u =>
      apply (proj1 (proj1 serialized_uris_have_one_reading config u
                      "ss://YmYtY2ZiOnRlc3RAMTkyLjE2OC4xMDAuMTo4ODg4#Foo%20Bar"
                      ltac:(vm_compute; reflexivity)
                      ltac:(vm_compute; reflexivity)))
  end.
Defined.

(** ** Hosts the URL parser returns *)













(** ** Valid configurations on the reference platform *)




(** Where the round trip fails outside the conditions of [round_trip]: a
    SIP002 URI whose base64 text has a [/] is refused by the SIP002 parser;
    a plugin with a [#] comes back cut, its end read as the tag; and the
    legacy URI of an IPv6 host is refused by the legacy parser. *)
Lemma round_trip_needs_its_conditions :
  (u <- Sip002URI_new (P := reference)
          (UnsafeConfig.make (Str "192.168.100.1") (Num 8888) (Str "aes-128-gcm")
                             (Str "???") Undefined Undefined) ;;
   uri <- Sip002URI_toString (P := reference) u ;;
   Sip002URI_parse (P := reference) uri)
  = Throw (InvalidConfigField "Invalid port: ")
  /\ (exists u u',
         Sip002URI_new (P := reference)
           (UnsafeConfig.make (Str "192.168.100.1") (Num 8888) (Str "aes-128-gcm")
                              (Str "test") Undefined (Str "a#b")) = OK u
         /\ Sip002URI_toString (P := reference) u
            = OK "ss://YWVzLTEyOC1nY206dGVzdA==@192.168.100.1:8888/?plugin=a#b"
         /\ Sip002URI_parse (P := reference)
              "ss://YWVzLTEyOC1nY206dGVzdA==@192.168.100.1:8888/?plugin=a#b" = OK u'
         /\ Sip002URI.plugin u = "a#b" /\ Config.tag (Sip002URI.super u) = ""
         /\ Sip002URI.plugin u' = "a" /\ Config.tag (Sip002URI.super u') = "b")
  /\ (u <- LegacyBase64URI_new (P := reference)
             (UnsafeConfig.make (Str "[::1]") (Num 8888) (Str "aes-128-gcm")
                                (Str "test") Undefined Undefined) ;;
      uri <- LegacyBase64URI_toString (P := reference) u ;;
      LegacyBase64URI_parse (P := reference) uri)
     = Throw (InvalidConfigField "Invalid host: [").
Proof.
  split; [vm_compute; reflexivity | split; [| vm_compute; reflexivity]].
  let r := eval vm_compute in
    (Sip002URI_new (P := reference)
       (UnsafeConfig.make (Str "192.168.100.1") (Num 8888) (Str "aes-128-gcm")
                          (Str "test") Undefined (Str "a#b"))) in
  match r with OK ?u => exists u end.
  let r := eval vm_compute in
    (Sip002URI_parse (P := reference)
       "ss://YWVzLTEyOC1nY206dGVzdA==@192.168.100.1:8888/?plugin=a#b") in
  match r with OK ?u => exists u end.
  repeat split; vm_compute; reflexivity.
Qed.





